(** * HiSim: the load-profile connector, the system chart and the dispatch engine

    A shallow embedding of the Python sources

      - [hisim/components/loadprofilegenerator_utsp_connector.py]
        (class [UtspLpgConnector]: [build] and [i_simulate]),
      - [hisim/postprocessing/system_chart.py] (class [SystemChart]),
      - [examples/basic_dynamic_components.py] (the wiring of the generic
        energy-management controller),

    together with models of the dispatch controller and of the scheduler's
    retry loop, whose code is not part of the sources at hand and which are
    therefore written down from the specification.

    Conventions.  Python [int] values are modelled by [Z]; a Python
    exception by the [Raise] constructor of [result]; a list indexed or
    sliced by integers follows Python's rules for negative and out-of-range
    positions.  The physical quantities ([float] values: temperatures,
    powers, volumes) are modelled by exact rationals [Q]; their binary
    rounding is not modelled.  The number of simulation steps, where the
    code truncates a [float] product to an [int] and the rounding decides
    the result, is evaluated in binary64 with the standard library's
    [SpecFloat]. *)

From Stdlib Require Import ZArith QArith Qround Lia List String Ascii SpecFloat.
From stdpp Require Import base option list sorting gmap strings.

Local Open Scope Z_scope.

(** ** A fragment of the Python run time *)

Module Py.

(** The subclasses of Python's [Exception] that the embedded code can raise.
    [PyException] is a plain [raise Exception(msg)]; [OSError] stands for any
    failure of the operating system or of an external tool. *)
Inductive exn : Type :=
  | ZeroDivisionError
  | IndexError
  | KeyError (key : string)
  | ValueError (msg : string)
  | OverflowError (msg : string)
  | OSError (msg : string)
  | PyException (msg : string).

Definition apostrophe : ascii := ascii_of_nat 39.
Definition double_quote : ascii := ascii_of_nat 34.
Definition backslash : ascii := ascii_of_nat 92.

(** One lower-case hexadecimal digit. *)
Definition hex_digit (n : nat) : ascii :=
  if (n <? 10)%nat then ascii_of_nat (48 + n) else ascii_of_nat (87 + n).

(** [c in s] for a character *)
Fixpoint contains (c : ascii) (s : string) : bool :=
  match s with
  | EmptyString => false
  | String c' rest => Ascii.eqb c c' || contains c rest
  end.

(** One character of [repr(s)]: the quote in use and the backslash get a
    backslash in front; tab, newline and carriage return are written
    backslash-t, backslash-n, backslash-r; the other control characters
    backslash-x and two hexadecimal digits; everything else stands for
    itself. *)
Definition repr_char (quote c : ascii) : string :=
  let n := nat_of_ascii c in
  if Ascii.eqb c quote || Ascii.eqb c backslash then String backslash (String c "")
  else if (n =? 9)%nat then "\t"
  else if (n =? 10)%nat then "\n"
  else if (n =? 13)%nat then "\r"
  else if (n <? 32)%nat || (n =? 127)%nat then
    String backslash
      (String "x" (String (hex_digit (n / 16)) (String (hex_digit (n mod 16)) "")))
  else String c "".

Fixpoint repr_body (quote : ascii) (s : string) : string :=
  match s with
  | EmptyString => EmptyString
  | String c rest => repr_char quote c +:+ repr_body quote rest
  end.

(** [repr(s)] of a [str], on its bytes: between apostrophes, or between
    double quotes when the text holds an apostrophe and no double quote.
    A byte above 127 belongs to the UTF-8 encoding of a further character
    and is kept, as Python keeps every printable character; [is_ascii]
    singles out the strings without such bytes. *)
Definition py_repr (s : string) : string :=
  let quote :=
    if contains apostrophe s && negb (contains double_quote s)
    then double_quote else apostrophe in
  String quote (repr_body quote s +:+ String quote "").

(** [s.isascii()] *)
Definition is_ascii (s : string) : bool :=
  forallb (λ c, (nat_of_ascii c <? 128)%nat) (list_ascii_of_string s).

(** [str(exc)]: the message, and for a [KeyError] the [repr] of the key. *)
Definition str_exn (e : exn) : string :=
  match e with
  | ZeroDivisionError => "division by zero"
  | IndexError => "list index out of range"
  | KeyError k => py_repr k
  | ValueError m => m
  | OverflowError m => m
  | OSError m => m
  | PyException m => m
  end.

(** The outcome of evaluating an expression: a value, or a raised exception. *)
Inductive result (A : Type) : Type :=
  | Ok (a : A)
  | Raise (e : exn).
Arguments Ok {A} a.
Arguments Raise {A} e.

#[export] Instance result_ret : MRet result := λ A a, Ok a.
#[export] Instance result_bind : MBind result := λ A B k r,
  match r with
  | Ok a => k a
  | Raise e => Raise e
  end.

Definition is_ok {A} (r : result A) : bool :=
  match r with Ok _ => true | Raise _ => false end.

(** [len(l)] *)
Definition len {A} (l : list A) : Z := Z.of_nat (length l).

(** [l[i]]: a negative index counts from the end, an index outside
    [-len(l) .. len(l)-1] raises [IndexError]. *)
Definition py_index {A} (l : list A) (i : Z) : result A :=
  let j := if i <? 0 then i + len l else i in
  if (j <? 0) || (len l <=? j) then Raise IndexError
  else match l !! Z.to_nat j with
       | Some x => Ok x
       | None => Raise IndexError
       end.

(** The clamping of one bound of a slice with step 1. *)
Definition slice_bound (n i : Z) : Z :=
  if i <? 0 then Z.max 0 (i + n) else Z.min i n.

(** [l[a:b]]: never raises, always a fresh list. *)
Definition py_slice {A} (l : list A) (a b : Z) : list A :=
  let lo := slice_bound (len l) a in
  let hi := slice_bound (len l) b in
  take (Z.to_nat (hi - lo)) (drop (Z.to_nat lo) l).

(** [range(n)] *)
Definition py_range (n : Z) : list Z :=
  Z.of_nat <$> seq 0 (Z.to_nat n).

(** [range(0, stop, step)]: [ValueError] for a zero step, empty for a
    negative step and a non-negative [stop]. *)
Definition py_range_step (stop step : Z) : result (list Z) :=
  if step =? 0 then Raise (ValueError "range() arg 3 must not be zero")
  else if step <? 0 then
    (* start 0: counts down from 0 while above [stop] *)
    Ok ((λ k, k * step) <$> py_range ((- stop + (- step) - 1) / (- step)))
  else Ok ((λ k, k * step) <$> py_range ((stop + step - 1) / step)).

(** [sum(l)] over floats *)
Definition py_sum (l : list Q) : Q := foldl Qplus 0%Q l.

(** [int(x)] of a float: truncation towards zero. *)
Definition int_of_float (x : Q) : Z :=
  if Qle_bool 0 x then Qfloor x else Qceiling x.

(** [float] values as binary64: [SpecFloat] at 53 bits of precision. *)
Definition binary64_prec : Z := 53.
Definition binary64_emax : Z := 1024.

(** An [int] as a dyadic number with exponent 0, not rounded. *)
Definition dyadic_of_int (n : Z) : spec_float :=
  match n with
  | Z0 => S754_zero false
  | Zpos m => S754_finite false m 0
  | Zneg m => S754_finite true m 0
  end.

(** [float(n)] of an [int]: the nearest float, ties to even. *)
Definition float_of_int (n : Z) : result spec_float :=
  match binary_normalize binary64_prec binary64_emax n 0 false with
  | S754_infinity _ => Raise (OverflowError "int too large to convert to float")
  | x => Ok x
  end.

(** [a / b] on two [int]s: the quotient, rounded once to the nearest float. *)
Definition int_true_div (a b : Z) : result spec_float :=
  if b =? 0 then Raise ZeroDivisionError
  else match SFdiv binary64_prec binary64_emax (dyadic_of_int a) (dyadic_of_int b) with
       | S754_infinity _ =>
           Raise (OverflowError "integer division result too large for a float")
       | x => Ok x
       end.

(** [n * x] for an [int] and a [float]: the [int] is converted first. *)
Definition int_mul_float (n : Z) (x : spec_float) : result spec_float :=
  y ← float_of_int n; Ok (SFmul binary64_prec binary64_emax y x).

(** [int(x)] of a binary64 [float]: truncation towards zero. *)
Definition int_of_binary64 (x : spec_float) : result Z :=
  match x with
  | S754_zero _ => Ok 0
  | S754_finite s m e =>
      let magnitude := if 0 <=? e then Z.shiftl (Zpos m) e else Z.shiftr (Zpos m) (- e) in
      Ok (if s then - magnitude else magnitude)
  | S754_infinity _ => Raise (OverflowError "cannot convert float infinity to integer")
  | S754_nan => Raise (ValueError "cannot convert float NaN to integer")
  end.

(** [a / b] on numbers: true division, [ZeroDivisionError] for a zero
    divisor. *)
Definition py_div (a b : Q) : result Q :=
  if Qeq_bool b 0 then Raise ZeroDivisionError else Ok (a / b)%Q.

(** [np.round(x)]: to the nearest integer, ties to the even one. *)
Definition np_round (x : Q) : Q :=
  let f := Qfloor x in
  let d := (x - inject_Z f)%Q in
  match (d ?= 1 # 2)%Q with
  | Lt => inject_Z f
  | Gt => inject_Z (f + 1)
  | Eq => if Z.even f then inject_Z f else inject_Z (f + 1)
  end.

(** [a > b], [a == b] on floats *)
Definition Qgtb (a b : Q) : bool := negb (Qle_bool a b).
Definition Qeqb (a b : Q) : bool := Qeq_bool a b.

(** [os.path.join(directory, filename)] for a relative [filename] *)
Definition path_join (directory filename : string) : string :=
  if String.eqb directory "" then filename
  else if String.eqb (String.substring (String.length directory - 1) 1 directory) "/"
       then directory +:+ filename
       else directory +:+ "/" +:+ filename.

(** Iteration with an accumulator, stopping at the first exception. *)
Fixpoint for_each {A S} (l : list A) (body : S → A → result S) (s : S) : result S :=
  match l with
  | [] => Ok s
  | x :: rest => s' ← body s x; for_each rest body s'
  end.

(** A list comprehension whose element expression may raise. *)
Fixpoint comprehension {A B} (f : A → result B) (l : list A) : result (list B) :=
  match l with
  | [] => Ok []
  | x :: rest => y ← f x; ys ← comprehension f rest; Ok (y :: ys)
  end.

(** [max(l)] over floats *)
Definition py_max (l : list Q) : result Q :=
  match l with
  | [] => Raise (ValueError "max() arg is an empty sequence")
  | x :: rest => Ok (foldl (λ m y, if Qgtb y m then y else m) x rest)
  end.

End Py.
Import Py.


(** ** The dispatch controller (weighted multi-source allocator)

    The controller class ([controller_l2_energy_management_system]) is not
    among the sources; only its wiring in
    [examples/basic_dynamic_components.py] is. *)

Module Dispatch.

(** Modelled from the spec: the controller class is missing.  A bound source
    as the controller sees it: the producer it was wired to, the tags and the
    weight of the registration, and the output its capacity currently
    allows. *)
Record Source : Type := mkSource {
  src_name : string;
  src_tags : list string;
  weight : Z;
  capacity : Z
}.

Definition by_weight (a b : Source) : Prop := weight a ≤ weight b.

(** Modelled from the spec: the controller class is missing.  "Sort bound
    sources by weight ascending (lower weight = higher priority, matching
    the source ordering used at wiring time)": a source goes in front of the
    first source that is not lighter, so that sources of equal weight stay
    in the order of their registration. *)
Fixpoint insert_by_weight (s : Source) (sorted : list Source) : list Source :=
  match sorted with
  | [] => [s]
  | x :: rest =>
      if decide (weight s ≤ weight x) then s :: x :: rest
      else x :: insert_by_weight s rest
  end.

(** Modelled from the spec: the controller class is missing.  The bound
    sources sorted by weight ascending, by insertion. *)
Definition sort_by_weight (srcs : list Source) : list Source :=
  foldr insert_by_weight [] srcs.

(** Modelled from the spec: the controller class is missing.  What one source
    takes of the outstanding requirement: as much as its capacity allows; a
    negative requirement (a surplus to absorb) is served "in the opposite
    polarity". *)
Definition allocate (outstanding cap : Z) : Z :=
  if 0 <=? outstanding then Z.min outstanding cap
  else Z.max outstanding (- cap).

(** Modelled from the spec: the controller class is missing.  "Walk the
    sorted list, allocating ..., decrementing the outstanding requirement,
    and emitting a target output for each source equal to its allocation";
    the second component is the unmet remainder. *)
Fixpoint walk (outstanding : Z) (srcs : list Source) : list (Source * Z) * Z :=
  match srcs with
  | [] => ([], outstanding)
  | s :: rest =>
      let a := allocate outstanding (capacity s) in
      let '(targets, unmet) := walk (outstanding - a) rest in
      ((s, a) :: targets, unmet)
  end.

(** Modelled from the spec: the controller class is missing.  One run of the
    controller: the per-source targets in weight order and the unmet
    remainder. *)
Definition dispatch (srcs : list Source) (requirement : Z) : list (Source * Z) * Z :=
  walk requirement (sort_by_weight srcs).

Definition targets_of (r : list (Source * Z) * Z) : list Z := snd <$> r.1.

Definition sum_targets (l : list Z) : Z := foldr Z.add 0 l.

(** Modelled from the spec: the controller class is missing.  "Walking the
    sorted list allocates to each source the minimum of the outstanding
    requirement and that source's capacity, decrementing the outstanding
    requirement as it goes": the target of the source at position [i] is the
    minimum of its capacity and of the requirement less the targets before
    it. *)
Definition serves_by_min_rule (srcs : list Source) (requirement : Z) : Prop :=
  let r := dispatch srcs requirement in
  ∀ i s a, r.1 !! i = Some (s, a) →
    a = Z.min (requirement - sum_targets (take i (targets_of r))) (capacity s).

(** Modelled from the spec: the controller class is missing.  "The same
    weighted walk applies, but in the opposite polarity": the target is the
    greater of the outstanding surplus and of minus the capacity. *)
Definition serves_by_max_rule (srcs : list Source) (requirement : Z) : Prop :=
  let r := dispatch srcs requirement in
  ∀ i s a, r.1 !! i = Some (s, a) →
    a = Z.max (requirement - sum_targets (take i (targets_of r))) (- capacity s).

(** The registrations of [basic_household_explicit]
    (examples/basic_dynamic_components.py): two batteries with weights 1 and
    2, two fuel cells with weights 3 and 4, listed in the order of the
    [add_component_input_and_connect] calls.  The capacities are not part of
    the wiring and are left as arguments. *)
Definition basic_household_sources (c1 c2 c3 c4 : Z) : list Source :=
  [ mkSource "Battery1" ["Battery"; "ElectricityReal"] 1 c1;
    mkSource "Battery2" ["Battery"; "ElectricityReal"] 2 c2;
    mkSource "CHP1" ["FuelCell"; "ElectricityReal"] 3 c3;
    mkSource "CHP2" ["FuelCell"; "ElectricityReal"] 4 c4 ].

(** The three sources of the spec's worked example, registered out of
    order. *)
Definition example_sources : list Source :=
  [ mkSource "C" [] 3 5; mkSource "A" [] 1 5; mkSource "B" [] 2 5 ].

End Dispatch.

(** ** The scheduler's convergence loop

    The scheduler ([hisim/simulator.py]) is not among the sources. *)

Module Scheduler.

(** Modelled from the spec: the scheduler is missing.  The non-fatal event
    "a stability predicate did not settle within the retry bound", recorded
    with the time step it belongs to. *)
Inductive ConvergenceWarning : Type := convergence_warning (timestep : nat).

(** Modelled from the spec: the scheduler is missing.  What one time step
    leaves behind: the last computed values, the number of iterations run,
    and whether a warning was raised. *)
Record StepOutcome (Values : Type) : Type := mkOutcome {
  out_values : Values;
  iterations : nat;
  warning : bool
}.
Arguments mkOutcome {Values}.
Arguments out_values {Values}.
Arguments iterations {Values}.
Arguments warning {Values}.

Section Loop.
Context {Values : Type}.
(** [Execute(order)]: all components run once in the resolved order; a
    component that raises makes the step [Fatal]. *)
Variable execute : Values → result Values.
(** [Doublecheck]: the conjunction of the verdicts of all components that
    declared a convergence check. *)
Variable doublecheck : Values → bool.

(** Modelled from the spec: the scheduler is missing.  The state machine
    [Execute → Doublecheck → {Converged | Retry | Fatal}] of one time
    step, with [retries_left] iterations still allowed and [done]
    iterations behind it.  When the cap is reached the step counts as
    converged, with a warning. *)
Fixpoint retry_loop (retries_left done : nat) (v : Values) : result (StepOutcome Values) :=
  match retries_left with
  | O => Ok (mkOutcome v done true)
  | S n =>
      v' ← execute v;
      if doublecheck v' then Ok (mkOutcome v' (S done) false)
      else retry_loop n (S done) v'
  end.

Definition run_step (max_retries : nat) (v : Values) : result (StepOutcome Values) :=
  retry_loop max_retries 0 v.

(** Modelled from the spec: the scheduler is missing.  The time-step loop:
    steps [t, t+1, ..., t+n-1]; a fatal step ends the run, a warning is
    recorded in the diagnostics and the run goes on with the values of the
    step. *)
Fixpoint run_steps (max_retries n t : nat) (v : Values)
    (diagnostics : list ConvergenceWarning) (total_iterations : nat)
    : result (Values * list ConvergenceWarning * nat) :=
  match n with
  | O => Ok (v, diagnostics, total_iterations)
  | S n' =>
      o ← run_step max_retries v;
      run_steps max_retries n' (S t) (out_values o)
        (if warning o then diagnostics ++ [convergence_warning t] else diagnostics)
        (total_iterations + iterations o)%nat
  end.
End Loop.

End Scheduler.

(** ** The system chart ([hisim/postprocessing/system_chart.py]) *)

Module Chart.

(** What the chart reads of a component input, of a wrapped component and of
    the post-processing data. *)
Record ComponentInput : Type := mkInput {
  src_object_name : option string;
  src_field_name : option string;
  field_name : string;
  unit : string
}.

Record WrappedComponent : Type := mkWrapped {
  component_name : string;
  class_name : string;
  component_inputs : list ComponentInput
}.

Record PostProcessingDataTransfer : Type := mkPpdt {
  wrapped_components : list WrappedComponent;
  result_directory : string
}.

Record SystemChartEntry : Type := mkEntry {
  entry_filename : string;
  entry_caption : string
}.

(** [pydot]: a node object is told apart by its identity, here the position
    of its creation; a graph is the nodes and edges added so far. *)
Record Node : Type := mkNode { node_id : nat; node_name : string }.
Record Edge : Type := mkEdge { edge_src : Node; edge_dst : Node; edge_label : option string }.
Record Dot : Type := mkDot { nodes : list Node; edges : list Edge }.

#[export] Instance Node_eq_dec : EqDecision Node.
Proof. solve_decision. Defined.

Definition add_node (g : Dot) (n : Node) : Dot := mkDot (nodes g ++ [n]) (edges g).
Definition add_edge (g : Dot) (e : Edge) : Dot := mkDot (nodes g) (edges g ++ [e]).

(** The world the chart acts on: the log and the files rendered so far. *)
Record World : Type := mkWorld {
  log : list string;
  files : list (string * Dot)
}.

(** A statement: it may change the world and may raise. *)
Definition M (A : Type) : Type := World → result A * World.

#[export] Instance M_ret : MRet M := λ A a w, (Ok a, w).
#[export] Instance M_bind : MBind M := λ A B k m w,
  match m w with
  | (Ok a, w') => k a w'
  | (Raise e, w') => (Raise e, w')
  end.

(** [try: body except Exception as exc: handler] *)
Definition try_except {A} (body : M A) (handler : exn → M A) : M A := λ w,
  match body w with
  | (Ok a, w') => (Ok a, w')
  | (Raise exc, w') => handler exc w'
  end.

Definition lift {A} (r : result A) : M A := λ w, (r, w).

(** [log.error(msg)] *)
Definition log_error (msg : string) : M () := λ w,
  (Ok (), mkWorld (log w ++ [msg]) (files w)).

(** [str(x)] of an optional string *)
Definition str_opt (o : option string) : string :=
  match o with Some s => s | None => "None" end.

(** [s.replace("°C", "&#8451;")] on the UTF-8 bytes of [s]: the degree sign is
    the two bytes 194, 176. *)
Fixpoint replace_celsius (s : string) : string :=
  match s with
  | String c1 ((String c2 (String c3 rest)) as tl) =>
      if (Ascii.eqb c1 (ascii_of_nat 194) && Ascii.eqb c2 (ascii_of_nat 176)
          && Ascii.eqb c3 "C"%char)%bool
      then "&#8451;" +:+ replace_celsius rest
      else String c1 (replace_celsius tl)
  | String c rest => String c (replace_celsius rest)
  | EmptyString => EmptyString
  end.

(** The first loop: one node per wrapped component, remembered in
    [node_dict] under the component's name. *)
Fixpoint add_nodes (with_class_names : bool) (comps : list WrappedComponent)
    (next_id : nat) (graph : Dot) (node_dict : gmap string Node)
    : Dot * gmap string Node :=
  match comps with
  | [] => (graph, node_dict)
  | component :: rest =>
      let node_name :=
        if with_class_names
        then component_name component +:+ String (ascii_of_nat 10) "" +:+ class_name component
        else component_name component in
      let my_node := mkNode next_id node_name in
      add_nodes with_class_names rest (S next_id)
        (add_node graph my_node)
        (<[component_name component := my_node]> node_dict)
  end.

(** [d[key]] *)
Definition dict_get (node_dict : gmap string Node) (key : string) : result Node :=
  match node_dict !! key with
  | Some n => Ok n
  | None => Raise (KeyError key)
  end.

(** [edge_labels]: a dictionary whose iteration order is the order of first
    insertion. *)
Fixpoint add_label (edge_labels : list (Node * Node * string))
    (key : Node * Node) (this_edge_label : string) : list (Node * Node * string) :=
  match edge_labels with
  | [] => [(key, this_edge_label)]
  | (k, l) :: rest =>
      if decide (k = key)
      then (k, l +:+ "\n" +:+ this_edge_label) :: rest
      else (k, l) :: add_label rest key this_edge_label
  end.

Definition make_edge_label (component_input : ComponentInput) : string :=
  replace_celsius
    (str_opt (src_field_name component_input) +:+ " -> "
     +:+ field_name component_input +:+ " in " +:+ unit component_input).

(** The inner loop over the inputs of one component. *)
Fixpoint label_inputs (node_dict : gmap string Node) (component : WrappedComponent)
    (inputs : list ComponentInput) (edge_labels : list (Node * Node * string))
    : result (list (Node * Node * string)) :=
  match inputs with
  | [] => Ok edge_labels
  | component_input :: rest =>
      match src_object_name component_input with
      | None => label_inputs node_dict component rest edge_labels
      | Some src =>
          node_a ← dict_get node_dict src;
          node_b ← dict_get node_dict (component_name component);
          label_inputs node_dict component rest
            (add_label edge_labels (node_a, node_b) (make_edge_label component_input))
      end
  end.

(** The second loop over the wrapped components. *)
Fixpoint label_components (node_dict : gmap string Node) (comps : list WrappedComponent)
    (edge_labels : list (Node * Node * string)) : result (list (Node * Node * string)) :=
  match comps with
  | [] => Ok edge_labels
  | component :: rest =>
      edge_labels' ← label_inputs node_dict component (component_inputs component) edge_labels;
      label_components node_dict rest edge_labels'
  end.

(** The third loop: one edge per entry of [edge_labels]. *)
Definition add_edges (with_labels : bool) (graph : Dot)
    (edge_labels : list (Node * Node * string)) : Dot :=
  foldl (λ g '(node_key, label),
           if with_labels
           then add_edge g (mkEdge node_key.1 node_key.2 (Some label))
           else add_edge g (mkEdge node_key.1 node_key.2 None))
        graph edge_labels.

(** The name [pydot.Node] is created with (lines 45-47). *)
Definition node_label (with_class_names : bool) (component : WrappedComponent) : string :=
  if with_class_names
  then component_name component +:+ String (ascii_of_nat 10) "" +:+ class_name component
  else component_name component.

(** Lines 41-70: the graph as it stands when [write_png] is reached. *)
Definition chart_graph (ppdt : PostProcessingDataTransfer)
    (with_labels with_class_names : bool) : result Dot :=
  let '(graph, node_dict) :=
    add_nodes with_class_names (wrapped_components ppdt) 0 (mkDot [] []) ∅ in
  edge_labels ← label_components node_dict (wrapped_components ppdt) [];
  Ok (add_edges with_labels graph edge_labels).

(** The first source name, in the order of the second loop, that is not
    among [names]. *)
Fixpoint first_dangling_input (names : list string) (inputs : list ComponentInput)
    : option string :=
  match inputs with
  | [] => None
  | component_input :: rest =>
      match src_object_name component_input with
      | Some src =>
          if bool_decide (src ∈ names) then first_dangling_input names rest else Some src
      | None => first_dangling_input names rest
      end
  end.

Fixpoint first_dangling (names : list string) (comps : list WrappedComponent)
    : option string :=
  match comps with
  | [] => None
  | component :: rest =>
      match first_dangling_input names (component_inputs component) with
      | Some src => Some src
      | None => first_dangling names rest
      end
  end.

Definition endpoints (e : Edge) : Node * Node := (edge_src e, edge_dst e).

(** The edge labels collected so far: no pair of nodes twice, all nodes taken
    from the dictionary. *)
Definition labels_ok (node_dict : gmap string Node) (labels : list (Node * Node * string)) : Prop :=
  NoDup labels.*1
  ∧ ∀ key, key ∈ labels.*1 →
      (∃ k, node_dict !! k = Some key.1) ∧ (∃ k, node_dict !! k = Some key.2).

(** Where the chart of an entry is written. *)
Definition entry_path (ppdt : PostProcessingDataTransfer) (e : SystemChartEntry) : string :=
  path_join (result_directory ppdt) (entry_filename e).

(** The node registered under each component name when the first loop is
    done. *)
Definition node_dict_of (with_class_names : bool) (comps : list WrappedComponent)
    : gmap string Node :=
  (add_nodes with_class_names comps 0 (mkDot [] []) ∅).2.

(** The labels of the inputs that [component] takes from the source named
    [src], in their order. *)
Definition input_labels (src : string) (component : WrappedComponent) : list string :=
  omap (λ component_input,
          if decide (src_object_name component_input = Some src)
          then Some (make_edge_label component_input) else None)
       (component_inputs component).

(** The labels of all inputs that the components named [dst] take from the
    source named [src]. *)
Definition labels_between (comps : list WrappedComponent) (src dst : string) : list string :=
  concat ((λ component,
             if decide (component_name component = dst)
             then input_labels src component else []) <$> comps).

(** The label of an edge: the labels of its inputs, a backslash and an [n]
    between them. *)
Definition join_labels (first : string) (rest : list string) : string :=
  foldl (λ label this_edge_label, label +:+ "\n" +:+ this_edge_label) first rest.

(** [edge_labels.get(key)] *)
Fixpoint label_of (edge_labels : list (Node * Node * string)) (key : Node * Node)
    : option string :=
  match edge_labels with
  | [] => None
  | (k, l) :: rest => if decide (k = key) then Some l else label_of rest key
  end.

(** The entry of a key after further labels have been added under it. *)
Definition extended (label : option string) (more : list string) : option string :=
  match label, more with
  | Some l, _ => Some (join_labels l more)
  | None, [] => None
  | None, l :: rest => Some (join_labels l rest)
  end.

(** The labels that the inputs of [component] add under [key]. *)
Definition labels_at (node_dict : gmap string Node) (component : WrappedComponent)
    (key : Node * Node) (inputs : list ComponentInput) : list string :=
  omap (λ component_input,
          match src_object_name component_input with
          | Some src =>
              match node_dict !! src, node_dict !! component_name component with
              | Some node_a, Some node_b =>
                  if decide ((node_a, node_b) = key)
                  then Some (make_edge_label component_input) else None
              | _, _ => None
              end
          | None => None
          end)
       inputs.

Section Rendering.
(** [graph.write_png(path)]: the external Graphviz tool chain; it raises
    when the tool is missing or fails. *)
Variable graphviz : Dot → string → result ().

Definition write_png (graph : Dot) (path : string) : M () := λ w,
  match graphviz graph path with
  | Ok _ => (Ok (), mkWorld (log w) (files w ++ [(path, graph)]))
  | Raise e => (Raise e, w)
  end.

(** The body of the [try] block of [make_graphviz_chart]. *)
Definition draw (ppdt : PostProcessingDataTransfer)
    (with_labels with_class_names : bool) (filename : string) : M () :=
  let '(graph, node_dict) :=
    add_nodes with_class_names (wrapped_components ppdt) 0 (mkDot [] []) ∅ in
  edge_labels ← lift (label_components node_dict (wrapped_components ppdt) []);
  let graph := add_edges with_labels graph edge_labels in
  let fullpath := path_join (result_directory ppdt) filename in
  write_png graph fullpath.

Definition failure_message : string :=
  "Failed to generate network charts. Probably Graphviz is missing on your system. The python error was: ".

Definition make_graphviz_chart (ppdt : PostProcessingDataTransfer)
    (with_labels with_class_names : bool) (filename caption : string)
    : M (option SystemChartEntry) :=
  let se := Some (mkEntry filename caption) in
  se ← try_except
         (draw ppdt with_labels with_class_names filename;; mret se)
         (λ exc, log_error (failure_message +:+ str_exn exc);; mret None);
  mret se.

Definition append_if_some (files : list SystemChartEntry) (f : option SystemChartEntry)
    : list SystemChartEntry :=
  match f with
  | Some e => files ++ [e]
  | None => files
  end.

Definition make_chart (ppdt : PostProcessingDataTransfer) : M (list SystemChartEntry) :=
  let files := [] in
  f1 ← make_graphviz_chart ppdt false true "System_no_Edge_with_class_labels.png"
         "System Chart of all components";
  let files := append_if_some files f1 in
  f2 ← make_graphviz_chart ppdt false false "System_no_Edge_labels.png"
         "System Chart of all components and all outputs.";
  let files := append_if_some files f2 in
  f3 ← make_graphviz_chart ppdt true false "System_with_Edge_labels.png"
         "System Chart with labels on all edges.";
  let files := append_if_some files f3 in
  mret files.
End Rendering.

(** Sample data: a household fed by a storage, a heater whose source is not
    among the components, and two states of the Graphviz tool chain. *)
Definition storage : WrappedComponent :=
  mkWrapped "Storage" "HeatStorage" [].

Definition household : WrappedComponent :=
  mkWrapped "Household" "UtspLpgConnector"
    [ mkInput (Some "Storage") (Some "WaterOutput") "Warm Water Temperature Input"
        (String (ascii_of_nat 194) (String (ascii_of_nat 176) "C"));
      mkInput None None "Warm Water Mass Input" "kg/s" ].

Definition dangling : WrappedComponent :=
  mkWrapped "Heater" "GasHeater" [ mkInput (Some "Weather") (Some "T") "T_in" "K" ].

Definition no_graphviz : Dot → string → result () :=
  λ _ _, Raise (OSError "dot not found in path.").

Definition any_graphviz : Dot → string → result () := λ _ _, Ok ().

End Chart.

(** ** The load-profile connector
    ([hisim/components/loadprofilegenerator_utsp_connector.py]) *)

Module Utsp.

(** The constants of [HouseholdWarmWaterDemandConfig] and [PhysicsConfig]
    ([hisim/components/configuration.py], not among the sources). *)
Record Configuration : Type := mkConfiguration {
  ww_temperature_demand : Q;
  freshwater_temperature : Q;
  temperature_difference_hot : Q;
  temperature_difference_cold : Q;
  heat_exchanger_losses : Q;
  water_specific_heat_capacity : Q
}.

(** What the connector reads of [SimulationParameters]. *)
Record SimulationParameters : Type := mkParameters {
  seconds_per_timestep : Z;
  simulation_days : Z;           (* (end_date - start_date).days *)
  predictive : bool              (* system_config.predictive *)
}.

(** [UtspConnectorConfig] *)
Record UtspConnectorConfig : Type := mkConfig {
  url : string;
  api_key : string;
  result_path : string
}.

(** An output is addressed by (component name, field name). *)
Abbreviation OutputKey := (string * string)%type.

Record ComponentInput : Type := mkInput {
  input_field_name : string;
  source_output : option OutputKey
}.

(** The attributes of a [UtspLpgConnector] object. *)
Record UtspLpgConnector : Type := mkConnector {
  component_name : string;
  my_simulation_parameters : SimulationParameters;
  utsp_config : UtspConnectorConfig;
  ww_mass_input : ComponentInput;
  ww_temperature_input : ComponentInput;
  number_of_residents : list Q;
  heating_by_residents : list Q;
  electricity_consumption : list Q;
  water_consumption : list Q;
  max_hot_water_demand : Q
}.

(** The field names of the class. *)
Definition WW_MassInput : string := "Warm Water Mass Input".
Definition WW_TemperatureInput : string := "Warm Water Temperature Input".
Definition NumberByResidents : string := "NumberByResidents".
Definition HeatingByResidents : string := "HeatingByResidents".
Definition ElectricityOutput : string := "ElectricityOutput".
Definition WaterConsumption : string := "WaterConsumption".
Definition Electricity_Demand_Forecast_24h : string := "Electricity_Demand_Forecast_24h".

(** The four outputs declared in [__init__]. *)
Definition number_of_residentsC (self : UtspLpgConnector) : OutputKey :=
  (component_name self, NumberByResidents).
Definition heating_by_residentsC (self : UtspLpgConnector) : OutputKey :=
  (component_name self, HeatingByResidents).
Definition electricity_outputC (self : UtspLpgConnector) : OutputKey :=
  (component_name self, ElectricityOutput).
Definition water_consumptionC (self : UtspLpgConnector) : OutputKey :=
  (component_name self, WaterConsumption).

Definition declared_outputs (self : UtspLpgConnector) : list OutputKey :=
  [ number_of_residentsC self; heating_by_residentsC self;
    electricity_outputC self; water_consumptionC self ].

(** Everything the connector does to the world around it. *)
Inductive effect : Type :=
  | SetOutputValue (output : OutputKey) (value : Q)
  | SetEntry (key : string) (entry : list Q)
  | GetCacheFile
  | ReadCsv (path : string)
  | RequestTimeSeries (to_url : string)
  | SaveResultFile (path : string)
  | ToCsv (path : string) (columns : list string) (rows : list (list Q)).

(** File and network access, as opposed to writes to the value store and the
    simulation repository. *)
Definition is_io (e : effect) : bool :=
  match e with
  | SetOutputValue _ _ | SetEntry _ _ => false
  | GetCacheFile | ReadCsv _ | RequestTimeSeries _ | SaveResultFile _ | ToCsv _ _ _ => true
  end.

(** The program state: the connector object, the per-step value store, the
    simulation repository and the effects performed so far. *)
Record State : Type := mkState {
  self : UtspLpgConnector;
  stsv : gmap OutputKey Q;
  simulation_repository : gmap string (list Q);
  trace : list effect
}.

Definition Sim (A : Type) : Type := State → result A * State.

#[export] Instance Sim_ret : MRet Sim := λ A a s, (Ok a, s).
#[export] Instance Sim_bind : MBind Sim := λ A B k m s,
  match m s with
  | (Ok a, s') => k a s'
  | (Raise e, s') => (Raise e, s')
  end.

Definition lift {A} (r : result A) : Sim A := λ s, (r, s).
Definition get_self : Sim UtspLpgConnector := λ s, (Ok (self s), s).
Definition get_stsv : Sim (gmap OutputKey Q) := λ s, (Ok (stsv s), s).
Definition emit (e : effect) : Sim () := λ s,
  (Ok (), mkState (self s) (stsv s) (simulation_repository s) (trace s ++ [e])).

(** Modelled from the spec: [SingleTimeStepValues] ([hisim/component.py]) is
    missing.  "A per-step value store, one slot per declared ComponentOutput,
    keyed by (component name, field name)"; a slot not yet written, and an
    input without a source, read as zero. *)
Definition get_input_value (values : gmap OutputKey Q) (input : ComponentInput) : Q :=
  match source_output input with
  | Some key => default 0%Q (values !! key)
  | None => 0%Q
  end.

(** Modelled from the spec: [SingleTimeStepValues] is missing.  The slot of
    [output] takes [value]. *)
Definition set_output_value (output : OutputKey) (value : Q) : Sim () := λ s,
  (Ok (), mkState (self s) (<[output := value]> (stsv s)) (simulation_repository s)
            (trace s ++ [SetOutputValue output value])).

(** Modelled from the spec: the simulation repository ([hisim/sim_repository.py])
    is missing.  [set_entry(key, entry)] stores [entry] under [key]. *)
Definition set_entry (key : string) (entry : list Q) : Sim () := λ s,
  (Ok (), mkState (self s) (stsv s) (<[key := entry]> (simulation_repository s))
            (trace s ++ [SetEntry key entry])).

(** *** The warm-water block of [i_simulate] (lines 159-227) *)

(** The "first iteration" constants. *)
Definition warm_up_temperature : Q := 809 # 20.   (* 40.45 *)
Definition warm_up_mass : Q := 93 # 10.           (* 9.3 *)

Definition specific_heat : Q := 4180 / 3600.

(** The local variables of the block when it ends. *)
Record WarmWater : Type := mkWarmWater {
  ww_energy_demand : Q;
  demand_satisfied : Z;
  ww_temperature_input_used : Q;   (* after the first-iteration substitution *)
  ww_mass_input_used : Q;          (* after the first-iteration substitution *)
  energy_discharged : Q;
  ww_temperature_output : Q;
  ww_mass_output : Q
}.

(** Lines 199-204: [(ww_temperature_input, ww_mass_input)] after the
    [if ww_energy_demand > 0 and (ww_mass_input == 0 and ww_temperature_input == 0)]. *)
Definition warm_up (demand ww_mass_input ww_temperature_input : Q) : Q * Q :=
  if Qgtb demand 0 && (Qeqb ww_mass_input 0 && Qeqb ww_temperature_input 0)
  then (warm_up_temperature, warm_up_mass)
  else (ww_temperature_input, ww_mass_input).

(** The divisor of line 218. *)
Definition divisor (cfg : Configuration) (ww_temperature_input : Q) : Q :=
  (water_specific_heat_capacity cfg
   * (ww_temperature_input
      - (freshwater_temperature cfg + temperature_difference_cold cfg)))%Q.

(** Line 184: [ww_energy_demand] for the water drawn in this step. *)
Definition demand_of (cfg : Configuration) (consumption : Q) : Q :=
  (specific_heat * consumption
   * (ww_temperature_demand cfg - freshwater_temperature cfg))%Q.

Definition warm_water (cfg : Configuration) (self : UtspLpgConnector)
    (values : gmap OutputKey Q) (timestep : Z) : result WarmWater :=
  let ww_mass_input_per_sec := get_input_value values (ww_mass_input self) in
  let ww_mass_input := ww_mass_input_per_sec in
  let ww_temperature_input := get_input_value values (ww_temperature_input self) in
  let energy_losses := 0%Q in
  consumption ← py_index (water_consumption self) timestep;
  let demand := demand_of cfg consumption in
  let satisfied :=
    if Qgtb ww_temperature_input (ww_temperature_demand cfg + temperature_difference_hot cfg)
       || Qeqb demand 0
    then 1 else 0 in
  let '(ww_temperature_input, ww_mass_input) :=
    warm_up demand ww_mass_input ww_temperature_input in
  if Qgtb demand 0 then
    let discharged := (demand + energy_losses)%Q in
    let temperature_output :=
      (freshwater_temperature cfg + temperature_difference_cold cfg)%Q in
    mass ← py_div discharged (divisor cfg ww_temperature_input);
    Ok (mkWarmWater demand satisfied ww_temperature_input ww_mass_input
          discharged temperature_output mass)
  else
    Ok (mkWarmWater demand satisfied ww_temperature_input ww_mass_input
          0 ww_temperature_input 0).

(** Line 159: the block runs only when the mass input has a source. *)
Definition warm_water_block (cfg : Configuration) (self : UtspLpgConnector)
    (values : gmap OutputKey Q) (timestep : Z) : result (option WarmWater) :=
  match source_output (ww_mass_input self) with
  | Some _ => w ← warm_water cfg self values timestep; Ok (Some w)
  | None => Ok None
  end.

(** *** [i_simulate] *)

(** Lines 245-258: the end of the forecast window. *)
Definition last_forecast_timestep (self : UtspLpgConnector) (timestep : Z) : result Z :=
  let sps := seconds_per_timestep (my_simulation_parameters self) in
  per_day ← py_div (24 * 3600) (inject_Z sps);
  let last := int_of_float (inject_Z timestep + per_day) in
  Ok (if len (electricity_consumption self) <? last
      then len (electricity_consumption self) else last).

Definition i_simulate (cfg : Configuration) (timestep : Z) (force_conversion : bool) : Sim () :=
  self ← get_self;
  values ← get_stsv;
  lift (warm_water_block cfg self values timestep);;
  v ← lift (py_index (number_of_residents self) timestep);
  set_output_value (number_of_residentsC self) v;;
  v ← lift (py_index (heating_by_residents self) timestep);
  set_output_value (heating_by_residentsC self) v;;
  v ← lift (py_index (electricity_consumption self) timestep);
  set_output_value (electricity_outputC self) v;;
  v ← lift (py_index (water_consumption self) timestep);
  set_output_value (water_consumptionC self) v;;
  if predictive (my_simulation_parameters self) then
    last ← lift (last_forecast_timestep self timestep);
    let demandforecast := py_slice (electricity_consumption self) timestep last in
    set_entry Electricity_Demand_Forecast_24h demandforecast
  else mret ().

(** The effects a statement adds to the trace. *)
Definition performed {A} (m : Sim A) (s : State) : list effect :=
  drop (length (trace s)) (trace (m s).2).

(** The values written to one output, in order. *)
Definition writes_to (output : OutputKey) (effects : list effect) : list Q :=
  omap (λ e, match e with
             | SetOutputValue o v => if decide (o = output) then Some v else None
             | _ => None
             end) effects.

Definition output_writes (effects : list effect) : list (OutputKey * Q) :=
  omap (λ e, match e with SetOutputValue o v => Some (o, v) | _ => None end) effects.

Definition is_set_entry (e : effect) : bool :=
  match e with SetEntry _ _ => true | _ => false end.

Definition forecast_entries (forecast : option (list Q)) : list effect :=
  match forecast with
  | Some f => [SetEntry Electricity_Demand_Forecast_24h f]
  | None => []
  end.

(** The state after the four [set_output_value] calls of lines 234-243. *)
Definition after_writes (s : State) (v1 v2 v3 v4 : Q) : State :=
  let c := self s in
  mkState c
    (<[water_consumptionC c := v4]> (<[electricity_outputC c := v3]>
      (<[heating_by_residentsC c := v2]> (<[number_of_residentsC c := v1]> (stsv s)))))
    (simulation_repository s)
    (trace s ++ [ SetOutputValue (number_of_residentsC c) v1;
                  SetOutputValue (heating_by_residentsC c) v2;
                  SetOutputValue (electricity_outputC c) v3;
                  SetOutputValue (water_consumptionC c) v4 ]).

(** The temperature that enters the divisor: the input after the
    first-iteration substitution. *)
Definition temperature_used (cfg : Configuration) (self : UtspLpgConnector)
    (values : gmap OutputKey Q) (consumption : Q) : Q :=
  (warm_up (demand_of cfg consumption)
     (get_input_value values (ww_mass_input self))
     (get_input_value values (ww_temperature_input self))).1.

(** "The call writes each of the four declared outputs exactly once." *)
Definition writes_each_output_once (cfg : Configuration) (timestep : Z)
    (force_conversion : bool) (s : State) : Prop :=
  ∀ output, output ∈ declared_outputs (self s) →
    ∃ v, writes_to output (performed (i_simulate cfg timestep force_conversion) s) = [v].

(** "The call stores the forecast window under the forecast key." *)
Definition stores_forecast (cfg : Configuration) (timestep : Z)
    (force_conversion : bool) (s : State) : Prop :=
  let c := self s in
  let series := electricity_consumption c in
  let per_day := 24 * 3600 / seconds_per_timestep (my_simulation_parameters c) in
  simulation_repository (i_simulate cfg timestep force_conversion s).2
    !! Electricity_Demand_Forecast_24h
  = Some (py_slice series timestep (Z.min (timestep + per_day) (len series))).

(** "Whenever the block divides, its divisor is not zero." *)
Definition divisor_nonzero (cfg : Configuration) (self : UtspLpgConnector)
    (values : gmap OutputKey Q) (timestep : Z) : Prop :=
  ∀ consumption,
    is_Some (source_output (ww_mass_input self)) →
    py_index (water_consumption self) timestep = Ok consumption →
    (0 < demand_of cfg consumption)%Q →
    ¬ (divisor cfg (temperature_used cfg self values consumption) == 0)%Q.

(** Sample data: a configuration (demand 45, fresh water 10, differences 5
    and 6, no losses, heat capacity 4180), and a connector with two time
    steps whose inputs are wired to a storage. *)
Definition sample_configuration : Configuration :=
  mkConfiguration 45 10 5 6 0 4180.

Definition storage_mass : OutputKey := ("Storage", "Mass").
Definition storage_temperature : OutputKey := ("Storage", "Temperature").

Definition sample_connector (predictive : bool) : UtspLpgConnector :=
  mkConnector "UtspLpgConnector" (mkParameters 900 1 predictive)
    (mkConfig "http://localhost:443/api/v1/profilerequest" "" "lpg_profiles")
    (mkInput WW_MassInput (Some storage_mass))
    (mkInput WW_TemperatureInput (Some storage_temperature))
    [2%Q; 2%Q] [300%Q; 250%Q] [120%Q; 90%Q] [1%Q; 0%Q] 1%Q.

Definition sample_state (predictive : bool) (mass temperature : Q) : State :=
  mkState (sample_connector predictive)
    (<[storage_mass := mass]> (<[storage_temperature := temperature]> ∅)) ∅ [].

(** The sample state with water drawn (one litre in the first step) and the
    storage at the return temperature of a configuration. *)
Definition at_return_temperature (cfg : Configuration) : State :=
  sample_state false 1
    (freshwater_temperature cfg + temperature_difference_cold cfg).

(** *** [build] and what it talks to *)

(** The reply of the UTSP server with its result files parsed: the column
    "Sum [kWh]" of the electricity file, the column "Sum [L]" of the warm
    water file, the "Values" of the two bodily-activity files, and the names
    of the optional transport files the reply contains. *)
Record UtspReply : Type := mkReply {
  electricity_sum_kwh : list Q;
  warm_water_sum_l : list Q;
  high_activity_values : list Q;
  low_activity_values : list Q;
  transport_files : list string
}.

(** What lies outside the program when [build] runs: the cache
    ([utils.get_cache_file]), the columns of the file at the cache path, the
    server, and the name of the flexibility result file
    ([LPGFilters.FLEXIBILITY_EVENTS]). *)
Record Environment : Type := mkEnvironment {
  cache_file_exists : bool;
  cache_filepath : string;
  cache_file : list (string * list Q);
  utsp_server : result UtspReply;
  flexibility_events : string
}.

(** The four series, as [build] computes or loads them. *)
Record Series : Type := mkSeries {
  residents : list Q;
  heating : list Q;
  electricity : list Q;
  water : list Q
}.

(** The assignments to [self.number_of_residents] ... [self.water_consumption]
    and to [self.max_hot_water_demand]. *)
Definition with_series (c : UtspLpgConnector) (x : Series) : UtspLpgConnector :=
  mkConnector (component_name c) (my_simulation_parameters c) (utsp_config c)
    (ww_mass_input c) (ww_temperature_input c)
    (residents x) (heating x) (electricity x) (water x)
    (max_hot_water_demand c).

Definition with_max_hot_water_demand (c : UtspLpgConnector) (m : Q) : UtspLpgConnector :=
  mkConnector (component_name c) (my_simulation_parameters c) (utsp_config c)
    (ww_mass_input c) (ww_temperature_input c)
    (number_of_residents c) (heating_by_residents c)
    (electricity_consumption c) (water_consumption c) m.

Definition series_of (c : UtspLpgConnector) : Series :=
  mkSeries (number_of_residents c) (heating_by_residents c)
    (electricity_consumption c) (water_consumption c).

Definition set_series (x : Series) : Sim () := λ s,
  (Ok (), mkState (with_series (self s) x) (stsv s) (simulation_repository s) (trace s)).

Definition set_max_hot_water_demand (m : Q) : Sim () := λ s,
  (Ok (), mkState (with_max_hot_water_demand (self s) m) (stsv s)
            (simulation_repository s) (trace s)).

(** [save_result_file] *)
Definition save_result_file (name : string) : Sim () :=
  self ← get_self;
  emit (SaveResultFile (path_join (result_path (utsp_config self)) name)).

Fixpoint save_result_files (names : list string) : Sim () :=
  match names with
  | [] => mret ()
  | name :: rest => save_result_file name;; save_result_files rest
  end.

(** [get_profiles_from_utsp]: one request, then the flexibility file and the
    transport files of the reply are saved. *)
Definition get_profiles_from_utsp (env : Environment) : Sim UtspReply :=
  self ← get_self;
  emit (RequestTimeSeries (url (utsp_config self)));;
  reply ← lift (utsp_server env);
  save_result_file (flexibility_events env);;
  save_result_files (transport_files reply);;
  mret reply.

(** Heat power per resident in W: awake, sleeping. *)
Definition gain_per_person : list Q := [150%Q; 100%Q].

(** Line 428: [int(days * 24 * (3600 / seconds_per_timestep))], in binary64:
    the quotient of the two [int]s is rounded, the [int] [days * 24] is
    converted and multiplied with it, the product is rounded and then
    truncated. *)
Definition steps_desired_of (params : SimulationParameters) : result Z :=
  per_hour ← int_true_div 3600 (seconds_per_timestep params);
  steps ← int_mul_float (simulation_days params * 24) per_hour;
  int_of_binary64 steps.

(** Line 433: [int(steps_original / steps_desired)] *)
Definition steps_ratio_of (steps_original steps_desired : Z) : result Z :=
  q ← py_div (inject_Z steps_original) (inject_Z steps_desired);
  Ok (int_of_float q).

(** Lines 467-474: the body of the loops of the equal-resolution case. *)
Definition add_occupancy (gain : Q) (values : list Q)
    (acc : list Q * list Q) (timestep : Z) : result (list Q * list Q) :=
  let '(number_of_residents, heating_by_residents) := acc in
  r ← py_index number_of_residents timestep;
  v ← py_index values timestep;
  let number_of_residents := <[Z.to_nat timestep := (r + v)%Q]> number_of_residents in
  h ← py_index heating_by_residents timestep;
  v ← py_index values timestep;
  let heating_by_residents :=
    <[Z.to_nat timestep := (h + gain * v)%Q]> heating_by_residents in
  Ok (number_of_residents, heating_by_residents).

(** Lines 480-496: the body of the loops of the averaging case. *)
Definition average_occupancy (steps_ratio : Z) (gain : Q) (values : list Q)
    (acc : list Q * list Q) (timestep : Z) : result (list Q * list Q) :=
  let '(number_of_residents, heating_by_residents) := acc in
  number_of_residents_av ←
    py_div (py_sum (py_slice values (timestep * steps_ratio) ((timestep + 1) * steps_ratio)))
           (inject_Z steps_ratio);
  r ← py_index number_of_residents timestep;
  let number_of_residents :=
    <[Z.to_nat timestep := (r + np_round number_of_residents_av)%Q]> number_of_residents in
  h ← py_index heating_by_residents timestep;
  let heating_by_residents :=
    <[Z.to_nat timestep := (h + gain * number_of_residents_av)%Q]> heating_by_residents in
  Ok (number_of_residents, heating_by_residents).

(** [for mode in range(len(gain_per_person)): for timestep in range(n): body] *)
Definition for_modes (body : Q → list Q → list Q * list Q → Z → result (list Q * list Q))
    (occupancy_profile : list (list Q)) (n : Z) (acc : list Q * list Q)
    : result (list Q * list Q) :=
  for_each (zip gain_per_person occupancy_profile)
    (λ acc '(gain, values), for_each (py_range n) (body gain values) acc) acc.

Definition wrong_resolution : string :=
  "input from LPG is given in wrong time resolution - or at least cannot be interpolated correctly".

(** Lines 463-510: the three cases on the resolution of the profiles. *)
Definition resample (steps_original steps_desired steps_ratio : Z)
    (occupancy_profile : list (list Q)) (electricity_consumption water_consumption : list Q)
    : result Series :=
  let heating_by_residents := replicate (Z.to_nat steps_desired) 0%Q in
  let number_of_residents := replicate (Z.to_nat steps_desired) 0%Q in
  if steps_original =? steps_desired then
    '(number_of_residents, heating_by_residents) ←
      for_modes add_occupancy occupancy_profile steps_original
        (number_of_residents, heating_by_residents);
    Ok (mkSeries number_of_residents heating_by_residents
          electricity_consumption water_consumption)
  else if steps_desired <? steps_original then
    '(number_of_residents, heating_by_residents) ←
      for_modes (average_occupancy steps_ratio) occupancy_profile steps_desired
        (number_of_residents, heating_by_residents);
    starts ← py_range_step steps_original steps_ratio;
    electricity_consumption' ←
      comprehension
        (λ n, py_div (py_sum (py_slice electricity_consumption n (n + steps_ratio)))
                     (inject_Z steps_ratio))
        starts;
    starts ← py_range_step steps_original steps_ratio;
    let water_consumption' :=
      (λ n, py_sum (py_slice water_consumption n (n + steps_ratio))) <$> starts in
    Ok (mkSeries number_of_residents heating_by_residents
          electricity_consumption' water_consumption')
  else Raise (PyException wrong_resolution).

(** Lines 423-510: from the parsed reply to the four series.  The parsing
    (json.loads at lines 417-420, read_csv and the column look-ups at lines
    440-461) is the work of libraries and is not modelled: [reply] holds
    what they return when they succeed. *)
Definition compute_series (params : SimulationParameters) (reply : UtspReply)
    : result Series :=
  let occupancy_profile := [high_activity_values reply; low_activity_values reply] in
  let steps_original := len (high_activity_values reply) in
  steps_desired ← steps_desired_of params;
  steps_ratio ← steps_ratio_of steps_original steps_desired;
  let electricity_consumption :=
    (λ x, x * 1000 * 60)%Q <$> electricity_sum_kwh reply in
  let water_consumption := warm_water_sum_l reply in
  resample steps_original steps_desired steps_ratio occupancy_profile
    electricity_consumption water_consumption.

(** The column names of the cache file. *)
Definition cache_columns : list string :=
  [ "number_of_residents"; "heating_by_residents";
    "electricity_consumption"; "water_consumption" ].

(** [np.transpose([a, b, c, d])] followed by [pd.DataFrame(data, columns=...)]:
    one row per time step; lists of different lengths do not form a table. *)
Fixpoint rows_of (a b c d : list Q) : result (list (list Q)) :=
  match a, b, c, d with
  | [], [], [], [] => Ok []
  | x :: a', y :: b', z :: c', w :: d' =>
      rest ← rows_of a' b' c' d'; Ok ([x; y; z; w] :: rest)
  | _, _, _, _ => Raise (ValueError "Shape of passed values does not match the columns")
  end.

(** [dataframe[name].tolist()] *)
Fixpoint column (dataframe : list (string * list Q)) (name : string) : result (list Q) :=
  match dataframe with
  | [] => Raise (KeyError name)
  | (n, values) :: rest => if String.eqb n name then Ok values else column rest name
  end.

(** Lines 392-398: the four columns of the cached table. *)
Definition load_cache (dataframe : list (string * list Q)) : result Series :=
  number_of_residents ← column dataframe "number_of_residents";
  heating_by_residents ← column dataframe "heating_by_residents";
  electricity_consumption ← column dataframe "electricity_consumption";
  water_consumption ← column dataframe "water_consumption";
  Ok (mkSeries number_of_residents heating_by_residents
        electricity_consumption water_consumption).

Definition build (env : Environment) : Sim () :=
  emit GetCacheFile;;
  (if cache_file_exists env then
     emit (ReadCsv (cache_filepath env));;
     series ← lift (load_cache (cache_file env));
     set_series series
   else
     reply ← get_profiles_from_utsp env;
     self ← get_self;
     series ← lift (compute_series (my_simulation_parameters self) reply);
     set_series series;;
     data ← lift (rows_of (residents series) (heating series)
                    (electricity series) (water series));
     emit (ToCsv (cache_filepath env) cache_columns data));;
  self ← get_self;
  m ← lift (py_max (water_consumption self));
  set_max_hot_water_demand m.

(** The last two statements of [build]: [max(self.water_consumption)]. *)
Definition finish (s : State) : result () * State :=
  match py_max (water_consumption (self s)) with
  | Ok m => (Ok (), mkState (with_max_hot_water_demand (self s) m) (stsv s)
                      (simulation_repository s) (trace s))
  | Raise e => (Raise e, s)
  end.


Definition is_cache_write (e : effect) : bool :=
  match e with ToCsv _ _ _ => true | _ => false end.

(** What [pd.read_csv] finds in a file written by [database.to_csv(path)]:
    the row index, which [to_csv] writes first under an empty header and
    [read_csv] names "Unnamed: 0", then the named columns. *)
Definition written_file (columns : list string) (rows : list (list Q))
    : list (string * list Q) :=
  ("Unnamed: 0", inject_Z <$> py_range (len rows))
  :: imap (λ i name, (name, (λ row, default 0%Q (row !! i)) <$> rows)) columns.

(** The files [get_profiles_from_utsp] saves for a reply. *)
Definition saved_files (env : Environment) (c : UtspLpgConnector) (reply : UtspReply)
    : list effect :=
  (λ name, SaveResultFile (path_join (result_path (utsp_config c)) name))
  <$> (flexibility_events env :: transport_files reply).

(** The block of original values behind simulation step [t], and its mean. *)
Definition block (values : list Q) (t steps_ratio : Z) : list Q :=
  py_slice values (t * steps_ratio) ((t + 1) * steps_ratio).

Definition block_mean (values : list Q) (t steps_ratio : Z) : Q :=
  (py_sum (block values t steps_ratio) / inject_Z steps_ratio)%Q.


(** Sample data: four original steps, one resident who is awake in the first
    and third step and asleep in the others. *)
Definition sample_reply : UtspReply :=
  mkReply [1 # 1000; 3 # 1000; 2 # 1000; 2 # 1000]%Q [1; 2; 3; 4]%Q
    [1; 0; 1; 0]%Q [0; 1; 0; 1]%Q ["car_state.json"].

Definition sample_environment : Environment :=
  mkEnvironment false "cache/UtspLpgConnector.csv" [] (Ok sample_reply) "flexibility.json".

(** One day in steps of 12 hours, of 6 hours, of 3 hours. *)
Definition two_steps : SimulationParameters := mkParameters 43200 1 false.
Definition four_steps : SimulationParameters := mkParameters 21600 1 false.
Definition eight_steps : SimulationParameters := mkParameters 10800 1 false.

Definition sample_config : UtspConnectorConfig :=
  mkConfig "http://localhost:443/api/v1/profilerequest" "" "lpg_profiles".

(** The object [__init__] hands to [build]: named after the class, its series
    not yet set, its two inputs declared without a source. *)
Definition new_connector (params : SimulationParameters) (config : UtspConnectorConfig)
    : UtspLpgConnector :=
  mkConnector "UtspLpgConnector" params config
    (mkInput WW_MassInput None) (mkInput WW_TemperatureInput None)
    [] [] [] [] 0%Q.

Definition initial_state (params : SimulationParameters) (config : UtspConnectorConfig) : State :=
  mkState (new_connector params config) ∅ ∅ [].


(** The blocks [values[n : n + steps_ratio]] of lines 499 and 503, one for
    each start [n]. *)
Definition blocks_from {A} (values : list A) (steps_ratio : Z) (starts : list Z)
    : list (list A) :=
  (λ n, py_slice values n (n + steps_ratio)) <$> starts.

(** Both lists of the accumulator of the occupancy loops have [n] entries. *)
Definition same_lengths (n : nat) (acc : list Q * list Q) : Prop :=
  length acc.1 = n ∧ length acc.2 = n.

(** More sample data: a connector whose series came from a cache and whose
    simulation parameters have a zero step width; a cache file without the
    heating column; a server that cannot be reached. *)
Definition zero_step_state : State :=
  mkState
    (mkConnector "UtspLpgConnector" (mkParameters 0 1 true) sample_config
       (mkInput WW_MassInput None) (mkInput WW_TemperatureInput None)
       [2%Q; 2%Q] [300%Q; 250%Q] [120%Q; 90%Q] [1%Q; 0%Q] 1%Q)
    ∅ ∅ [].

Definition incomplete_cache : Environment :=
  mkEnvironment true "cache/UtspLpgConnector.csv"
    [("Unnamed: 0", [0%Q]); ("number_of_residents", [2%Q])]
    (Ok sample_reply) "flexibility.json".

Definition unreachable_server : Environment :=
  mkEnvironment false "cache/UtspLpgConnector.csv" []
    (Raise (OSError "connection refused")) "flexibility.json".

End Utsp.

(** * Properties *)

(** ** Facts about the Python fragment *)

Section PyFacts.

Lemma Qgtb_true a b : Qgtb a b = true ↔ (b < a)%Q.
Proof.
  unfold Qgtb. rewrite negb_true_iff, <- not_true_iff_false, Qle_bool_iff.
  split; [apply Qnot_le_lt | apply Qlt_not_le].
Qed.

Lemma Qgtb_false a b : Qgtb a b = false ↔ (a <= b)%Q.
Proof. unfold Qgtb. by rewrite negb_false_iff, Qle_bool_iff. Qed.

Lemma Qeqb_true a b : Qeqb a b = true ↔ (a == b)%Q.
Proof. apply Qeq_bool_iff. Qed.

Lemma py_div_ok a b : ¬ (b == 0)%Q → py_div a b = Ok (a / b)%Q.
Proof.
  intros H. unfold py_div. destruct (Qeq_bool b 0) eqn:E; [|done].
  by apply Qeq_bool_iff in E.
Qed.

Lemma py_div_zero a b : (b == 0)%Q → py_div a b = Raise ZeroDivisionError.
Proof. intros H. unfold py_div. apply Qeq_bool_iff in H. by rewrite H. Qed.

Lemma inject_Z_nonzero z : z ≠ 0 → ¬ (inject_Z z == 0)%Q.
Proof. intros H. change 0%Q with (inject_Z 0). by rewrite inject_Z_injective. Qed.

Lemma py_index_unfold {A} (l : list A) (t : Z) :
  0 ≤ t →
  py_index l t = if len l <=? t then Raise IndexError
                 else match l !! Z.to_nat t with Some x => Ok x | None => Raise IndexError end.
Proof.
  intros H. unfold py_index.
  assert ((t <? 0) = false) as Ht by (apply Z.ltb_ge; lia). rewrite Ht. cbn zeta. by rewrite Ht.
Qed.

Lemma py_index_in_range {A} (l : list A) (t : Z) :
  0 ≤ t < len l → ∃ v, py_index l t = Ok v ∧ l !! Z.to_nat t = Some v.
Proof.
  intros [H0 H1]. rewrite py_index_unfold by done. unfold len in *.
  assert ((Z.of_nat (length l) <=? t) = false) as -> by (apply Z.leb_gt; lia).
  destruct (l !! Z.to_nat t) as [v|] eqn:E; [by exists v|].
  apply lookup_ge_None in E. lia.
Qed.

Lemma py_index_nat {A} (l : list A) (i : nat) x :
  l !! i = Some x → py_index l (Z.of_nat i) = Ok x.
Proof.
  intros H. rewrite py_index_unfold by lia. rewrite Nat2Z.id, H.
  apply lookup_lt_Some in H. unfold len.
  by assert ((Z.of_nat (length l) <=? Z.of_nat i) = false) as -> by (apply Z.leb_gt; lia).
Qed.

Lemma py_slice_window {A} (l : list A) (a b : Z) :
  0 ≤ a ≤ b → b ≤ len l →
  py_slice l a b = take (Z.to_nat (b - a)) (drop (Z.to_nat a) l)
  ∧ len (py_slice l a b) = b - a.
Proof.
  intros Ha Hb. unfold py_slice, slice_bound.
  assert ((a <? 0) = false) as -> by (apply Z.ltb_ge; lia).
  assert ((b <? 0) = false) as -> by (apply Z.ltb_ge; lia).
  rewrite !Z.min_l by lia. split; [done|].
  unfold len in *. rewrite length_take, length_drop. lia.
Qed.


Lemma for_each_app {A S} (l1 l2 : list A) (body : S → A → result S) (s : S) :
  for_each (l1 ++ l2) body s = (s' ← for_each l1 body s; for_each l2 body s').
Proof.
  revert s. induction l1 as [|x l1 IH]; intros s; simpl; [done|].
  destruct (body s x) as [s'|e]; simpl; [apply IH|done].
Qed.

Lemma py_range_nat (n : nat) : py_range (Z.of_nat n) = Z.of_nat <$> seq 0 n.
Proof. unfold py_range. by rewrite Nat2Z.id. Qed.

Lemma py_range_succ (n : nat) :
  py_range (Z.of_nat (S n)) = py_range (Z.of_nat n) ++ [Z.of_nat n].
Proof. rewrite !py_range_nat, seq_S, fmap_app. done. Qed.

Lemma comprehension_total {A B} (f : A → result B) (g : A → B) (l : list A) :
  (∀ x, f x = Ok (g x)) → comprehension f l = Ok (g <$> l).
Proof.
  intros H. induction l as [|x l IH]; simpl; [done|]. by rewrite H, IH.
Qed.

Lemma py_range_step_positive stop step :
  0 < step →
  py_range_step stop step = Ok ((λ k, k * step) <$> py_range ((stop + step - 1) / step)).
Proof.
  intros H. unfold py_range_step.
  assert ((step =? 0) = false) as -> by (apply Z.eqb_neq; lia).
  by assert ((step <? 0) = false) as -> by (apply Z.ltb_ge; lia).
Qed.

Lemma lookup_starts (count step : Z) (i : nat) :
  Z.of_nat i < count →
  ((λ k, k * step) <$> py_range count) !! i = Some (Z.of_nat i * step).
Proof.
  intros H. unfold py_range. rewrite !list_lookup_fmap.
  rewrite lookup_seq_lt by lia. done.
Qed.

(** A loop over [range(n)] whose body replaces position [i] of two lists by a
    function of the old entry. *)
Lemma for_each_pointwise (F G : nat → Q → Q)
    (body : list Q * list Q → Z → result (list Q * list Q)) (a b : list Q) (n : nat) :
  (n ≤ length a)%nat → (n ≤ length b)%nat →
  (∀ (i : nat) a' b' x y, (i < n)%nat →
     a' !! i = Some x → b' !! i = Some y →
     body (a', b') (Z.of_nat i) = Ok (<[i := F i x]> a', <[i := G i y]> b')) →
  ∃ a' b',
    for_each (py_range (Z.of_nat n)) body (a, b) = Ok (a', b')
    ∧ length a' = length a ∧ length b' = length b
    ∧ (∀ i x, (i < n)%nat → a !! i = Some x → a' !! i = Some (F i x))
    ∧ (∀ i y, (i < n)%nat → b !! i = Some y → b' !! i = Some (G i y))
    ∧ (∀ i, (n ≤ i)%nat → a' !! i = a !! i)
    ∧ (∀ i, (n ≤ i)%nat → b' !! i = b !! i).
Proof.
  induction n as [|n IH]; intros Ha Hb Hbody.
  - exists a, b. split_and!; try done; intros; lia.
  - destruct IH as (a1 & b1 & Hrun & La & Lb & Fa & Fb & Ka & Kb); [lia | lia | |].
    { intros i a' b' x y Hi. apply Hbody. lia. }
    destruct (lookup_lt_is_Some_2 a n) as [x Hx]; [lia|].
    destruct (lookup_lt_is_Some_2 b n) as [y Hy]; [lia|].
    exists (<[n := F n x]> a1), (<[n := G n y]> b1).
    rewrite py_range_succ, for_each_app, Hrun. simpl.
    rewrite (Hbody n a1 b1 x y) by (try lia; rewrite ?Ka, ?Kb by lia; done).
    rewrite !length_insert. split_and!; try done.
    + intros i x' Hi Hx'. destruct (decide (i = n)) as [->|Hne].
      * rewrite list_lookup_insert_eq by lia. congruence.
      * rewrite list_lookup_insert_ne by done. apply Fa; [lia|done].
    + intros i y' Hi Hy'. destruct (decide (i = n)) as [->|Hne].
      * rewrite list_lookup_insert_eq by lia. congruence.
      * rewrite list_lookup_insert_ne by done. apply Fb; [lia|done].
    + intros i Hi. rewrite list_lookup_insert_ne by lia. apply Ka. lia.
    + intros i Hi. rewrite list_lookup_insert_ne by lia. apply Kb. lia.
Qed.

End PyFacts.

(** ** The dispatch controller *)

Section DispatchFacts.
Import Dispatch.

Lemma insert_by_weight_Permutation s l : insert_by_weight s l ≡ₚ s :: l.
Proof.
  induction l as [|x l IH]; simpl; [done|].
  destruct (decide (weight s ≤ weight x)); [done|].
  rewrite IH. apply Permutation_swap.
Qed.

Lemma sort_by_weight_Permutation srcs : sort_by_weight srcs ≡ₚ srcs.
Proof.
  induction srcs as [|s srcs IH]; simpl; [done|].
  by rewrite insert_by_weight_Permutation, IH.
Qed.

Lemma insert_by_weight_sorted s l :
  StronglySorted by_weight l → StronglySorted by_weight (insert_by_weight s l).
Proof.
  induction 1 as [|x l Hl IH Hx]; simpl; [repeat constructor|].
  destruct (decide (weight s ≤ weight x)) as [Hle|Hgt].
  - constructor; [by constructor|]. constructor; [done|].
    eapply Forall_impl; [exact Hx|]. unfold by_weight. intros y Hy. lia.
  - constructor; [done|].
    rewrite insert_by_weight_Permutation. constructor; [|done].
    unfold by_weight. lia.
Qed.

Lemma sort_by_weight_sorted srcs : StronglySorted by_weight (sort_by_weight srcs).
Proof.
  induction srcs as [|s srcs IH]; simpl; [constructor|]. by apply insert_by_weight_sorted.
Qed.

(** A source goes in front of the sources of its own weight. *)
Lemma insert_by_weight_filter w s l :
  StronglySorted by_weight l →
  filter (λ x, weight x = w) (insert_by_weight s l)
  = filter (λ x, weight x = w) (s :: l).
Proof.
  induction 1 as [|x l Hl IH Hx]; simpl; [done|].
  destruct (decide (weight s ≤ weight x)) as [Hle|Hgt]; [done|].
  rewrite filter_cons, IH, !filter_cons.
  repeat case_decide; try done; lia.
Qed.

Lemma sort_by_weight_stable w srcs :
  filter (λ s, weight s = w) (sort_by_weight srcs) = filter (λ s, weight s = w) srcs.
Proof.
  induction srcs as [|s srcs IH]; simpl; [done|].
  rewrite insert_by_weight_filter by apply sort_by_weight_sorted.
  by rewrite !filter_cons, IH.
Qed.

Lemma walk_sources (l : list Source) : ∀ o, (walk o l).1.*1 = l.
Proof.
  induction l as [|s l IH]; intros o; simpl; [done|].
  specialize (IH (o - allocate o (capacity s))).
  destruct (walk _ l) as [ts u]. simpl in *. by f_equal.
Qed.

Lemma walk_unmet (l : list Source) :
  ∀ o, (walk o l).2 = o - sum_targets (targets_of (walk o l)).
Proof.
  induction l as [|s l IH]; intros o; simpl.
  - unfold targets_of, sum_targets. simpl. lia.
  - specialize (IH (o - allocate o (capacity s))).
    destruct (walk _ l) as [ts u]. unfold targets_of, sum_targets in *. csimpl in *. lia.
Qed.

Lemma allocate_nonneg o c : 0 ≤ o → allocate o c = Z.min o c.
Proof. intros H. unfold allocate. destruct (Z.leb_spec 0 o); [done | lia]. Qed.

Lemma allocate_nonpos o c : o ≤ 0 → 0 ≤ c → allocate o c = Z.max o (- c).
Proof. intros Ho Hc. unfold allocate. destruct (Z.leb_spec 0 o); lia. Qed.

Lemma walk_min (l : list Source) :
  ∀ o i s a, 0 ≤ o → (walk o l).1 !! i = Some (s, a) →
    a = Z.min (o - sum_targets (take i (targets_of (walk o l)))) (capacity s).
Proof.
  induction l as [|s0 l IH]; intros o i s a Ho Hi; simpl in *; [done|].
  specialize (IH (o - allocate o (capacity s0))).
  destruct (walk _ l) as [ts u]. unfold targets_of in *. csimpl in *.
  destruct i as [|i]; csimpl in *.
  - inversion Hi; subst. rewrite allocate_nonneg by done. unfold sum_targets. csimpl. f_equal. lia.
  - rewrite (IH i s a); [| rewrite allocate_nonneg by done; lia | done].
    unfold sum_targets. csimpl. f_equal. lia.
Qed.

Lemma walk_max (l : list Source) :
  ∀ o i s a, o ≤ 0 → Forall (λ s, 0 ≤ capacity s) l →
    (walk o l).1 !! i = Some (s, a) →
    a = Z.max (o - sum_targets (take i (targets_of (walk o l)))) (- capacity s).
Proof.
  induction l as [|s0 l IH]; intros o i s a Ho Hcap Hi; simpl in *; [done|].
  inversion Hcap as [|? ? Hc0 Hrest]; subst.
  specialize (IH (o - allocate o (capacity s0))).
  destruct (walk _ l) as [ts u]. unfold targets_of in *. csimpl in *.
  destruct i as [|i]; csimpl in *.
  - inversion Hi; subst. rewrite allocate_nonpos by done. unfold sum_targets. csimpl. f_equal. lia.
  - rewrite (IH i s a); [| rewrite allocate_nonpos by done; lia | done | done].
    unfold sum_targets. csimpl. f_equal. lia.
Qed.

(** The other worked examples of the spec: a surplus of 8 is absorbed in the
    same order, and a requirement of 20 against a capacity of 15 leaves 5
    unmet. *)
Example dispatch_surplus :
  targets_of (dispatch example_sources (-8)) = [-5; -3; 0].
Proof. reflexivity. Qed.

Example dispatch_insufficient :
  sum_targets (targets_of (dispatch example_sources 20)) = 15
  ∧ (dispatch example_sources 20).2 = 5.
Proof. split; reflexivity. Qed.

(** The registrations of [basic_household_explicit] are served in the order
    in which they were made. *)
Example basic_household_order c1 c2 c3 c4 :
  src_name <$> sort_by_weight (basic_household_sources c1 c2 c3 c4)
  = ["Battery1"; "Battery2"; "CHP1"; "CHP2"].
Proof. reflexivity. Qed.

(** Sources of one weight are served in the order of their registration. *)
Example ties_keep_registration_order :
  src_name <$> sort_by_weight
    [ mkSource "first" [] 1 5; mkSource "second" [] 1 5; mkSource "third" [] 1 5 ]
  = ["first"; "second"; "third"].
Proof. reflexivity. Qed.

(** C1, as amended.  The controller serves the bound sources in ascending
    order of weight: the served list is the sorted list, which is ordered by
    weight, is a permutation of the bound sources and keeps sources of equal
    weight in the order of their registration.  For a requirement that is
    not negative, the target of the source at position [i] is the minimum of
    its capacity and of the requirement still outstanding, that is the
    requirement less the targets of the sources before it.  For a surplus (a
    requirement that is not positive) and capacities that are not negative,
    it is the greater of the outstanding surplus and of minus the capacity.
    What is left at the end is the requirement less all targets.  In
    particular sources of weights 1, 2, 3 and capacities 5, 5, 5 (registered
    in any order, here 3, 1, 2) get the targets 5, 3, 0 for a requirement of
    8, and these sum to 8. *)
Theorem dispatch_walk_serves_by_weight :
  (∀ (srcs : list Source) (requirement : Z),
     let r := dispatch srcs requirement in
     r.1.*1 = sort_by_weight srcs
     ∧ StronglySorted by_weight (sort_by_weight srcs)
     ∧ sort_by_weight srcs ≡ₚ srcs
     ∧ (∀ w, filter (λ s, weight s = w) (sort_by_weight srcs)
             = filter (λ s, weight s = w) srcs)
     ∧ (0 ≤ requirement → serves_by_min_rule srcs requirement)
     ∧ (requirement ≤ 0 → Forall (λ s, 0 ≤ capacity s) srcs →
        serves_by_max_rule srcs requirement)
     ∧ r.2 = requirement - sum_targets (targets_of r))
  ∧ (let r := dispatch example_sources 8 in
     weight <$> r.1.*1 = [1; 2; 3]
     ∧ capacity <$> r.1.*1 = [5; 5; 5]
     ∧ targets_of r = [5; 3; 0]
     ∧ sum_targets (targets_of r) = 8).
Proof.
  split.
  - intros srcs requirement r. subst r. unfold dispatch.
    split; [apply walk_sources|].
    split; [apply sort_by_weight_sorted|].
    split; [apply sort_by_weight_Permutation|].
    split; [intros w; apply sort_by_weight_stable|].
    split; [intros Hreq i s a; by apply walk_min|].
    split; [|apply walk_unmet].
    intros Hreq Hcap i s a. apply walk_max; [done|].
    by rewrite sort_by_weight_Permutation.
  - vm_compute. done.
Qed.

(** Witness of C1 at the registrations of the example household with
    capacities 5 and a requirement of 8. *)
Lemma dispatch_walk_serves_by_weight_witness :
  0 ≤ 8 ∧ serves_by_min_rule (basic_household_sources 5 5 5 5) 8.
Proof.
  split; [lia|].
  exact (proj1 (proj2 (proj2 (proj2 (proj2
           (proj1 dispatch_walk_serves_by_weight (basic_household_sources 5 5 5 5) 8)))))
           ltac:(lia)).
Defined.

(** C1 fails as stated: the rule of the minimum does not hold for a surplus.
    In the spec's own example, the sources of weights 1, 2, 3 and capacities
    5, 5, 5 with a requirement of -8, the first target is -5, and the
    minimum of -8 and 5 is -8. *)
Lemma min_rule_fails_for_a_surplus :
  ¬ serves_by_min_rule example_sources (-8).
Proof.
  intros H. specialize (H 0%nat (mkSource "A" [] 1 5) (-5) eq_refl).
  vm_compute in H. discriminate.
Qed.

End DispatchFacts.

(** ** The scheduler's convergence loop *)

Section SchedulerFacts.
Import Scheduler.
Context {Values : Type}.
Variable execute : Values → result Values.
Variable doublecheck : Values → bool.

Lemma retry_loop_iterations (n : nat) :
  ∀ k v o, retry_loop execute doublecheck n k v = Ok o →
    (k ≤ iterations o ≤ k + n)%nat.
Proof.
  induction n as [|n IH]; intros k v o H; simpl in H.
  - inversion H; subst; simpl. lia.
  - destruct (execute v) as [v'|e]; simpl in H; [|done].
    destruct (doublecheck v').
    + inversion H; subst; simpl. lia.
    + apply IH in H. lia.
Qed.

Lemma retry_loop_never_stable (f : Values → Values) :
  (∀ v, execute v = Ok (f v)) → (∀ v, doublecheck v = false) →
  ∀ n k v, retry_loop execute doublecheck n k v = Ok (mkOutcome (Nat.iter n f v) (k + n) true).
Proof.
  intros He Hd. induction n as [|n IH]; intros k v; simpl.
  - by rewrite Nat.add_0_r.
  - rewrite He. simpl. rewrite Hd, IH. do 2 f_equal; [|lia].
    clear. induction n; simpl; congruence.
Qed.

Lemma run_steps_never_stable (f : Values → Values) (m : nat) :
  (∀ v, execute v = Ok (f v)) → (∀ v, doublecheck v = false) →
  ∀ n t v diag total,
    run_steps execute doublecheck m n t v diag total
    = Ok (Nat.iter (n * m) f v, diag ++ (convergence_warning <$> seq t n), (total + n * m)%nat).
Proof.
  intros He Hd. induction n as [|n IH]; intros t v diag total; simpl.
  - by rewrite app_nil_r, Nat.add_0_r.
  - unfold run_step. rewrite (retry_loop_never_stable f He Hd). simpl.
    rewrite IH. f_equal. f_equal; [f_equal|].
    + by rewrite (Nat.add_comm m), Nat.iter_add.
    + by rewrite <- app_assoc.
    + lia.
Qed.

(** C5.  The retry loop of one time step never runs more than
    [max_retries] iterations.  With [max_retries = 3], components that
    execute without raising and a stability check that never passes, the step
    ends after exactly 3 iterations with a convergence warning and the values
    of the third iteration, not fatally; and a run of [n] such steps goes
    through all of them, recording one warning per step. *)
Theorem retry_loop_bounded_nonfatal :
  (∀ max_retries v o,
     run_step execute doublecheck max_retries v = Ok o →
     (iterations o ≤ max_retries)%nat)
  ∧ (∀ f : Values → Values,
       (∀ v, execute v = Ok (f v)) → (∀ v, doublecheck v = false) →
       (∀ v, run_step execute doublecheck 3 v = Ok (mkOutcome (f (f (f v))) 3 true))
       ∧ (∀ n t v,
            run_steps execute doublecheck 3 n t v [] 0
            = Ok (Nat.iter (n * 3) f v, convergence_warning <$> seq t n, (n * 3)%nat))).
Proof.
  split.
  - intros m v o H. apply retry_loop_iterations in H. lia.
  - intros f He Hd. split.
    + intros v. unfold run_step. by rewrite (retry_loop_never_stable f He Hd).
    + intros n t v. by rewrite (run_steps_never_stable f 3 He Hd).
Qed.

End SchedulerFacts.

(** Witness of C5: a counter that is incremented by every execution and never
    found stable, run for four time steps. *)
Lemma retry_loop_bounded_nonfatal_witness :
  Scheduler.run_steps (λ v : nat, Ok (S v)) (λ _, false) 3 4 0 0%nat [] 0
  = Ok (12%nat, Scheduler.convergence_warning <$> [0; 1; 2; 3]%nat, 12%nat).
Proof.
  exact (proj2 (proj2 (retry_loop_bounded_nonfatal (λ v : nat, Ok (S v)) (λ _, false)) S
                 (λ _, eq_refl) (λ _, eq_refl)) 4%nat 0%nat 0%nat).
Defined.

(** ** The system chart *)

Section ChartFacts.
Import Chart.
Variable graphviz : Dot → string → result ().
Variable ppdt : PostProcessingDataTransfer.

Lemma make_graphviz_chart_cases with_labels with_class_names filename caption w :
  match draw graphviz ppdt with_labels with_class_names filename w with
  | (Ok _, w1) =>
      make_graphviz_chart graphviz ppdt with_labels with_class_names filename caption w
      = (Ok (Some (mkEntry filename caption)), w1)
  | (Raise exc, w1) =>
      make_graphviz_chart graphviz ppdt with_labels with_class_names filename caption w
      = (Ok None, mkWorld (log w1 ++ [failure_message +:+ str_exn exc]) (files w1))
  end.
Proof.
  unfold make_graphviz_chart, mbind, M_bind, mret, M_ret, try_except, log_error.
  by destruct (draw _ _ _ _ _ w) as [[[]|exc] w1].
Qed.

Lemma make_graphviz_chart_returns with_labels with_class_names filename caption w :
  ∃ se w', make_graphviz_chart graphviz ppdt with_labels with_class_names filename caption w
           = (Ok se, w').
Proof.
  pose proof (make_graphviz_chart_cases with_labels with_class_names filename caption w) as H.
  destruct (draw _ _ _ _ _ w) as [[[]|exc] w1]; eauto.
Qed.

(** C2.  [make_graphviz_chart] never raises: when drawing succeeds it returns
    the chart entry; when drawing raises (a source that is no component, a
    failing Graphviz tool chain) the exception is caught, one line is added
    to the log and the result is [None].  Hence [make_chart] never raises
    either, and returns exactly the entries of the charts that were
    produced, in order. *)
Theorem chart_failures_are_caught :
  (∀ with_labels with_class_names filename caption w,
     ∃ se w',
       make_graphviz_chart graphviz ppdt with_labels with_class_names filename caption w
       = (Ok se, w')
       ∧ match draw graphviz ppdt with_labels with_class_names filename w with
         | (Ok _, w1) => se = Some (mkEntry filename caption) ∧ w' = w1
         | (Raise exc, w1) =>
             se = None
             ∧ w' = mkWorld (log w1 ++ [failure_message +:+ str_exn exc]) (files w1)
         end)
  ∧ (∀ w, ∃ f1 w1 f2 w2 f3 w3,
       make_graphviz_chart graphviz ppdt false true
         "System_no_Edge_with_class_labels.png" "System Chart of all components" w
       = (Ok f1, w1)
       ∧ make_graphviz_chart graphviz ppdt false false
           "System_no_Edge_labels.png" "System Chart of all components and all outputs." w1
         = (Ok f2, w2)
       ∧ make_graphviz_chart graphviz ppdt true false
           "System_with_Edge_labels.png" "System Chart with labels on all edges." w2
         = (Ok f3, w3)
       ∧ make_chart graphviz ppdt w = (Ok (omap id [f1; f2; f3]), w3)).
Proof.
  split.
  - intros wl wc filename caption w.
    pose proof (make_graphviz_chart_cases wl wc filename caption w) as H.
    destruct (draw _ _ _ _ _ w) as [[[]|exc] w1]; eauto.
  - intros w.
    destruct (make_graphviz_chart_returns false true
      "System_no_Edge_with_class_labels.png" "System Chart of all components" w) as (f1 & w1 & H1).
    destruct (make_graphviz_chart_returns false false
      "System_no_Edge_labels.png" "System Chart of all components and all outputs." w1) as (f2 & w2 & H2).
    destruct (make_graphviz_chart_returns true false
      "System_with_Edge_labels.png" "System Chart with labels on all edges." w2) as (f3 & w3 & H3).
    exists f1, w1, f2, w2, f3, w3. repeat split; try done.
    unfold make_chart. unfold mbind, M_bind, mret, M_ret. rewrite H1, H2, H3.
    by destruct f1, f2, f3.
Qed.

End ChartFacts.

(** The three ways a chart run can go: all charts drawn; the tool chain
    missing; an input wired to a component that is not in the system. *)
Example charts_drawn :
  let r := Chart.make_chart Chart.any_graphviz
             (Chart.mkPpdt [Chart.storage; Chart.household] "results")
             (Chart.mkWorld [] []) in
  r.1 = Ok [ Chart.mkEntry "System_no_Edge_with_class_labels.png"
                "System Chart of all components";
              Chart.mkEntry "System_no_Edge_labels.png"
                "System Chart of all components and all outputs.";
              Chart.mkEntry "System_with_Edge_labels.png"
                "System Chart with labels on all edges." ]
  ∧ Chart.log r.2 = [] ∧ length (Chart.files r.2) = 3%nat.
Proof. vm_compute. done. Qed.

Example charts_without_graphviz :
  let r := Chart.make_chart Chart.no_graphviz
             (Chart.mkPpdt [Chart.storage; Chart.household] "results")
             (Chart.mkWorld [] []) in
  r.1 = Ok [] ∧ length (Chart.log r.2) = 3%nat ∧ Chart.files r.2 = [].
Proof. vm_compute. done. Qed.

Example charts_with_dangling_source :
  let r := Chart.make_chart Chart.any_graphviz
             (Chart.mkPpdt [Chart.storage; Chart.dangling] "results")
             (Chart.mkWorld [] []) in
  r.1 = Ok [] ∧ length (Chart.log r.2) = 3%nat ∧ Chart.files r.2 = [].
Proof. vm_compute. done. Qed.

(** ** The load-profile connector: [i_simulate] *)

Ltac unfold_sim :=
  unfold mbind, Utsp.Sim_bind, mret, Utsp.Sim_ret, Utsp.lift, Utsp.get_self,
    Utsp.get_stsv, Utsp.set_output_value, Utsp.set_entry, Utsp.set_series,
    Utsp.set_max_hot_water_demand, Utsp.emit in *.

Section SimulateFacts.
Import Utsp.

Lemma performed_app {A} (m : Sim A) s new :
  trace (m s).2 = trace s ++ new → performed m s = new.
Proof. intros H. unfold performed. rewrite H. by rewrite drop_app_length. Qed.

Lemma performed_trace {A} (m : Sim A) s new :
  trace (m s).2 = trace s ++ new → trace (m s).2 = trace s ++ performed m s.
Proof. intros H. by rewrite (performed_app m s new H). Qed.

(** A call that fails in the warm-water block leaves the state as it was;
    a call that gets through it and finds its four values performs the four
    writes, then the forecast. *)
Lemma i_simulate_block_raises cfg t fc s e :
  warm_water_block cfg (self s) (stsv s) t = Raise e →
  i_simulate cfg t fc s = (Raise e, s).
Proof. intros H. unfold i_simulate. unfold_sim. simpl. by rewrite H. Qed.

Lemma i_simulate_writes cfg t fc s o v1 v2 v3 v4 :
  warm_water_block cfg (self s) (stsv s) t = Ok o →
  py_index (number_of_residents (self s)) t = Ok v1 →
  py_index (heating_by_residents (self s)) t = Ok v2 →
  py_index (electricity_consumption (self s)) t = Ok v3 →
  py_index (water_consumption (self s)) t = Ok v4 →
  i_simulate cfg t fc s =
    let s4 := after_writes s v1 v2 v3 v4 in
    if predictive (my_simulation_parameters (self s)) then
      match last_forecast_timestep (self s) t with
      | Ok last =>
          let forecast := py_slice (electricity_consumption (self s)) t last in
          (Ok (), mkState (self s) (stsv s4)
                    (<[Electricity_Demand_Forecast_24h := forecast]> (simulation_repository s))
                    (trace s4 ++ [SetEntry Electricity_Demand_Forecast_24h forecast]))
      | Raise e => (Raise e, s4)
      end
    else (Ok (), s4).
Proof.
  intros Hb H1 H2 H3 H4. unfold i_simulate. unfold_sim. simpl.
  rewrite Hb, H1. simpl. rewrite H2. simpl. rewrite H3. simpl. rewrite H4. simpl.
  unfold after_writes. rewrite <- !app_assoc. simpl.
  destruct (predictive _); [|done].
  by destruct (last_forecast_timestep _ _).
Qed.

Lemma warm_up_first_iteration demand mass temperature :
  (0 < demand)%Q → (mass == 0)%Q → (temperature == 0)%Q →
  warm_up demand mass temperature = (warm_up_temperature, warm_up_mass).
Proof.
  intros Hd Hm Ht. unfold warm_up.
  apply Qgtb_true in Hd. apply Qeqb_true in Hm, Ht. by rewrite Hd, Hm, Ht.
Qed.

Lemma warm_water_demanding cfg self values t consumption :
  py_index (water_consumption self) t = Ok consumption →
  (0 < demand_of cfg consumption)%Q →
  warm_water cfg self values t =
    (let demand := demand_of cfg consumption in
     let mass_in := get_input_value values (ww_mass_input self) in
     let temperature_in := get_input_value values (ww_temperature_input self) in
     mass ← py_div (demand + 0) (divisor cfg (temperature_used cfg self values consumption));
     Ok (mkWarmWater demand
           (if Qgtb temperature_in (ww_temperature_demand cfg + temperature_difference_hot cfg)
               || Qeqb demand 0 then 1 else 0)
           (temperature_used cfg self values consumption)
           (warm_up demand mass_in temperature_in).2
           (demand + 0)
           (freshwater_temperature cfg + temperature_difference_cold cfg)
           mass)).
Proof.
  intros Hc Hd. unfold warm_water, temperature_used. rewrite Hc. simpl.
  destruct (warm_up _ _ _) as [temp mass]. simpl.
  apply Qgtb_true in Hd. by rewrite Hd.
Qed.

Lemma warm_water_idle cfg self values t consumption :
  py_index (water_consumption self) t = Ok consumption →
  (demand_of cfg consumption <= 0)%Q →
  is_ok (warm_water cfg self values t) = true.
Proof.
  intros Hc Hd. unfold warm_water. rewrite Hc. simpl.
  destruct (warm_up _ _ _) as [temp mass].
  apply Qgtb_false in Hd. by rewrite Hd.
Qed.

Lemma divisor_zero cfg temperature :
  (divisor cfg temperature == 0)%Q ↔
  (water_specific_heat_capacity cfg == 0
   ∨ temperature == freshwater_temperature cfg + temperature_difference_cold cfg)%Q.
Proof.
  unfold divisor. split.
  - intros H. apply Qmult_integral in H as [H|H]; [by left|right].
    rewrite <- (Qplus_0_l (freshwater_temperature cfg + temperature_difference_cold cfg)).
    rewrite <- H. ring.
  - intros [H|H]; rewrite H; ring.
Qed.

Lemma warm_water_block_unbound cfg self values t :
  source_output (ww_mass_input self) = None →
  warm_water_block cfg self values t = Ok None.
Proof. intros H. unfold warm_water_block. by rewrite H. Qed.

Lemma warm_water_block_divides cfg self values t consumption :
  is_Some (source_output (ww_mass_input self)) →
  py_index (water_consumption self) t = Ok consumption →
  (0 < demand_of cfg consumption)%Q →
  let d := divisor cfg (temperature_used cfg self values consumption) in
  ((d == 0)%Q → warm_water_block cfg self values t = Raise ZeroDivisionError)
  ∧ (¬ (d == 0)%Q →
     ∃ w, warm_water_block cfg self values t = Ok (Some w)
          ∧ ww_mass_output w = ((demand_of cfg consumption + 0) / d)%Q).
Proof.
  intros [src Hsrc] Hc Hd d. unfold warm_water_block. rewrite Hsrc.
  rewrite (warm_water_demanding _ _ _ _ _ Hc Hd). subst d. cbn zeta. split; intros Hz.
  - by rewrite (py_div_zero _ _ Hz).
  - rewrite (py_div_ok _ _ Hz). simpl. eauto.
Qed.

(** When the warm-water block completes: the mass input has no source, or
    no water is drawn, or the divisor is not zero. *)
Lemma warm_water_block_ok cfg self values t consumption :
  py_index (water_consumption self) t = Ok consumption →
  is_ok (warm_water_block cfg self values t) = true ↔
    source_output (ww_mass_input self) = None
    ∨ (demand_of cfg consumption <= 0)%Q
    ∨ ¬ (divisor cfg (temperature_used cfg self values consumption) == 0)%Q.
Proof.
  intros Hc. destruct (source_output (ww_mass_input self)) as [src|] eqn:Hsrc.
  2:{ rewrite warm_water_block_unbound by done. simpl. tauto. }
  destruct (Qlt_le_dec 0 (demand_of cfg consumption)) as [Hd|Hd].
  - destruct (warm_water_block_divides cfg self values t consumption) as [Hz Hnz];
      [by rewrite Hsrc | done | done |].
    split.
    + intros Hok. right. right. intros H0. rewrite (Hz H0) in Hok. done.
    + intros [H|[H|H]]; [done | by apply Qlt_not_le in Hd |].
      destruct (Hnz H) as (w & -> & _). done.
  - split; [tauto|]. intros _. unfold warm_water_block. rewrite Hsrc.
    pose proof (warm_water_idle cfg self values t consumption Hc Hd) as Hok.
    by destruct (warm_water cfg self values t).
Qed.

(** C4.  When the mass input has a source, water is drawn in the step (the
    energy demand is positive) and both inputs read zero, the block replaces
    the temperature input by 40.45 and the mass input by 9.3, and only then
    computes the discharge: the divisor of the mass is taken at 40.45. *)
Theorem first_iteration_constants cfg self values t consumption :
  is_Some (source_output (ww_mass_input self)) →
  py_index (water_consumption self) t = Ok consumption →
  (0 < demand_of cfg consumption)%Q →
  (get_input_value values (ww_mass_input self) == 0)%Q →
  (get_input_value values (ww_temperature_input self) == 0)%Q →
  warm_up (demand_of cfg consumption)
    (get_input_value values (ww_mass_input self))
    (get_input_value values (ww_temperature_input self))
  = (809 # 20, 93 # 10)%Q
  ∧ warm_water_block cfg self values t
    = (mass ← py_div (demand_of cfg consumption + 0) (divisor cfg (809 # 20));
       Ok (Some (mkWarmWater (demand_of cfg consumption)
                   (if Qgtb (get_input_value values (ww_temperature_input self))
                         (ww_temperature_demand cfg + temperature_difference_hot cfg)
                       || Qeqb (demand_of cfg consumption) 0 then 1 else 0)
                   (809 # 20) (93 # 10)
                   (demand_of cfg consumption + 0)
                   (freshwater_temperature cfg + temperature_difference_cold cfg)
                   mass))).
Proof.
  intros [src Hsrc] Hc Hd Hm Ht.
  pose proof (warm_up_first_iteration _ _ _ Hd Hm Ht) as Hw.
  split; [exact Hw|].
  unfold warm_water_block. rewrite Hsrc.
  rewrite (warm_water_demanding _ _ _ _ _ Hc Hd). unfold temperature_used.
  rewrite Hw. simpl.
  by destruct (py_div _ _).
Qed.

(** Witness of C4: the sample connector at its first step, both inputs
    reading zero. *)
Lemma first_iteration_constants_witness :
  warm_up (demand_of sample_configuration 1) 0 0 = (809 # 20, 93 # 10)%Q.
Proof.
  exact (proj1 (first_iteration_constants sample_configuration (sample_connector false)
                  (stsv (sample_state false 0 0)) 0 1
                  (ex_intro _ storage_mass eq_refl) eq_refl eq_refl
                  (Qeq_refl 0) (Qeq_refl 0))).
Defined.

(** C9, as amended.  For a call with a bound mass input and a positive energy
    demand, the divisor is zero exactly when the heat capacity is zero or the
    temperature that enters it (the input, or 40.45 after the first-iteration
    substitution) equals the fresh-water temperature plus
    [temperature_difference_cold]; there the division raises
    [ZeroDivisionError], and everywhere else it yields the discharged mass. *)
Theorem divisor_zero_exactly_at_return_temperature cfg self values t consumption :
  is_Some (source_output (ww_mass_input self)) →
  py_index (water_consumption self) t = Ok consumption →
  (0 < demand_of cfg consumption)%Q →
  let temperature := temperature_used cfg self values consumption in
  ((divisor cfg temperature == 0)%Q ↔
     (water_specific_heat_capacity cfg == 0
      ∨ temperature == freshwater_temperature cfg + temperature_difference_cold cfg)%Q)
  ∧ ((divisor cfg temperature == 0)%Q →
       warm_water_block cfg self values t = Raise ZeroDivisionError)
  ∧ (¬ (divisor cfg temperature == 0)%Q →
       ∃ w, warm_water_block cfg self values t = Ok (Some w)
            ∧ ww_mass_output w
              = ((demand_of cfg consumption + 0) / divisor cfg temperature)%Q).
Proof.
  intros Hsrc Hc Hd temperature.
  split; [apply divisor_zero|].
  apply (warm_water_block_divides cfg self values t consumption Hsrc Hc Hd).
Qed.

(** Witness of C9: a storage at 50 degrees. *)
Lemma divisor_zero_exactly_at_return_temperature_witness :
  ∃ w, warm_water_block sample_configuration (sample_connector false)
         (stsv (sample_state false 1 50)) 0 = Ok (Some w)
       ∧ ww_mass_output w
         = ((demand_of sample_configuration 1 + 0)
            / divisor sample_configuration
                (temperature_used sample_configuration (sample_connector false)
                   (stsv (sample_state false 1 50)) 1))%Q.
Proof.
  refine (proj2 (proj2 (divisor_zero_exactly_at_return_temperature sample_configuration
                  (sample_connector false) (stsv (sample_state false 1 50)) 0 1
                  (ex_intro _ storage_mass eq_refl) eq_refl eq_refl)) _).
  vm_compute. discriminate.
Defined.

(** C9 fails as stated: a storage at 16 degrees, the return temperature of
    the sample configuration (10 + 6), makes the divisor zero while water is
    drawn. *)
Lemma divisor_can_be_zero :
  ¬ divisor_nonzero sample_configuration (sample_connector false)
      (stsv (sample_state false 1 16)) 0.
Proof.
  intros H. apply (H 1%Q).
  - by exists storage_mass.
  - reflexivity.
  - reflexivity.
  - vm_compute. reflexivity.
Qed.

(** The sample constants play no role: for every configuration whose demand
    temperature lies above the fresh-water temperature, a storage at the
    return temperature makes the call raise and leaves the state as it
    was. *)
Lemma zero_divisor_reachable cfg fc :
  (freshwater_temperature cfg < ww_temperature_demand cfg)%Q →
  i_simulate cfg 0 fc (at_return_temperature cfg)
  = (Raise ZeroDivisionError, at_return_temperature cfg).
Proof.
  intros Hcfg. apply i_simulate_block_raises.
  assert (0 < demand_of cfg 1)%Q as Hd.
  { unfold demand_of. apply Qmult_lt_0_compat; [reflexivity|].
    apply Qlt_minus_iff in Hcfg. exact Hcfg. }
  destruct (warm_water_block_divides cfg (sample_connector false)
              (stsv (at_return_temperature cfg)) 0 1%Q) as [Hz _];
    [by exists storage_mass | reflexivity | exact Hd |].
  apply Hz. apply divisor_zero. right.
  unfold temperature_used, warm_up.
  assert (get_input_value (stsv (at_return_temperature cfg))
            (ww_mass_input (sample_connector false)) = 1%Q) as -> by reflexivity.
  assert (get_input_value (stsv (at_return_temperature cfg))
            (ww_temperature_input (sample_connector false))
          = (freshwater_temperature cfg + temperature_difference_cold cfg)%Q) as ->.
  { unfold get_input_value, at_return_temperature, sample_state. simpl.
    rewrite lookup_insert_ne by done. by rewrite lookup_insert_eq. }
  rewrite andb_false_r. simpl. reflexivity.
Qed.

Lemma writes_to_four (c : UtspLpgConnector) v1 v2 v3 v4 tail output :
  (∀ e, e ∈ tail → ∀ o v, e ≠ SetOutputValue o v) →
  output ∈ declared_outputs c →
  ∃ v, writes_to output
         ([ SetOutputValue (number_of_residentsC c) v1;
            SetOutputValue (heating_by_residentsC c) v2;
            SetOutputValue (electricity_outputC c) v3;
            SetOutputValue (water_consumptionC c) v4 ] ++ tail) = [v].
Proof.
  intros Htail Hin.
  assert (writes_to output tail = []) as Ht.
  { clear Hin. induction tail as [|e tail IH]; [done|].
    unfold writes_to in *. cbn [omap list_omap]. 
    destruct e; try (apply IH; intros; apply Htail; by right).
    exfalso. eapply Htail; [by left|done]. }
  unfold writes_to, declared_outputs in *. rewrite omap_app. fold (writes_to output tail) in *.
  rewrite Ht, app_nil_r.
  unfold number_of_residentsC, heating_by_residentsC, electricity_outputC,
    water_consumptionC in *.
  rewrite !elem_of_cons, elem_of_nil in Hin.
  destruct Hin as [->|[->|[->|[->|[]]]]]; cbn [omap list_omap];
    repeat case_decide;
    unfold NumberByResidents, HeatingByResidents, ElectricityOutput, WaterConsumption in *;
    try congruence; eauto.
Qed.

(** C6, as amended.  For a time step inside the four series, a call whose
    warm-water block completes (see [warm_water_block_ok]) writes each of
    the four declared outputs exactly once, with the value of its series at
    that step, in the order of the declarations, whether or not the block was
    entered. *)
Theorem outputs_written_once cfg t fc s :
  0 ≤ t < len (number_of_residents (self s)) →
  0 ≤ t < len (heating_by_residents (self s)) →
  0 ≤ t < len (electricity_consumption (self s)) →
  0 ≤ t < len (water_consumption (self s)) →
  is_ok (warm_water_block cfg (self s) (stsv s) t) = true →
  writes_each_output_once cfg t fc s
  ∧ ∃ v1 v2 v3 v4,
      number_of_residents (self s) !! Z.to_nat t = Some v1
      ∧ heating_by_residents (self s) !! Z.to_nat t = Some v2
      ∧ electricity_consumption (self s) !! Z.to_nat t = Some v3
      ∧ water_consumption (self s) !! Z.to_nat t = Some v4
      ∧ output_writes (performed (i_simulate cfg t fc) s)
        = [ (number_of_residentsC (self s), v1); (heating_by_residentsC (self s), v2);
            (electricity_outputC (self s), v3); (water_consumptionC (self s), v4) ].
Proof.
  intros H1 H2 H3 H4 Hb.
  destruct (py_index_in_range _ _ H1) as (v1 & E1 & L1).
  destruct (py_index_in_range _ _ H2) as (v2 & E2 & L2).
  destruct (py_index_in_range _ _ H3) as (v3 & E3 & L3).
  destruct (py_index_in_range _ _ H4) as (v4 & E4 & L4).
  destruct (warm_water_block cfg (self s) (stsv s) t) as [o|e] eqn:Eb; [|done].
  pose proof (i_simulate_writes cfg t fc s o v1 v2 v3 v4 Eb E1 E2 E3 E4) as Hs.
  cbn zeta in Hs.
  assert (∃ tail, performed (i_simulate cfg t fc) s
            = [ SetOutputValue (number_of_residentsC (self s)) v1;
                SetOutputValue (heating_by_residentsC (self s)) v2;
                SetOutputValue (electricity_outputC (self s)) v3;
                SetOutputValue (water_consumptionC (self s)) v4 ] ++ tail
            ∧ (tail = [] ∨ ∃ f, tail = [SetEntry Electricity_Demand_Forecast_24h f]))
    as (tail & Hp & Htail).
  { destruct (predictive _).
    - destruct (last_forecast_timestep _ _) as [last|e].
      + eexists. split; [|right; eauto].
        apply performed_app. rewrite Hs. simpl. by rewrite <- app_assoc.
      + exists []. split; [|by left]. apply performed_app. by rewrite Hs.
    - exists []. split; [|by left]. apply performed_app. by rewrite Hs. }
  split.
  - intros output Hin. rewrite Hp. apply writes_to_four; [|done].
    intros e He o' v'. destruct Htail as [->|[f ->]];
      [by apply elem_of_nil in He | apply list_elem_of_singleton in He; by subst e].
  - exists v1, v2, v3, v4. repeat split; try done.
    rewrite Hp. by destruct Htail as [->|[f ->]].
Qed.

(** Witness of C6: the second step of the sample connector, where no water
    is drawn. *)
Lemma outputs_written_once_witness :
  writes_each_output_once sample_configuration 1 false (sample_state true 1 16).
Proof.
  refine (proj1 (outputs_written_once sample_configuration 1 false (sample_state true 1 16)
                   _ _ _ _ _)); try (vm_compute; split; [discriminate | reflexivity]).
  vm_compute. reflexivity.
Defined.

(** C6 fails as stated: with the storage at the return temperature the call
    raises in the warm-water block and writes nothing. *)
Lemma outputs_not_written_when_division_fails :
  ¬ writes_each_output_once sample_configuration 0 false (sample_state false 1 16).
Proof.
  intros H. destruct (H (number_of_residentsC (sample_connector false))) as [v Hv].
  - by left.
  - vm_compute in Hv. discriminate.
Qed.

(** Every call has this shape: the object untouched, some first part of the
    four writes, and a forecast entry only at the very end of a call with the
    predictive option. *)
Lemma i_simulate_shape cfg t fc s :
  ∃ r writes forecast,
    i_simulate cfg t fc s
    = (r, mkState (self s)
            (foldl (λ m kv, <[kv.1 := kv.2]> m) (stsv s) writes)
            (match forecast with
             | Some f => <[Electricity_Demand_Forecast_24h := f]> (simulation_repository s)
             | None => simulation_repository s
             end)
            (trace s ++ ((λ kv, SetOutputValue kv.1 kv.2) <$> writes)
               ++ forecast_entries forecast))
    ∧ Forall (λ kv, kv.1 ∈ declared_outputs (self s)) writes
    ∧ (is_Some forecast → predictive (my_simulation_parameters (self s)) = true).
Proof.
  destruct s as [c sv repo tr]. unfold i_simulate. unfold_sim. simpl.
  assert (∀ o, o ∈ declared_outputs c ↔
    o = number_of_residentsC c ∨ o = heating_by_residentsC c
    ∨ o = electricity_outputC c ∨ o = water_consumptionC c) as Hd.
  { intros o. unfold declared_outputs. rewrite !elem_of_cons, elem_of_nil. tauto. }
  destruct (warm_water_block cfg c sv t) as [o|e]; simpl;
    [|exists (Raise e), [], None; simpl; rewrite app_nil_r;
      split_and!; [done|constructor|by intros [??]]].
  destruct (py_index (number_of_residents c) t) as [v1|e]; simpl;
    [|exists (Raise e), [], None; simpl; rewrite app_nil_r;
      split_and!; [done|constructor|by intros [??]]].
  destruct (py_index (heating_by_residents c) t) as [v2|e]; simpl;
    [|exists (Raise e), [(number_of_residentsC c, v1)], None; simpl;
      split_and!; [done|repeat constructor; simpl; apply Hd; tauto|by intros [??]]].
  destruct (py_index (electricity_consumption c) t) as [v3|e]; simpl;
    [|exists (Raise e), [(number_of_residentsC c, v1); (heating_by_residentsC c, v2)], None;
      simpl; rewrite <- !app_assoc;
      split_and!; [done|repeat constructor; simpl; apply Hd; tauto|by intros [??]]].
  destruct (py_index (water_consumption c) t) as [v4|e]; simpl;
    [|exists (Raise e), [(number_of_residentsC c, v1); (heating_by_residentsC c, v2);
                         (electricity_outputC c, v3)], None;
      simpl; rewrite <- !app_assoc;
      split_and!; [done|repeat constructor; simpl; apply Hd; tauto|by intros [??]]].
  destruct (predictive (my_simulation_parameters c)) eqn:Hp; simpl;
    [|exists (Ok ()), [(number_of_residentsC c, v1); (heating_by_residentsC c, v2);
                       (electricity_outputC c, v3); (water_consumptionC c, v4)], None;
      simpl; rewrite <- !app_assoc;
      split_and!; [done|repeat constructor; simpl; apply Hd; tauto|by intros [??]]].
  destruct (last_forecast_timestep c t) as [last|e]; simpl.
  - exists (Ok ()), [(number_of_residentsC c, v1); (heating_by_residentsC c, v2);
                     (electricity_outputC c, v3); (water_consumptionC c, v4)],
           (Some (py_slice (electricity_consumption c) t last)).
    simpl; rewrite <- !app_assoc.
    split_and!; [done|repeat constructor; simpl; apply Hd; tauto|done].
  - exists (Raise e), [(number_of_residentsC c, v1); (heating_by_residentsC c, v2);
                       (electricity_outputC c, v3); (water_consumptionC c, v4)], None.
    simpl; rewrite <- !app_assoc.
    split_and!; [done|repeat constructor; simpl; apply Hd; tauto|by intros [??]].
Qed.

Lemma foldl_insert_other (writes : list (OutputKey * Q)) (m : gmap OutputKey Q) k :
  Forall (λ kv, kv.1 ≠ k) writes →
  foldl (λ m kv, <[kv.1 := kv.2]> m) m writes !! k = m !! k.
Proof.
  revert m. induction writes as [|[k' v] writes IH]; intros m H; simpl; [done|].
  inversion H; subst. rewrite IH by done. by apply lookup_insert_ne.
Qed.

Lemma i_simulate_frame_step cfg t fc s :
  let s' := (i_simulate cfg t fc s).2 in
  self s' = self s
  ∧ Forall (λ e, is_io e = false) (performed (i_simulate cfg t fc) s)
  ∧ (length (filter (λ e, is_set_entry e = true) (performed (i_simulate cfg t fc) s)) ≤ 1)%nat
  ∧ (∀ k, k ∉ declared_outputs (self s) → stsv s' !! k = stsv s !! k)
  ∧ (predictive (my_simulation_parameters (self s)) = false →
     simulation_repository s' = simulation_repository s)
  ∧ (∀ k, k ≠ Electricity_Demand_Forecast_24h →
     simulation_repository s' !! k = simulation_repository s !! k).
Proof.
  destruct (i_simulate_shape cfg t fc s) as (r & writes & forecast & Hs & Hw & Hf).
  assert (performed (i_simulate cfg t fc) s
          = ((λ kv, SetOutputValue kv.1 kv.2) <$> writes) ++ forecast_entries forecast) as Hp.
  { apply performed_app. by rewrite Hs. }
  cbn zeta. rewrite Hp, Hs. simpl. split_and!.
  - done.
  - apply Forall_app. split.
    + apply Forall_fmap. by apply Forall_true.
    + destruct forecast; repeat constructor.
  - rewrite filter_app, length_app.
    assert (filter (λ e, is_set_entry e = true)
              ((λ kv : OutputKey * Q, SetOutputValue kv.1 kv.2) <$> writes) = []) as ->.
    { clear. induction writes as [|kv writes IH]; [done|].
      rewrite fmap_cons, filter_cons_False; [done|]. simpl. done. }
    destruct forecast; simpl; lia.
  - intros k Hk. apply foldl_insert_other.
    eapply Forall_impl; [exact Hw|]. intros kv Hin Heq. simpl in Hin. apply Hk. by rewrite <- Heq.
  - intros Hpred. destruct forecast as [f|]; [|done].
    rewrite Hf in Hpred by eauto. done.
  - intros k Hk. destruct forecast as [f|]; [|done]. by rewrite lookup_insert_ne.
Qed.

Lemma per_day_floor t sps :
  0 ≤ t → 0 < sps →
  int_of_float (inject_Z t + 24 * 3600 / inject_Z sps)%Q = t + 24 * 3600 / sps.
Proof.
  intros Ht Hs.
  assert (¬ (inject_Z sps == 0)%Q) as Hne.
  { change 0%Q with (inject_Z 0). rewrite inject_Z_injective. lia. }
  assert (inject_Z t + 24 * 3600 / inject_Z sps
          == inject_Z (t * sps + 24 * 3600) / inject_Z sps)%Q as Heq.
  { rewrite inject_Z_plus, inject_Z_mult. change (inject_Z (24 * 3600)) with (24 * 3600)%Q.
    by field. }
  unfold int_of_float.
  assert (Qle_bool 0 (inject_Z t + 24 * 3600 / inject_Z sps) = true) as ->.
  { apply Qle_bool_iff. rewrite Heq. apply Qle_shift_div_l.
    - change 0%Q with (inject_Z 0). rewrite <- Zlt_Qlt. lia.
    - rewrite Qmult_0_l. change 0%Q with (inject_Z 0). rewrite <- Zle_Qle. lia. }
  rewrite Heq, <- Zdiv_Qdiv. rewrite Z.div_add_l by lia. done.
Qed.

Lemma last_forecast_timestep_positive (c : UtspLpgConnector) t :
  0 ≤ t → 0 < seconds_per_timestep (my_simulation_parameters c) →
  last_forecast_timestep c t
  = Ok (Z.min (t + 24 * 3600 / seconds_per_timestep (my_simulation_parameters c))
              (len (electricity_consumption c))).
Proof.
  intros Ht Hs. unfold last_forecast_timestep.
  rewrite py_div_ok.
  2:{ change 0%Q with (inject_Z 0). rewrite inject_Z_injective. lia. }
  simpl. rewrite per_day_floor by done. f_equal.
  destruct (Z.ltb_spec (len (electricity_consumption c))
              (t + 24 * 3600 / seconds_per_timestep (my_simulation_parameters c))); lia.
Qed.

(** C10, as amended.  With the predictive option, a positive time-step
    length, a time step inside the four series and a warm-water block that
    completes, the call returns normally and stores under
    "Electricity_Demand_Forecast_24h" the slice of the electricity series
    from [t] to [min(t + floor(86400 / seconds_per_timestep), len)]: at most
    a day of steps, none of them past the end of the series. *)
Theorem forecast_window cfg t fc s :
  predictive (my_simulation_parameters (self s)) = true →
  0 < seconds_per_timestep (my_simulation_parameters (self s)) →
  0 ≤ t < len (number_of_residents (self s)) →
  0 ≤ t < len (heating_by_residents (self s)) →
  0 ≤ t < len (electricity_consumption (self s)) →
  0 ≤ t < len (water_consumption (self s)) →
  is_ok (warm_water_block cfg (self s) (stsv s) t) = true →
  let series := electricity_consumption (self s) in
  let per_day := 24 * 3600 / seconds_per_timestep (my_simulation_parameters (self s)) in
  let last := Z.min (t + per_day) (len series) in
  (i_simulate cfg t fc s).1 = Ok ()
  ∧ stores_forecast cfg t fc s
  ∧ py_slice series t last = take (Z.to_nat (last - t)) (drop (Z.to_nat t) series)
  ∧ len (py_slice series t last) = last - t
  ∧ last - t ≤ per_day
  ∧ last ≤ len series.
Proof.
  intros Hp Hs H1 H2 H3 H4 Hb series per_day last.
  destruct (py_index_in_range _ _ H1) as (v1 & E1 & L1).
  destruct (py_index_in_range _ _ H2) as (v2 & E2 & L2).
  destruct (py_index_in_range _ _ H3) as (v3 & E3 & L3).
  destruct (py_index_in_range _ _ H4) as (v4 & E4 & L4).
  destruct (warm_water_block cfg (self s) (stsv s) t) as [o|e] eqn:Eb; [|done].
  pose proof (i_simulate_writes cfg t fc s o v1 v2 v3 v4 Eb E1 E2 E3 E4) as Hsim.
  cbn zeta in Hsim. rewrite Hp in Hsim.
  rewrite last_forecast_timestep_positive in Hsim by lia.
  assert (0 ≤ per_day) as Hday by (apply Z.div_pos; lia).
  assert (0 ≤ t ≤ last) as Hl by (unfold last, series; lia).
  assert (last ≤ len series) as Hl' by (unfold last, series; lia).
  destruct (py_slice_window series t last Hl Hl') as [Hw Hlen].
  split; [by rewrite Hsim|].
  split; [unfold stores_forecast; rewrite Hsim; simpl; by rewrite lookup_insert_eq|].
  split; [done|]. split; [done|]. split; [|done].
  unfold last. lia.
Qed.

(** Witness of C10: the second step of the sample connector. *)
Lemma forecast_window_witness :
  stores_forecast sample_configuration 1 false (sample_state true 1 50).
Proof.
  refine (proj1 (proj2 (forecast_window sample_configuration 1 false (sample_state true 1 50)
                          eq_refl eq_refl _ _ _ _ eq_refl)));
    split; first [discriminate | reflexivity].
Defined.

(** C10 fails as stated: with the storage at the return temperature the call
    raises before the forecast and the repository stays empty. *)
Lemma forecast_not_stored_when_division_fails :
  ¬ stores_forecast sample_configuration 0 false (sample_state true 1 16).
Proof. unfold stores_forecast. vm_compute. discriminate. Qed.

End SimulateFacts.

(** ** The load-profile connector: [build] *)

Section BuildFacts.
Import Utsp.

Lemma save_result_files_run names s :
  save_result_files names s
  = (Ok (), mkState (self s) (stsv s) (simulation_repository s)
              (trace s ++ ((λ name, SaveResultFile
                              (path_join (result_path (utsp_config (self s))) name))
                           <$> names))).
Proof.
  revert s. induction names as [|name names IH]; intros s.
  - destruct s. simpl. by rewrite app_nil_r.
  - cbn [save_result_files]. unfold save_result_file. unfold_sim. simpl.
    rewrite IH. simpl. by rewrite <- app_assoc.
Qed.

Lemma get_profiles_run env s :
  get_profiles_from_utsp env s
  = match utsp_server env with
    | Ok reply =>
        (Ok reply, mkState (self s) (stsv s) (simulation_repository s)
                     (trace s ++ RequestTimeSeries (url (utsp_config (self s)))
                        :: saved_files env (self s) reply))
    | Raise e =>
        (Raise e, mkState (self s) (stsv s) (simulation_repository s)
                    (trace s ++ [RequestTimeSeries (url (utsp_config (self s)))]))
    end.
Proof.
  unfold get_profiles_from_utsp, save_result_file. unfold_sim. simpl.
  destruct (utsp_server env) as [reply|e]; [|done]. simpl.
  rewrite save_result_files_run. simpl. unfold saved_files.
  by rewrite <- !app_assoc.
Qed.

(** [build], statement by statement. *)
Lemma build_run env s :
  build env s
  = let c := self s in
    let st tr c := mkState c (stsv s) (simulation_repository s) (trace s ++ tr) in
    if cache_file_exists env then
      let tr := [GetCacheFile; ReadCsv (cache_filepath env)] in
      match load_cache (cache_file env) with
      | Ok series => finish (st tr (with_series c series))
      | Raise e => (Raise e, st tr c)
      end
    else
      match utsp_server env with
      | Raise e => (Raise e, st [GetCacheFile; RequestTimeSeries (url (utsp_config c))] c)
      | Ok reply =>
          let tr := GetCacheFile :: RequestTimeSeries (url (utsp_config c))
                      :: saved_files env c reply in
          match compute_series (my_simulation_parameters c) reply with
          | Raise e => (Raise e, st tr c)
          | Ok series =>
              match rows_of (residents series) (heating series)
                      (electricity series) (water series) with
              | Raise e => (Raise e, st tr (with_series c series))
              | Ok rows =>
                  finish (st (tr ++ [ToCsv (cache_filepath env) cache_columns rows])
                            (with_series c series))
              end
          end
      end.
Proof.
  unfold build. unfold_sim. simpl. destruct (cache_file_exists env).
  - simpl. destruct (load_cache (cache_file env)) as [series|e]; simpl.
    + unfold finish. simpl. rewrite <- !app_assoc. simpl.
      by destruct (py_max _).
    + by rewrite <- !app_assoc.
  - rewrite get_profiles_run. simpl.
    destruct (utsp_server env) as [reply|e]; simpl; [|by rewrite <- !app_assoc].
    destruct (compute_series _ reply) as [series|e]; simpl; [|by rewrite <- !app_assoc].
    destruct (rows_of _ _ _ _) as [rows|e]; simpl; [|by rewrite <- !app_assoc].
    unfold finish. simpl. rewrite <- !app_assoc. simpl.
    by destruct (py_max _).
Qed.

Lemma finish_state s :
  stsv (finish s).2 = stsv s
  ∧ simulation_repository (finish s).2 = simulation_repository s
  ∧ trace (finish s).2 = trace s
  ∧ series_of (self (finish s).2) = series_of (self s).
Proof. unfold finish. by destruct (py_max _). Qed.

Lemma rows_of_columns a : ∀ b c d rows,
  rows_of a b c d = Ok rows →
  (λ row : list Q, default 0%Q (row !! 0%nat)) <$> rows = a
  ∧ (λ row : list Q, default 0%Q (row !! 1%nat)) <$> rows = b
  ∧ (λ row : list Q, default 0%Q (row !! 2%nat)) <$> rows = c
  ∧ (λ row : list Q, default 0%Q (row !! 3%nat)) <$> rows = d.
Proof.
  induction a as [|x a IH]; intros [|y b] [|z c] [|w d] rows H; simpl in H; try done.
  - by inversion H.
  - destruct (rows_of a b c d) as [rest|e] eqn:E; simpl in H; [|done].
    inversion H; subst. destruct (IH _ _ _ _ E) as (Ha & Hb & Hc & Hd).
    rewrite !fmap_cons. simpl. by rewrite Ha, Hb, Hc, Hd.
Qed.

(** Reading back what the miss path wrote gives the same four series. *)
Lemma load_written_file (x : Series) rows :
  rows_of (residents x) (heating x) (electricity x) (water x) = Ok rows →
  load_cache (written_file cache_columns rows) = Ok x.
Proof.
  intros H. destruct (rows_of_columns _ _ _ _ _ H) as (H0 & H1 & H2 & H3).
  unfold load_cache, written_file, cache_columns. cbn.
  rewrite H0, H1, H2, H3. by destruct x.
Qed.



Lemma build_frame env s :
  stsv (build env s).2 = stsv s
  ∧ simulation_repository (build env s).2 = simulation_repository s
  ∧ Forall (λ e, is_io e = true) (performed (build env) s).
Proof.
  assert (∀ r tr c,
    build env s = (r, mkState c (stsv s) (simulation_repository s) (trace s ++ tr)) →
    Forall (λ e, is_io e = true) tr →
    stsv (build env s).2 = stsv s
    ∧ simulation_repository (build env s).2 = simulation_repository s
    ∧ Forall (λ e, is_io e = true) (performed (build env) s)) as Hshape.
  { intros r tr c Hb Htr. split_and!; [by rewrite Hb..|].
    rewrite (performed_app _ _ tr); [done|]. by rewrite Hb. }
  assert (∀ st, finish st = ((finish st).1,
            mkState (self (finish st).2) (stsv st) (simulation_repository st) (trace st)))
    as Hfin.
  { intros st. unfold finish. destruct (py_max _); [done|]. by destruct st. }
  assert (∀ reply, Forall (λ e, is_io e = true) (saved_files env (self s) reply)) as Hsaved.
  { intros reply. unfold saved_files. apply Forall_fmap. by apply Forall_true. }
  pose proof (build_run env s) as Hb. cbn zeta in Hb.
  destruct (cache_file_exists env).
  - destruct (load_cache (cache_file env)) as [series|e].
    + rewrite Hfin in Hb. cbn beta iota delta [fst snd self stsv simulation_repository trace] in Hb. eapply Hshape; [exact Hb|]. by repeat constructor.
    + eapply Hshape; [exact Hb|]. by repeat constructor.
  - destruct (utsp_server env) as [reply|e].
    2:{ cbn beta iota delta [fst snd self stsv simulation_repository trace] in Hb. eapply Hshape; [exact Hb|]. by repeat constructor. }
    destruct (compute_series _ reply) as [series|e].
    2:{ cbn beta iota delta [fst snd self stsv simulation_repository trace] in Hb. eapply Hshape; [exact Hb|]. do 2 (constructor; [done|]). apply Hsaved. }
    destruct (rows_of _ _ _ _) as [rows|e].
    2:{ cbn beta iota delta [fst snd self stsv simulation_repository trace] in Hb. eapply Hshape; [exact Hb|]. do 2 (constructor; [done|]). apply Hsaved. }
    rewrite Hfin in Hb. cbn beta iota delta [fst snd self stsv simulation_repository trace] in Hb. eapply Hshape; [exact Hb|].
    do 2 (constructor; [done|]). apply Forall_app. split; [apply Hsaved|]. by repeat constructor.
Qed.

Lemma build_trace env s :
  trace (build env s).2 = trace s ++ performed (build env) s.
Proof.
  unfold performed.
  rewrite <- (take_drop (length (trace s)) (trace (build env s).2)) at 1.
  f_equal. rewrite build_run. cbn zeta.
  assert (∀ st, trace (finish st).2 = trace st) as Hfin by (intros st; apply finish_state).
  destruct (cache_file_exists env).
  - destruct (load_cache _); rewrite ?Hfin; simpl; by rewrite take_app_length.
  - destruct (utsp_server env); [|simpl; by rewrite take_app_length].
    destruct (compute_series _ _); [|simpl; by rewrite take_app_length].
    destruct (rows_of _ _ _ _); rewrite ?Hfin; simpl; by rewrite take_app_length.
Qed.

Lemma i_simulate_trace cfg t fc s :
  trace (i_simulate cfg t fc s).2 = trace s ++ performed (i_simulate cfg t fc) s.
Proof.
  destruct (i_simulate_shape cfg t fc s) as (r & writes & forecast & Hs & _).
  eapply performed_trace. by rewrite Hs.
Qed.

(** C7.  A call of [i_simulate], whether it returns or raises, leaves the
    connector object (and with it the four profile series) as it was; it
    performs no file or network access; it writes the value store only at
    the four declared outputs; it leaves the simulation repository alone
    without the predictive option, and with it changes at most the forecast
    entry, at most once.  The file and network accesses are those of
    [build], which performs nothing else and touches neither the value store
    nor the repository. *)
Theorem simulate_step_frame cfg t fc s :
  let s' := (i_simulate cfg t fc s).2 in
  self s' = self s
  ∧ trace s' = trace s ++ performed (i_simulate cfg t fc) s
  ∧ Forall (λ e, is_io e = false) (performed (i_simulate cfg t fc) s)
  ∧ (length (filter (λ e, is_set_entry e = true) (performed (i_simulate cfg t fc) s)) ≤ 1)%nat
  ∧ (∀ k, k ∉ declared_outputs (self s) → stsv s' !! k = stsv s !! k)
  ∧ (predictive (my_simulation_parameters (self s)) = false →
     simulation_repository s' = simulation_repository s)
  ∧ (∀ k, k ≠ Electricity_Demand_Forecast_24h →
     simulation_repository s' !! k = simulation_repository s !! k)
  ∧ (∀ env s0,
       trace (build env s0).2 = trace s0 ++ performed (build env) s0
       ∧ Forall (λ e, is_io e = true) (performed (build env) s0)
       ∧ stsv (build env s0).2 = stsv s0
       ∧ simulation_repository (build env s0).2 = simulation_repository s0).
Proof.
  destruct (i_simulate_frame_step cfg t fc s) as (H1 & H2 & H3 & H4 & H5 & H6).
  cbn zeta. split_and!; try done.
  - apply i_simulate_trace.
  - intros env s0. destruct (build_frame env s0) as (B1 & B2 & B3).
    split_and!; try done. apply build_trace.
Qed.

(** *** The three cases on the resolution of the profiles *)

Lemma add_occupancy_step gain values (a b : list Q) (i : nat) x y v :
  a !! i = Some x → b !! i = Some y → values !! i = Some v →
  add_occupancy gain values (a, b) (Z.of_nat i)
  = Ok (<[i := (x + v)%Q]> a, <[i := (y + gain * v)%Q]> b).
Proof.
  intros Ha Hb Hv. unfold add_occupancy.
  rewrite (py_index_nat a i x Ha), (py_index_nat values i v Hv). simpl.
  rewrite (py_index_nat b i y Hb). simpl. by rewrite Nat2Z.id.
Qed.

Lemma average_occupancy_step r gain values (a b : list Q) (i : nat) x y :
  r ≠ 0 → a !! i = Some x → b !! i = Some y →
  average_occupancy r gain values (a, b) (Z.of_nat i)
  = Ok (<[i := (x + np_round (block_mean values (Z.of_nat i) r))%Q]> a,
        <[i := (y + gain * block_mean values (Z.of_nat i) r)%Q]> b).
Proof.
  intros Hr Ha Hb. unfold average_occupancy.
  rewrite py_div_ok by by apply inject_Z_nonzero. simpl.
  rewrite (py_index_nat a i x Ha). simpl.
  rewrite (py_index_nat b i y Hb). simpl. by rewrite Nat2Z.id.
Qed.

Lemma for_modes_two body high low n acc :
  for_modes body [high; low] n acc
  = (acc1 ← for_each (py_range n) (body 150%Q high) acc;
     for_each (py_range n) (body 100%Q low) acc1).
Proof.
  unfold for_modes, gain_per_person. simpl.
  destruct (for_each (py_range n) (body 150%Q high) acc) as [acc1|e]; simpl; [|done].
  by destruct (for_each (py_range n) (body 100%Q low) acc1).
Qed.

Lemma lookup_zeros (n i : nat) : (i < n)%nat → replicate n 0%Q !! i = Some 0%Q.
Proof. intros H. by apply lookup_replicate_2. Qed.

(** Two passes over the zero-initialised lists. *)
Lemma for_modes_pointwise (F1 G1 F2 G2 : nat → Q → Q) body high low (n : nat) :
  (∀ (i : nat) a b x y, (i < n)%nat → a !! i = Some x → b !! i = Some y →
     body 150%Q high (a, b) (Z.of_nat i) = Ok (<[i := F1 i x]> a, <[i := G1 i y]> b)) →
  (∀ (i : nat) a b x y, (i < n)%nat → a !! i = Some x → b !! i = Some y →
     body 100%Q low (a, b) (Z.of_nat i) = Ok (<[i := F2 i x]> a, <[i := G2 i y]> b)) →
  ∃ a b,
    for_modes body [high; low] (Z.of_nat n) (replicate n 0%Q, replicate n 0%Q) = Ok (a, b)
    ∧ length a = n ∧ length b = n
    ∧ (∀ i, (i < n)%nat → a !! i = Some (F2 i (F1 i 0%Q)))
    ∧ (∀ i, (i < n)%nat → b !! i = Some (G2 i (G1 i 0%Q))).
Proof.
  intros H1 H2.
  destruct (for_each_pointwise F1 G1 (body 150%Q high) (replicate n 0%Q) (replicate n 0%Q) n)
    as (a1 & b1 & Hrun1 & La1 & Lb1 & Fa1 & Fb1 & _ & _);
    [by rewrite length_replicate | by rewrite length_replicate | exact H1 |].
  rewrite length_replicate in La1, Lb1.
  destruct (for_each_pointwise F2 G2 (body 100%Q low) a1 b1 n)
    as (a2 & b2 & Hrun2 & La2 & Lb2 & Fa2 & Fb2 & _ & _); [lia | lia | exact H2 |].
  exists a2, b2. rewrite for_modes_two, Hrun1. simpl. rewrite Hrun2.
  split_and!; [done | lia | lia | |].
  - intros i Hi. apply Fa2; [done|]. apply Fa1; [done|]. by apply lookup_zeros.
  - intros i Hi. apply Fb2; [done|]. apply Fb1; [done|]. by apply lookup_zeros.
Qed.

Lemma resample_equal high low el wc r :
  (length high ≤ length low)%nat →
  ∃ series,
    resample (len high) (len high) r [high; low] el wc = Ok series
    ∧ electricity series = el ∧ water series = wc
    ∧ length (residents series) = length high
    ∧ length (heating series) = length high
    ∧ ∀ i h l, high !! i = Some h → low !! i = Some l →
        residents series !! i = Some (0 + h + l)%Q
        ∧ heating series !! i = Some (0 + 150 * h + 100 * l)%Q.
Proof.
  intros Hlen. set (n := length high).
  destruct (for_modes_pointwise
              (λ i x, (x + default 0 (high !! i))%Q) (λ i y, (y + 150 * default 0 (high !! i))%Q)
              (λ i x, (x + default 0 (low !! i))%Q) (λ i y, (y + 100 * default 0 (low !! i))%Q)
              add_occupancy high low n) as (a & b & Hrun & La & Lb & Fa & Fb).
  { intros i a b x y Hi Ha Hb.
    destruct (lookup_lt_is_Some_2 high i) as [v Hv]; [done|].
    rewrite Hv. simpl. by apply add_occupancy_step. }
  { intros i a b x y Hi Ha Hb.
    destruct (lookup_lt_is_Some_2 low i) as [v Hv]; [unfold n in Hi; lia|].
    rewrite Hv. simpl. by apply add_occupancy_step. }
  exists (mkSeries a b el wc). unfold resample, len. fold n.
  rewrite Z.eqb_refl, Nat2Z.id, Hrun. simpl.
  split_and!; try done.
  intros i h l Hh Hl. pose proof (lookup_lt_Some _ _ _ Hh) as Hi. fold n in Hi.
  rewrite Fa, Fb by done. by rewrite Hh, Hl.
Qed.

Lemma resample_greater high low el wc so sd r :
  0 < sd → sd < so → 0 < r → sd * r ≤ so →
  ∃ series,
    resample so sd r [high; low] el wc = Ok series
    ∧ ∀ i : nat, Z.of_nat i < sd →
        residents series !! i
        = Some (0 + np_round (block_mean high (Z.of_nat i) r)
                  + np_round (block_mean low (Z.of_nat i) r))%Q
        ∧ heating series !! i
          = Some (0 + 150 * block_mean high (Z.of_nat i) r
                    + 100 * block_mean low (Z.of_nat i) r)%Q
        ∧ electricity series !! i = Some (block_mean el (Z.of_nat i) r)
        ∧ water series !! i = Some (py_sum (block wc (Z.of_nat i) r)).
Proof.
  intros Hsd Hso Hr Hmul. set (n := Z.to_nat sd).
  assert (sd = Z.of_nat n) as Hn by (unfold n; lia).
  destruct (for_modes_pointwise
              (λ i x, (x + np_round (block_mean high (Z.of_nat i) r))%Q)
              (λ i y, (y + 150 * block_mean high (Z.of_nat i) r)%Q)
              (λ i x, (x + np_round (block_mean low (Z.of_nat i) r))%Q)
              (λ i y, (y + 100 * block_mean low (Z.of_nat i) r)%Q)
              (average_occupancy r) high low n) as (a & b & Hrun & La & Lb & Fa & Fb).
  { intros i a b x y Hi Ha Hb. apply average_occupancy_step; [lia|done..]. }
  { intros i a b x y Hi Ha Hb. apply average_occupancy_step; [lia|done..]. }
  set (mean := λ k : Z, (py_sum (py_slice el k (k + r)) / inject_Z r)%Q).
  set (total := λ k : Z, py_sum (py_slice wc k (k + r))).
  set (starts := (λ k, k * r) <$> py_range ((so + r - 1) / r)).
  exists (mkSeries a b (mean <$> starts) (total <$> starts)).
  split.
  - unfold resample. fold n.
    assert ((so =? sd) = false) as -> by (apply Z.eqb_neq; lia).
    assert ((sd <? so) = true) as -> by (apply Z.ltb_lt; lia).
    rewrite Hn at 1. rewrite Hrun. simpl.
    rewrite py_range_step_positive by done. fold starts. simpl.
    rewrite (comprehension_total _ mean).
    2:{ intros k. apply py_div_ok. apply inject_Z_nonzero. lia. }
    done.
  - intros i Hi. simpl.
    assert (Z.of_nat i < (so + r - 1) / r) as Hcount.
    { apply Z.lt_le_trans with sd; [done|]. apply Z.div_le_lower_bound; nia. }
    split_and!.
    + apply Fa. lia.
    + apply Fb. lia.
    + unfold starts. rewrite list_lookup_fmap, lookup_starts by done. simpl.
      unfold mean, block_mean, block.
      by replace (Z.of_nat i * r + r) with ((Z.of_nat i + 1) * r) by ring.
    + unfold starts. rewrite list_lookup_fmap, lookup_starts by done. simpl.
      unfold total, block.
      by replace (Z.of_nat i * r + r) with ((Z.of_nat i + 1) * r) by ring.
Qed.

Lemma steps_ratio_floor so sd :
  0 ≤ so → 0 < sd → steps_ratio_of so sd = Ok (so / sd).
Proof.
  intros Hso Hsd. unfold steps_ratio_of.
  rewrite py_div_ok by (apply inject_Z_nonzero; lia). simpl. f_equal.
  unfold int_of_float.
  assert (Qle_bool 0 (inject_Z so / inject_Z sd) = true) as ->.
  { apply Qle_bool_iff. apply Qle_shift_div_l.
    - change 0%Q with (inject_Z 0). rewrite <- Zlt_Qlt. lia.
    - rewrite Qmult_0_l. change 0%Q with (inject_Z 0). rewrite <- Zle_Qle. lia. }
  by rewrite <- Zdiv_Qdiv.
Qed.

Lemma compute_series_unfold params reply sd :
  steps_desired_of params = Ok sd → 0 < sd →
  compute_series params reply
  = resample (len (high_activity_values reply)) sd (len (high_activity_values reply) / sd)
      [high_activity_values reply; low_activity_values reply]
      ((λ x, x * 1000 * 60)%Q <$> electricity_sum_kwh reply) (warm_water_sum_l reply).
Proof.
  intros Hsd Hpos. unfold compute_series. rewrite Hsd. simpl.
  rewrite steps_ratio_floor by (unfold len; lia). done.
Qed.


(** The number of simulation steps is the truncated binary64 product of
    line 428 and not the truncated exact quotient: seven days in steps of
    2688 s are 225 steps by exact arithmetic and 224 by the code, thirteen
    days in steps of 24960 s are 45 and 44; a day in quarters of an hour has
    its 96 steps. *)
Example steps_desired_in_binary64 :
  steps_desired_of (mkParameters 2688 7 false) = Ok 224
  ∧ steps_desired_of (mkParameters 24960 13 false) = Ok 44
  ∧ steps_desired_of (mkParameters 900 1 false) = Ok 96.
Proof. vm_compute. done. Qed.

Lemma int_true_div_zero_division a b :
  int_true_div a b = Raise ZeroDivisionError → b = 0.
Proof.
  unfold int_true_div. destruct (Z.eqb_spec b 0) as [Hz|Hnz]; [done|].
  by destruct (SFdiv _ _ _ _).
Qed.

Lemma int_mul_float_no_zero_division n x :
  int_mul_float n x ≠ Raise ZeroDivisionError.
Proof.
  unfold int_mul_float, float_of_int. by destruct (binary_normalize _ _ _ _ _).
Qed.

Lemma int_of_binary64_no_zero_division x :
  int_of_binary64 x ≠ Raise ZeroDivisionError.
Proof. by destruct x. Qed.

(** Line 428 divides by the step width and by nothing else. *)
Lemma steps_desired_of_zero_division params :
  steps_desired_of params = Raise ZeroDivisionError ↔ seconds_per_timestep params = 0.
Proof.
  unfold steps_desired_of. split.
  - destruct (int_true_div 3600 _) as [per_hour|e] eqn:E1; simpl.
    + destruct (int_mul_float _ per_hour) as [steps|e] eqn:E2; simpl.
      * intros H. by apply int_of_binary64_no_zero_division in H.
      * intros [= ->]. by apply int_mul_float_no_zero_division in E2.
    + intros [= ->]. by apply int_true_div_zero_division in E1.
  - intros ->. done.
Qed.




End BuildFacts.

(** ** The system chart: the graph and the outcomes of [make_chart] *)

Section ChartGraph.
Import Chart.

Lemma add_nodes_graph wcn comps : ∀ i g d,
  nodes (add_nodes wcn comps i g d).1
  = nodes g ++ imap (λ k c, mkNode (i + k) (node_label wcn c)) comps
  ∧ edges (add_nodes wcn comps i g d).1 = edges g.
Proof.
  induction comps as [|c comps IH]; intros i g d; simpl.
  - by rewrite app_nil_r.
  - destruct (IH (S i) (add_node g (mkNode i (node_label wcn c)))
                (<[component_name c := mkNode i (node_label wcn c)]> d)) as [Hn He].
    unfold node_label in *. rewrite Hn, He. simpl. split; [|done].
    rewrite <- app_assoc. simpl. do 2 f_equal.
    + by rewrite Nat.add_0_r.
    + apply imap_ext. intros k x _. simpl. f_equal. lia.
Qed.

Lemma add_nodes_dict_dom wcn comps : ∀ i g d key,
  is_Some ((add_nodes wcn comps i g d).2 !! key)
  ↔ key ∈ component_name <$> comps ∨ is_Some (d !! key).
Proof.
  induction comps as [|c comps IH]; intros i g d key; cbn [add_nodes].
  - rewrite fmap_nil, elem_of_nil. simpl. tauto.
  - rewrite IH, fmap_cons, elem_of_cons, lookup_insert_is_Some.
    destruct (decide (component_name c = key)) as [->|Hne].
    + split; intros _; [left; by left | right; by left].
    + split.
      * intros [H|[H|[_ H]]]; [left; by right | done | by right].
      * intros [[H|H]|H]; [congruence | by left | right; right; done].
Qed.

Lemma add_nodes_dict_values wcn comps : ∀ i g d key n,
  (add_nodes wcn comps i g d).2 !! key = Some n →
  d !! key = Some n ∨ n ∈ imap (λ k c, mkNode (i + k) (node_label wcn c)) comps.
Proof.
  induction comps as [|c comps IH]; intros i g d key n H; simpl in *.
  - by left.
  - apply IH in H as [H|H].
    + apply lookup_insert_Some in H as [[_ <-]|[_ H]]; [|by left].
      right. unfold node_label. rewrite Nat.add_0_r. by left.
    + right. right. erewrite imap_ext; [exact H|].
      intros k x _. simpl. f_equal. lia.
Qed.

Lemma add_label_keys labels key label :
  (add_label labels key label).*1
  = if bool_decide (key ∈ labels.*1) then labels.*1 else labels.*1 ++ [key].
Proof.
  induction labels as [|[k l] labels IH]; csimpl; [done|].
  destruct (decide (k = key)) as [->|Hne]; csimpl.
  - rewrite bool_decide_eq_true_2; [done|]. by left.
  - rewrite IH. destruct (bool_decide (key ∈ labels.*1)) eqn:E.
    + apply bool_decide_eq_true in E. rewrite bool_decide_eq_true_2; [done|]. by right.
    + apply bool_decide_eq_false in E. rewrite bool_decide_eq_false_2; [done|].
      rewrite elem_of_cons. intros [?|?]; [congruence|done].
Qed.

Lemma add_label_NoDup labels key label :
  NoDup labels.*1 → NoDup (add_label labels key label).*1.
Proof.
  intros H. rewrite add_label_keys. case_bool_decide; [done|].
  apply NoDup_app. split_and!; [done| |apply NoDup_singleton].
  intros x Hx Hx'. apply list_elem_of_singleton in Hx'. by subst.
Qed.

Lemma add_label_elem labels key label k :
  k ∈ (add_label labels key label).*1 ↔ k ∈ labels.*1 ∨ k = key.
Proof.
  rewrite add_label_keys. case_bool_decide.
  - split; [by left|]. intros [?| ->]; done.
  - rewrite elem_of_app, list_elem_of_singleton. done.
Qed.

Lemma label_inputs_result node_dict names component inputs :
  (∀ k, is_Some (node_dict !! k) ↔ k ∈ names) →
  component_name component ∈ names →
  ∀ labels, labels_ok node_dict labels →
  match first_dangling_input names inputs with
  | Some src => label_inputs node_dict component inputs labels = Raise (KeyError src)
  | None => ∃ labels', label_inputs node_dict component inputs labels = Ok labels'
                       ∧ labels_ok node_dict labels'
  end.
Proof.
  intros Hdom Hown. induction inputs as [|input inputs IH]; intros labels Hok; simpl.
  - eauto.
  - destruct (src_object_name input) as [src|]; [|by apply IH].
    case_bool_decide as Hsrc.
    + apply Hdom in Hsrc as [a Ha]. apply Hdom in Hown as [b Hb].
      unfold dict_get. rewrite Ha, Hb. simpl. apply IH.
      destruct Hok as [Hnd Hval]. split; [by apply add_label_NoDup|].
      intros key Hkey. apply add_label_elem in Hkey as [Hkey| ->]; [by apply Hval|].
      simpl. eauto.
    + unfold dict_get. destruct (node_dict !! src) eqn:E; [|done].
      exfalso. apply Hsrc, Hdom. eauto.
Qed.

Lemma label_components_result node_dict names comps :
  (∀ k, is_Some (node_dict !! k) ↔ k ∈ names) →
  Forall (λ c, component_name c ∈ names) comps →
  ∀ labels, labels_ok node_dict labels →
  match first_dangling names comps with
  | Some src => label_components node_dict comps labels = Raise (KeyError src)
  | None => ∃ labels', label_components node_dict comps labels = Ok labels'
                       ∧ labels_ok node_dict labels'
  end.
Proof.
  intros Hdom. induction comps as [|c comps IH]; intros Hcomps labels Hok; simpl.
  - eauto.
  - inversion Hcomps as [|? ? Hc Hrest]; subst.
    pose proof (label_inputs_result node_dict names c (component_inputs c) Hdom Hc labels Hok) as H.
    destruct (first_dangling_input names (component_inputs c)) as [src|].
    + by rewrite H.
    + destruct H as (labels' & -> & Hok'). simpl. by apply IH.
Qed.

Lemma add_edges_edges wl labels : ∀ g,
  edges (add_edges wl g labels)
  = edges g ++ ((λ kl : Node * Node * string,
                   mkEdge kl.1.1 kl.1.2 (if wl then Some kl.2 else None)) <$> labels)
  ∧ nodes (add_edges wl g labels) = nodes g.
Proof.
  unfold add_edges.
  induction labels as [|[k l] labels IH]; intros g; simpl.
  - by rewrite app_nil_r.
  - destruct (IH (if wl then add_edge g (mkEdge k.1 k.2 (Some l))
                  else add_edge g (mkEdge k.1 k.2 None))) as [He Hn].
    rewrite He, Hn. destruct wl; simpl; by rewrite <- app_assoc.
Qed.

Lemma initial_dict_dom wcn comps key :
  is_Some ((add_nodes wcn comps 0 (mkDot [] []) ∅).2 !! key)
  ↔ key ∈ component_name <$> comps.
Proof.
  rewrite add_nodes_dict_dom, lookup_empty. split; [intros [?|[? ?]]; done | by left].
Qed.

Lemma chart_graph_result ppdt wl wcn :
  let comps := wrapped_components ppdt in
  match first_dangling (component_name <$> comps) comps with
  | Some src => chart_graph ppdt wl wcn = Raise (KeyError src)
  | None =>
      ∃ g, chart_graph ppdt wl wcn = Ok g
           ∧ nodes g = imap (λ k c, mkNode k (node_label wcn c)) comps
           ∧ NoDup (endpoints <$> edges g)
           ∧ Forall (λ e, edge_src e ∈ nodes g ∧ edge_dst e ∈ nodes g
                          ∧ if wl then is_Some (edge_label e) else edge_label e = None)
                    (edges g)
  end.
Proof.
  intros comps. unfold chart_graph. fold comps.
  pose proof (add_nodes_graph wcn comps 0%nat (mkDot [] []) ∅) as [Hn He].
  pose proof (initial_dict_dom wcn comps) as Hdom.
  pose proof (add_nodes_dict_values wcn comps 0%nat (mkDot [] []) ∅) as Hval.
  destruct (add_nodes wcn comps 0 (mkDot [] []) ∅) as [graph node_dict]. simpl in *.
  pose proof (label_components_result node_dict (component_name <$> comps) comps Hdom) as H.
  specialize (H ltac:(apply Forall_forall; intros c Hc; by apply list_elem_of_fmap_2) []).
  specialize (H ltac:(split; [constructor | intros key Hkey; by apply elem_of_nil in Hkey])).
  destruct (first_dangling _ comps) as [src|]; [by rewrite H|].
  destruct H as (labels & -> & Hnd & Hkeys). simpl.
  destruct (add_edges_edges wl labels graph) as [Hedges Hnodes].
  exists (add_edges wl graph labels). rewrite Hedges, Hnodes, Hn, He. simpl.
  split_and!; try done.
  - rewrite <- list_fmap_compose.
    assert ((endpoints ∘ (λ kl : Node * Node * string,
               mkEdge kl.1.1 kl.1.2 (if wl then Some kl.2 else None))) <$> labels
            = labels.*1) as ->; [|done].
    apply list_fmap_ext. intros i [[a b] l] _. done.
  - apply Forall_fmap, Forall_forall. intros [[a b] l] Hin. simpl.
    assert ((a, b) ∈ labels.*1) as Hk.
    { apply list_elem_of_fmap. exists (a, b, l). done. }
    destruct (Hkeys _ Hk) as [[ka Ha] [kb Hb]]. simpl in *.
    apply Hval in Ha as [Ha|Ha]; [by rewrite lookup_empty in Ha|].
    apply Hval in Hb as [Hb|Hb]; [by rewrite lookup_empty in Hb|].
    split_and!; try done. destruct wl; simpl; eauto.
Qed.

Lemma first_dangling_input_None names inputs :
  first_dangling_input names inputs = None
  ↔ ∀ i src, i ∈ inputs → src_object_name i = Some src → src ∈ names.
Proof.
  induction inputs as [|input inputs IH]; simpl.
  - split; [intros _ i src Hi; by apply elem_of_nil in Hi | done].
  - destruct (src_object_name input) as [src0|] eqn:E.
    + case_bool_decide as Hsrc.
      * rewrite IH. split.
        -- intros H i src Hi Hs. apply elem_of_cons in Hi as [->|Hi]; [congruence|eauto].
        -- intros H i src Hi Hs. apply (H i src); [by right|done].
      * split; [done|]. intros H. exfalso. apply Hsrc. apply (H input src0); [by left|done].
    + rewrite IH. split.
      * intros H i src Hi Hs. apply elem_of_cons in Hi as [->|Hi]; [congruence|eauto].
      * intros H i src Hi Hs. apply (H i src); [by right|done].
Qed.

Lemma first_dangling_input_Some names inputs src :
  first_dangling_input names inputs = Some src →
  (src ∉ names) ∧ (∃ i, i ∈ inputs ∧ src_object_name i = Some src).
Proof.
  induction inputs as [|input inputs IH]; simpl; [done|].
  destruct (src_object_name input) as [src0|] eqn:E.
  - case_bool_decide as Hsrc.
    + intros H. destruct (IH H) as (Hn & i & Hi & Hs). split; [done|].
      exists i. split; [by right|done].
    + intros [= <-]. split; [done|]. exists input. split; [by left|done].
  - intros H. destruct (IH H) as (Hn & i & Hi & Hs). split; [done|].
    exists i. split; [by right|done].
Qed.

Lemma first_dangling_None names comps :
  first_dangling names comps = None
  ↔ ∀ c i src, c ∈ comps → i ∈ component_inputs c →
      src_object_name i = Some src → src ∈ names.
Proof.
  induction comps as [|c comps IH]; simpl.
  - split; [intros _ c i src Hc; by apply elem_of_nil in Hc | done].
  - destruct (first_dangling_input names (component_inputs c)) as [src0|] eqn:E.
    + split; [done|]. intros H. exfalso.
      destruct (first_dangling_input_Some _ _ _ E) as (Hn & i & Hi & Hs).
      apply Hn. apply (H c i src0); [by left|done..].
    + rewrite IH. pose proof (proj1 (first_dangling_input_None _ _) E) as E'. split.
      * intros H c' i src Hc Hi Hs. apply elem_of_cons in Hc as [->|Hc]; eauto.
      * intros H c' i src Hc Hi Hs. apply (H c' i src); [by right|done..].
Qed.

Lemma first_dangling_Some names comps src :
  first_dangling names comps = Some src →
  (src ∉ names)
  ∧ (∃ c i, c ∈ comps ∧ i ∈ component_inputs c ∧ src_object_name i = Some src).
Proof.
  induction comps as [|c comps IH]; simpl; [done|].
  destruct (first_dangling_input names (component_inputs c)) as [src0|] eqn:E.
  - intros [= <-]. destruct (first_dangling_input_Some _ _ _ E) as (Hn & i & Hi & Hs).
    split; [done|]. exists c, i. split_and!; [by left|done..].
  - intros H. destruct (IH H) as (Hn & c' & i & Hc & Hi & Hs). split; [done|].
    exists c', i. split_and!; [by right|done..].
Qed.

Lemma imap_nodes_NoDup wcn (comps : list WrappedComponent) :
  NoDup (imap (λ k c, mkNode k (node_label wcn c)) comps).
Proof.
  apply NoDup_alt. intros i j n Hi Hj.
  rewrite list_lookup_imap in Hi, Hj.
  destruct (comps !! i) as [ci|]; [|done]. destruct (comps !! j) as [cj|]; [|done].
  simpl in *. congruence.
Qed.

Lemma imap_nodes_names wcn (comps : list WrappedComponent) :
  node_name <$> imap (λ k c, mkNode k (node_label wcn c)) comps = node_label wcn <$> comps.
Proof.
  apply list_eq. intros i. rewrite !list_lookup_fmap, list_lookup_imap.
  by destruct (comps !! i).
Qed.

(** X1.  When the three loops of [make_graphviz_chart] run through, the graph
    handed to [write_png] has exactly one node per wrapped component, in
    their order, named after the component (with the class name on a second
    line when class names are asked for); no node object occurs twice; no
    two edges join the same pair of nodes in the same direction, however
    many inputs a component takes from one source; every edge runs between
    nodes of the graph; and every edge carries a label when labels are asked
    for and none otherwise. *)
Theorem chart_graph_structure ppdt with_labels with_class_names g :
  chart_graph ppdt with_labels with_class_names = Ok g →
  node_name <$> nodes g = node_label with_class_names <$> wrapped_components ppdt
  ∧ NoDup (nodes g)
  ∧ NoDup (endpoints <$> edges g)
  ∧ Forall (λ e, edge_src e ∈ nodes g ∧ edge_dst e ∈ nodes g
                 ∧ if with_labels then is_Some (edge_label e) else edge_label e = None)
           (edges g).
Proof.
  intros H. pose proof (chart_graph_result ppdt with_labels with_class_names) as Hr.
  cbn zeta in Hr. destruct (first_dangling _ _) as [src|]; [congruence|].
  destruct Hr as (g' & Hg & Hn & Hnd & He). assert (g' = g) as -> by congruence.
  split_and!; try done.
  - rewrite Hn. apply imap_nodes_names.
  - rewrite Hn. apply imap_nodes_NoDup.
Qed.

(** X2.  The three loops run through exactly when every input that names a
    source names a wrapped component.  Otherwise they raise [KeyError], and
    the key is the first source name, in the order of the components and of
    their inputs, that no wrapped component bears. *)
Theorem chart_graph_key_error ppdt with_labels with_class_names :
  let comps := wrapped_components ppdt in
  let names := component_name <$> comps in
  (is_ok (chart_graph ppdt with_labels with_class_names) = true
   ↔ ∀ c i src, c ∈ comps → i ∈ component_inputs c →
       src_object_name i = Some src → src ∈ names)
  ∧ (∀ e, chart_graph ppdt with_labels with_class_names = Raise e →
       ∃ src, e = KeyError src ∧ first_dangling names comps = Some src
              ∧ (src ∉ names)
              ∧ (∃ c i, c ∈ comps ∧ i ∈ component_inputs c
                        ∧ src_object_name i = Some src)).
Proof.
  intros comps names.
  pose proof (chart_graph_result ppdt with_labels with_class_names) as Hr.
  cbn zeta in Hr. fold comps names in Hr.
  destruct (first_dangling names comps) as [src|] eqn:E.
  - rewrite Hr. split.
    + split; [done|]. intros H. apply first_dangling_None in H. congruence.
    + intros e [= <-]. exists src. destruct (first_dangling_Some _ _ _ E) as [Hn Hex]. done.
  - destruct Hr as (g & -> & _). split; [|done].
    split; [intros _; by apply first_dangling_None | done].
Qed.
(** Witness of X1: a household fed by a storage. *)
Lemma chart_graph_structure_witness :
  ∃ g, chart_graph (mkPpdt [storage; household] "results") true false = Ok g
       ∧ node_name <$> nodes g = ["Storage"; "Household"]
       ∧ NoDup (nodes g).
Proof.
  eexists. split; [reflexivity|].
  pose proof (chart_graph_structure (mkPpdt [storage; household] "results") true false _
                eq_refl) as (Hn & Hd & _).
  split; [exact Hn | exact Hd].
Defined.

End ChartGraph.



Section ChartRuns.
Import Chart.
Variable graphviz : Dot → string → result ().
Variable ppdt : PostProcessingDataTransfer.

Lemma draw_chart_graph wl wcn filename w :
  draw graphviz ppdt wl wcn filename w
  = match chart_graph ppdt wl wcn with
    | Ok graph => write_png graphviz graph (path_join (result_directory ppdt) filename) w
    | Raise e => (Raise e, w)
    end.
Proof.
  unfold draw, chart_graph.
  destruct (add_nodes _ _ _ _ _) as [graph node_dict].
  unfold mbind, M_bind, lift, result_bind.
  by destruct (label_components _ _ _).
Qed.

Lemma make_graphviz_chart_outcome wl wcn filename caption w :
  make_graphviz_chart graphviz ppdt wl wcn filename caption w
  = let failed e := (Ok None, mkWorld (log w ++ [failure_message +:+ str_exn e]) (files w)) in
    let path := path_join (result_directory ppdt) filename in
    match chart_graph ppdt wl wcn with
    | Raise e => failed e
    | Ok graph =>
        match graphviz graph path with
        | Ok _ => (Ok (Some (mkEntry filename caption)),
                   mkWorld (log w) (files w ++ [(path, graph)]))
        | Raise e => failed e
        end
    end.
Proof.
  unfold make_graphviz_chart, mbind, M_bind, mret, M_ret, try_except, log_error.
  rewrite draw_chart_graph. unfold write_png.
  destruct (chart_graph ppdt wl wcn) as [graph|e]; [|done].
  by destruct (graphviz graph _) as [[]|e].
Qed.

(** One call: either an entry and one more file, or no entry and one more
    log line. *)
Lemma make_graphviz_chart_step wl wcn filename caption w :
  ∃ se w', make_graphviz_chart graphviz ppdt wl wcn filename caption w = (Ok se, w')
    ∧ ((se = Some (mkEntry filename caption) ∧ log w' = log w
        ∧ ∃ g, files w' = files w ++ [(path_join (result_directory ppdt) filename, g)])
       ∨ (se = None ∧ files w' = files w ∧ ∃ msg, log w' = log w ++ [msg])).
Proof.
  rewrite make_graphviz_chart_outcome. cbn zeta.
  destruct (chart_graph ppdt wl wcn) as [graph|e].
  - destruct (graphviz graph _) as [[]|e]; do 2 eexists; (split; [done|]).
    + left. simpl. eauto.
    + right. simpl. eauto.
  - do 2 eexists. split; [done|]. right. simpl. eauto.
Qed.

Lemma append_if_some_option_list entries f :
  append_if_some entries f = entries ++ option_list f.
Proof. destruct f; simpl; [done | by rewrite app_nil_r]. Qed.

Lemma make_graphviz_chart_accounting wl wcn filename caption w :
  ∃ se w' messages rendered,
    make_graphviz_chart graphviz ppdt wl wcn filename caption w = (Ok se, w')
    ∧ log w' = log w ++ messages
    ∧ files w' = files w ++ rendered
    ∧ (length (option_list se) + length messages = 1)%nat
    ∧ rendered.*1 = entry_path ppdt <$> option_list se
    ∧ option_list se `sublist_of` [mkEntry filename caption].
Proof.
  destruct (make_graphviz_chart_step wl wcn filename caption w)
    as (se & w' & Hrun & [(-> & Hlog & g & Hfiles)|(-> & Hfiles & msg & Hlog)]).
  - exists (Some (mkEntry filename caption)), w', [],
      [(path_join (result_directory ppdt) filename, g)].
    split_and!; [done | by rewrite app_nil_r | done | done | done | done].
  - exists None, w', [msg], [].
    split_and!; [done | done | by rewrite app_nil_r | done | done | ].
    apply sublist_nil_l.
Qed.

(** X3.  [make_chart] never raises.  Each of its three attempts leaves either
    an entry in the returned list and a picture in the result directory, or
    one line in the error log, never both and never neither: entries and new
    log lines add up to three, the pictures written are those of the entries
    returned, in the same order and under the entries' file names, and the
    entries are a sub-list of the three fixed ones, in their order.  Earlier
    log lines and files stay. *)
Theorem make_chart_accounting w :
  ∃ entries w' messages rendered,
    make_chart graphviz ppdt w = (Ok entries, w')
    ∧ log w' = log w ++ messages
    ∧ files w' = files w ++ rendered
    ∧ (length entries + length messages = 3)%nat
    ∧ rendered.*1 = entry_path ppdt <$> entries
    ∧ entries `sublist_of`
        [ mkEntry "System_no_Edge_with_class_labels.png" "System Chart of all components";
          mkEntry "System_no_Edge_labels.png" "System Chart of all components and all outputs.";
          mkEntry "System_with_Edge_labels.png" "System Chart with labels on all edges." ].
Proof.
  destruct (make_graphviz_chart_accounting false true "System_no_Edge_with_class_labels.png"
              "System Chart of all components" w)
    as (f1 & w1 & m1 & r1 & H1 & L1 & F1 & N1 & P1 & S1).
  destruct (make_graphviz_chart_accounting false false "System_no_Edge_labels.png"
              "System Chart of all components and all outputs." w1)
    as (f2 & w2 & m2 & r2 & H2 & L2 & F2 & N2 & P2 & S2).
  destruct (make_graphviz_chart_accounting true false "System_with_Edge_labels.png"
              "System Chart with labels on all edges." w2)
    as (f3 & w3 & m3 & r3 & H3 & L3 & F3 & N3 & P3 & S3).
  exists (option_list f1 ++ option_list f2 ++ option_list f3), w3,
         (m1 ++ m2 ++ m3), (r1 ++ r2 ++ r3).
  split_and!.
  - unfold make_chart, mbind, M_bind, mret, M_ret. rewrite H1, H2, H3.
    rewrite !append_if_some_option_list, app_nil_l, <- app_assoc. reflexivity.
  - rewrite L3, L2, L1, <- !app_assoc. reflexivity.
  - rewrite F3, F2, F1, <- !app_assoc. reflexivity.
  - rewrite !length_app. lia.
  - rewrite !fmap_app, P1, P2, P3. reflexivity.
  - change [?a; ?b; ?c] with ([a] ++ [b] ++ [c]).
    apply sublist_app; [exact S1|]. apply sublist_app; [exact S2 | exact S3].
Qed.

Lemma make_graphviz_chart_dangling src wl wcn filename caption w :
  first_dangling (component_name <$> wrapped_components ppdt) (wrapped_components ppdt)
    = Some src →
  make_graphviz_chart graphviz ppdt wl wcn filename caption w
  = (Ok None, mkWorld (log w ++ [failure_message +:+ str_exn (KeyError src)]) (files w)).
Proof.
  intros H. rewrite make_graphviz_chart_outcome.
  pose proof (chart_graph_result ppdt wl wcn) as Hr. cbn zeta in Hr.
  rewrite H in Hr. rewrite Hr. reflexivity.
Qed.

(** X4.  If some input names a source that no wrapped component bears, then
    whatever Graphviz would do, [make_chart] returns the empty list, writes
    no picture, and logs the same line three times: the failure message
    followed by the [repr] of the first such name, which is what
    [str(KeyError(name))] gives (the name between apostrophes, or between
    double quotes when it holds an apostrophe and no double quote, with
    backslashes and control characters escaped).  The name is taken to be
    ASCII, where [py_repr] is Python's [repr] character by character. *)
Theorem make_chart_dangling_source src w :
  is_ascii src = true →
  first_dangling (component_name <$> wrapped_components ppdt) (wrapped_components ppdt)
    = Some src →
  make_chart graphviz ppdt w
  = (Ok [], mkWorld (log w ++ replicate 3 (failure_message +:+ py_repr src)) (files w)).
Proof.
  intros _ H. change (py_repr src) with (str_exn (KeyError src)).
  unfold make_chart, mbind, M_bind, mret, M_ret.
  rewrite !(make_graphviz_chart_dangling src) by exact H.
  cbn [append_if_some log files replicate]. rewrite <- !app_assoc. reflexivity.
Qed.

Lemma make_graphviz_chart_rendered wl wcn filename caption w :
  (∀ g p, graphviz g p = Ok ()) →
  first_dangling (component_name <$> wrapped_components ppdt) (wrapped_components ppdt)
    = None →
  ∃ g, chart_graph ppdt wl wcn = Ok g
       ∧ make_graphviz_chart graphviz ppdt wl wcn filename caption w
         = (Ok (Some (mkEntry filename caption)),
            mkWorld (log w) (files w ++ [(path_join (result_directory ppdt) filename, g)])).
Proof.
  intros Hg H. rewrite make_graphviz_chart_outcome.
  pose proof (chart_graph_result ppdt wl wcn) as Hr. cbn zeta in Hr.
  rewrite H in Hr. destruct Hr as (g & Hr & _). exists g. rewrite Hr.
  split; [done|]. cbn zeta. rewrite Hg. reflexivity.
Qed.

(** X5.  If every named source is a wrapped component and Graphviz renders
    whatever it is given, [make_chart] returns the three entries in their
    order, logs nothing, and writes three pictures into the result
    directory, each holding the graph built for its pair of options. *)
Theorem make_chart_all_rendered w :
  (∀ g p, graphviz g p = Ok ()) →
  (∀ c i src, c ∈ wrapped_components ppdt → i ∈ component_inputs c →
      src_object_name i = Some src → src ∈ component_name <$> wrapped_components ppdt) →
  ∃ g1 g2 g3,
    chart_graph ppdt false true = Ok g1
    ∧ chart_graph ppdt false false = Ok g2
    ∧ chart_graph ppdt true false = Ok g3
    ∧ make_chart graphviz ppdt w
      = (Ok [ mkEntry "System_no_Edge_with_class_labels.png" "System Chart of all components";
              mkEntry "System_no_Edge_labels.png"
                "System Chart of all components and all outputs.";
              mkEntry "System_with_Edge_labels.png" "System Chart with labels on all edges." ],
         mkWorld (log w)
           (files w ++
            [ (path_join (result_directory ppdt) "System_no_Edge_with_class_labels.png", g1);
              (path_join (result_directory ppdt) "System_no_Edge_labels.png", g2);
              (path_join (result_directory ppdt) "System_with_Edge_labels.png", g3) ])).
Proof.
  intros Hg H. apply first_dangling_None in H.
  destruct (make_graphviz_chart_rendered false true "System_no_Edge_with_class_labels.png"
              "System Chart of all components" w Hg H) as (g1 & G1 & R1).
  destruct (make_graphviz_chart_rendered false false "System_no_Edge_labels.png"
              "System Chart of all components and all outputs."
              (mkWorld (log w) (files w ++
                 [(path_join (result_directory ppdt) "System_no_Edge_with_class_labels.png", g1)]))
              Hg H) as (g2 & G2 & R2).
  destruct (make_graphviz_chart_rendered true false "System_with_Edge_labels.png"
              "System Chart with labels on all edges."
              (mkWorld (log w) ((files w ++
                 [(path_join (result_directory ppdt) "System_no_Edge_with_class_labels.png", g1)])
                 ++ [(path_join (result_directory ppdt) "System_no_Edge_labels.png", g2)]))
              Hg H) as (g3 & G3 & R3).
  exists g1, g2, g3. split_and!; [exact G1 | exact G2 | exact G3 |].
  unfold make_chart, mbind, M_bind, mret, M_ret.
  rewrite R1. cbn [log files]. rewrite R2. cbn [log files]. rewrite R3.
  cbn [append_if_some log files]. rewrite <- !app_assoc. reflexivity.
Qed.

End ChartRuns.

(** Witness of X4: a heater whose source, the weather, is no component. *)
Lemma make_chart_dangling_source_witness :
  Chart.log (Chart.make_chart Chart.any_graphviz
               (Chart.mkPpdt [Chart.storage; Chart.dangling] "results")
               (Chart.mkWorld [] [])).2
  = replicate 3 (Chart.failure_message +:+ "'Weather'").
Proof.
  exact (f_equal (λ r, Chart.log r.2)
           (make_chart_dangling_source Chart.any_graphviz
              (Chart.mkPpdt [Chart.storage; Chart.dangling] "results") "Weather"
              (Chart.mkWorld [] []) eq_refl eq_refl)).
Defined.

(** A name with an apostrophe is logged between double quotes, and one with
    both kinds of quote between apostrophes, its own apostrophe escaped. *)
Example key_error_repr :
  str_exn (KeyError "it's") = String double_quote ("it's" +:+ String double_quote "")
  ∧ str_exn (KeyError ("it's" +:+ String double_quote ""))
    = "'it\'s" +:+ String double_quote "'".
Proof. split; reflexivity. Qed.

(** Witness of X5: a household fed by a storage. *)
Lemma make_chart_all_rendered_witness :
  ∃ entries w',
    Chart.make_chart Chart.any_graphviz
      (Chart.mkPpdt [Chart.storage; Chart.household] "results") (Chart.mkWorld [] [])
    = (Ok entries, w')
    ∧ length entries = 3%nat ∧ Chart.log w' = [].
Proof.
  destruct (make_chart_all_rendered Chart.any_graphviz
              (Chart.mkPpdt [Chart.storage; Chart.household] "results")
              (Chart.mkWorld [] []) (λ _ _, eq_refl)
              (proj1 (first_dangling_None ["Storage"; "Household"]
                        [Chart.storage; Chart.household]) eq_refl))
    as (g1 & g2 & g3 & _ & _ & _ & Hrun).
  do 2 eexists. split; [exact Hrun|]. split; reflexivity.
Defined.

Section EdgeLabels.
Import Chart.

Lemma join_labels_app first l1 l2 :
  join_labels (join_labels first l1) l2 = join_labels first (l1 ++ l2).
Proof. unfold join_labels. by rewrite foldl_app. Qed.

Lemma extended_app label l1 l2 :
  extended (extended label l1) l2 = extended label (l1 ++ l2).
Proof.
  destruct label as [l|]; simpl; [by rewrite join_labels_app|].
  destruct l1 as [|x l1]; simpl; [done|]. by rewrite join_labels_app.
Qed.

Lemma extended_nil label : extended label [] = label.
Proof. by destruct label. Qed.

Lemma label_of_add_label labels key label key' :
  label_of (add_label labels key label) key'
  = if decide (key = key') then extended (label_of labels key) [label]
    else label_of labels key'.
Proof.
  induction labels as [|[k l] labels IH]; simpl.
  - destruct (decide (key = key')); done.
  - destruct (decide (k = key)) as [->|Hne]; simpl.
    + destruct (decide (key = key')); done.
    + rewrite IH. destruct (decide (key = key')) as [->|Hne'].
      * by rewrite !decide_False by done.
      * done.
Qed.

Lemma labels_at_skip node_dict c key input inputs :
  src_object_name input = None →
  labels_at node_dict c key (input :: inputs) = labels_at node_dict c key inputs.
Proof. intros H. unfold labels_at. simpl. by rewrite H. Qed.

Lemma labels_at_step node_dict c key input inputs src a b :
  src_object_name input = Some src →
  node_dict !! src = Some a → node_dict !! component_name c = Some b →
  labels_at node_dict c key (input :: inputs)
  = (if decide ((a, b) = key) then [make_edge_label input] else [])
    ++ labels_at node_dict c key inputs.
Proof.
  intros Hs Ha Hb. unfold labels_at. simpl. rewrite Hs, Ha, Hb.
  by destruct (decide ((a, b) = key)).
Qed.

Lemma label_inputs_labels node_dict component inputs : ∀ labels labels',
  label_inputs node_dict component inputs labels = Ok labels' →
  ∀ key, label_of labels' key
         = extended (label_of labels key) (labels_at node_dict component key inputs).
Proof.
  induction inputs as [|input inputs IH]; intros labels labels' H key;
    cbn [label_inputs] in H.
  - injection H as <-. by rewrite extended_nil.
  - destruct (src_object_name input) as [src|] eqn:Es.
    2:{ rewrite labels_at_skip by done. by apply IH. }
    unfold dict_get in H.
    destruct (node_dict !! src) as [a|] eqn:Ea; [|done]. simpl in H.
    destruct (node_dict !! component_name component) as [b|] eqn:Eb; [|done]. simpl in H.
    rewrite (IH _ _ H key), label_of_add_label.
    rewrite (labels_at_step _ _ _ _ _ _ _ _ Es Ea Eb).
    destruct (decide ((a, b) = key)) as [->|Hne]; [|done].
    by rewrite extended_app.
Qed.

Lemma label_components_labels node_dict comps : ∀ labels labels',
  label_components node_dict comps labels = Ok labels' →
  ∀ key, label_of labels' key
         = extended (label_of labels key)
             (concat ((λ c, labels_at node_dict c key (component_inputs c)) <$> comps)).
Proof.
  induction comps as [|c comps IH]; intros labels labels' H key;
    cbn [label_components] in H.
  - injection H as <-. by rewrite extended_nil.
  - destruct (label_inputs node_dict c (component_inputs c) labels) as [labels1|e] eqn:E;
      [|done]. simpl in H.
    rewrite (IH _ _ H key), (label_inputs_labels _ _ _ _ _ E key).
    rewrite fmap_cons. cbn [concat]. by rewrite extended_app.
Qed.

(** Different names are registered with different nodes. *)
Lemma add_nodes_injective wcn comps : ∀ i g d,
  (∀ k n, d !! k = Some n → (node_id n < i)%nat) →
  (∀ k1 k2 n, d !! k1 = Some n → d !! k2 = Some n → k1 = k2) →
  ∀ k1 k2 n, (add_nodes wcn comps i g d).2 !! k1 = Some n →
             (add_nodes wcn comps i g d).2 !! k2 = Some n → k1 = k2.
Proof.
  induction comps as [|c comps IH]; intros i g d Hid Hinj; simpl; [exact Hinj|].
  apply IH.
  - intros k n H. apply lookup_insert_Some in H as [[_ <-]|[_ H]]; simpl; [lia|].
    apply Hid in H. lia.
  - intros k1 k2 n H1 H2.
    apply lookup_insert_Some in H1 as [[<- <-]|[Hne1 H1]];
      apply lookup_insert_Some in H2 as [[E2 E2']|[Hne2 H2]]; try done.
    + apply Hid in H2. simpl in H2. lia.
    + subst n. apply Hid in H1. simpl in H1. lia.
    + by apply (Hinj k1 k2 n).
Qed.

Lemma node_dict_of_injective wcn comps k1 k2 n :
  node_dict_of wcn comps !! k1 = Some n → node_dict_of wcn comps !! k2 = Some n → k1 = k2.
Proof.
  apply add_nodes_injective.
  - intros k n'. by rewrite lookup_empty.
  - intros k1' k2' n'. by rewrite lookup_empty.
Qed.

Lemma labels_at_names node_dict c src dst node_a node_b :
  (∀ k1 k2 n, node_dict !! k1 = Some n → node_dict !! k2 = Some n → k1 = k2) →
  node_dict !! src = Some node_a → node_dict !! dst = Some node_b →
  labels_at node_dict c (node_a, node_b) (component_inputs c)
  = if decide (component_name c = dst) then input_labels src c else [].
Proof.
  intros Hinj Ha Hb. unfold input_labels.
  induction (component_inputs c) as [|input inputs IH].
  - by destruct (decide _).
  - destruct (src_object_name input) as [a|] eqn:Es.
    2:{ rewrite labels_at_skip, IH by done. cbn [omap list_omap]. rewrite Es.
        by rewrite (decide_False (P := None = Some src)). }
    destruct (node_dict !! a) as [x|] eqn:Ex.
    2:{ assert (labels_at node_dict c (node_a, node_b) (input :: inputs)
                = labels_at node_dict c (node_a, node_b) inputs) as ->.
        { unfold labels_at. cbn [omap list_omap]. by rewrite Es, Ex. }
        rewrite IH. cbn [omap list_omap]. rewrite Es.
        rewrite (decide_False (P := Some a = Some src)); [done|].
        intros [= ->]. congruence. }
    destruct (node_dict !! component_name c) as [y|] eqn:Ey.
    2:{ assert (labels_at node_dict c (node_a, node_b) (input :: inputs)
                = labels_at node_dict c (node_a, node_b) inputs) as ->.
        { unfold labels_at. cbn [omap list_omap]. by rewrite Es, Ex, Ey. }
        rewrite IH. rewrite !(decide_False (P := component_name c = dst)); [done|..];
          intros Hc; rewrite Hc in Ey; congruence. }
    rewrite (labels_at_step _ _ _ _ _ _ _ _ Es Ex Ey), IH. cbn [omap list_omap]. rewrite Es.
    destruct (decide (component_name c = dst)) as [Hc|Hc].
    + assert (y = node_b) as -> by (rewrite Hc in Ey; congruence).
      destruct (decide ((x, node_b) = (node_a, node_b))) as [E|E].
      * injection E as ->. rewrite (Hinj _ _ _ Ex Ha). by rewrite decide_True.
      * rewrite (decide_False (P := Some a = Some src)); [done|].
        intros [= ->]. rewrite Ha in Ex. congruence.
    + rewrite decide_False; [done|]. intros [= -> ->]. apply Hc. by apply (Hinj _ _ _ Ey Hb).
Qed.

Lemma label_of_Some labels key l : label_of labels key = Some l → (key, l) ∈ labels.
Proof.
  induction labels as [|[k l'] labels IH]; simpl; [done|].
  destruct (decide (k = key)) as [->|Hne].
  - intros [= ->]. by left.
  - intros H. right. by apply IH.
Qed.

Lemma label_of_None labels key : label_of labels key = None → key ∉ labels.*1.
Proof.
  induction labels as [|[k l'] labels IH]; csimpl; [intros _; apply not_elem_of_nil|].
  destruct (decide (k = key)) as [->|Hne]; [done|].
  intros H. apply not_elem_of_cons. split; [done | by apply IH].
Qed.

Lemma chart_graph_edges ppdt wl wcn g :
  chart_graph ppdt wl wcn = Ok g →
  ∃ labels,
    label_components (node_dict_of wcn (wrapped_components ppdt)) (wrapped_components ppdt) []
    = Ok labels
    ∧ edges g = (λ kl : Node * Node * string,
                   mkEdge kl.1.1 kl.1.2 (if wl then Some kl.2 else None)) <$> labels.
Proof.
  unfold chart_graph, node_dict_of.
  pose proof (add_nodes_graph wcn (wrapped_components ppdt) 0%nat (mkDot [] []) ∅) as [_ He].
  destruct (add_nodes wcn (wrapped_components ppdt) 0 (mkDot [] []) ∅) as [graph node_dict].
  simpl in *.
  destruct (label_components node_dict _ []) as [labels|e]; [|done]. simpl.
  intros [= <-]. exists labels. split; [done|].
  destruct (add_edges_edges wl labels graph) as [-> _]. by rewrite He.
Qed.

(** X18.  What an edge says.  When the three loops run through, take two
    component names and the nodes registered under them.  If no component
    bearing the second name has an input from the first, the graph has no
    edge from the first node to the second.  Otherwise it has the edge
    between them whose label, when labels are asked for, is the labels of
    all those inputs, in the order of the components and of their inputs,
    with a backslash and an [n] between one and the next; without labels the
    edge is there all the same, unlabelled. *)
Theorem edge_labels_joined ppdt with_labels with_class_names g src dst node_a node_b :
  chart_graph ppdt with_labels with_class_names = Ok g →
  node_dict_of with_class_names (wrapped_components ppdt) !! src = Some node_a →
  node_dict_of with_class_names (wrapped_components ppdt) !! dst = Some node_b →
  match labels_between (wrapped_components ppdt) src dst with
  | [] => ∀ e, e ∈ edges g → endpoints e ≠ (node_a, node_b)
  | first :: rest =>
      mkEdge node_a node_b (if with_labels then Some (join_labels first rest) else None)
        ∈ edges g
  end.
Proof.
  intros Hg Ha Hb. destruct (chart_graph_edges _ _ _ _ Hg) as (labels & Hl & He).
  pose proof (label_components_labels _ _ _ _ Hl (node_a, node_b)) as Hkey.
  simpl in Hkey.
  assert (concat ((λ c, labels_at (node_dict_of with_class_names (wrapped_components ppdt)) c
                          (node_a, node_b) (component_inputs c)) <$> wrapped_components ppdt)
          = labels_between (wrapped_components ppdt) src dst) as Hnames.
  { unfold labels_between. f_equal. apply list_fmap_ext. intros i c _.
    apply labels_at_names; [|done..]. apply node_dict_of_injective. }
  rewrite Hnames in Hkey.
  destruct (labels_between (wrapped_components ppdt) src dst) as [|first rest]; simpl in Hkey.
  - intros e Hin Hend. apply label_of_None in Hkey. apply Hkey.
    rewrite He in Hin. apply list_elem_of_fmap in Hin as ([[a b] l] & -> & Hin).
    unfold endpoints in Hend. simpl in Hend. rewrite <- Hend.
    apply list_elem_of_fmap. by exists (a, b, l).
  - apply label_of_Some in Hkey. rewrite He. apply list_elem_of_fmap.
    by exists (node_a, node_b, join_labels first rest).
Qed.
(** Witness of X18: the household takes one input from the storage. *)
Lemma edge_labels_joined_witness :
  ∃ g label,
    chart_graph (mkPpdt [storage; household] "results") true false = Ok g
    ∧ mkEdge (mkNode 0 "Storage") (mkNode 1 "Household") (Some label) ∈ edges g.
Proof.
  eexists _, _. split; [vm_compute; reflexivity|].
  exact (edge_labels_joined (mkPpdt [storage; household] "results") true false _
           "Storage" "Household" (mkNode 0 "Storage") (mkNode 1 "Household")
           eq_refl eq_refl eq_refl).
Defined.

End EdgeLabels.


(** ** The load-profile connector: edge cases and compositions *)

Section PyIndexing.

Lemma py_index_out_of_range {A} (l : list A) (t : Z) :
  len l ≤ t ∨ t < - len l → py_index l t = Raise IndexError.
Proof.
  intros H. unfold py_index. unfold len in *.
  destruct (Z.ltb_spec t 0) as [Hneg|Hpos]; cbn zeta.
  - destruct H as [H|H]; [lia|].
    assert ((t + Z.of_nat (length l) <? 0) = true) as -> by (apply Z.ltb_lt; lia). done.
  - destruct H as [H|H]; [|lia].
    assert ((t <? 0) = false) as -> by (apply Z.ltb_ge; lia).
    assert ((Z.of_nat (length l) <=? t) = true) as -> by (apply Z.leb_le; lia). done.
Qed.

Lemma py_index_wraps {A} (l : list A) (t : Z) :
  - len l ≤ t < 0 → py_index l t = py_index l (t + len l).
Proof.
  intros H. unfold py_index at 1. unfold len in *.
  assert ((t <? 0) = true) as -> by (apply Z.ltb_lt; lia). cbn zeta.
  rewrite py_index_unfold by lia. unfold len.
  assert ((t + Z.of_nat (length l) <? 0) = false) as -> by (apply Z.ltb_ge; lia).
  done.
Qed.

Lemma py_index_ok_range {A} (l : list A) (t : Z) v :
  py_index l t = Ok v → - len l ≤ t < len l.
Proof.
  intros H. destruct (decide (len l ≤ t ∨ t < - len l)) as [Hout|Hin]; [|lia].
  by rewrite py_index_out_of_range in H.
Qed.

End PyIndexing.

Section SimulateDomain.
Import Utsp.

Lemma warm_water_index cfg c values t e :
  py_index (water_consumption c) t = Raise e → warm_water cfg c values t = Raise e.
Proof. intros H. unfold warm_water. by rewrite H. Qed.

Lemma warm_water_same_index cfg c values t t' :
  py_index (water_consumption c) t = py_index (water_consumption c) t' →
  warm_water_block cfg c values t = warm_water_block cfg c values t'.
Proof. intros H. unfold warm_water_block, warm_water. by rewrite H. Qed.

Lemma i_simulate_out_of_range cfg t fc s n :
  len (number_of_residents (self s)) = n →
  len (water_consumption (self s)) = n →
  n ≤ t ∨ t < - n → i_simulate cfg t fc s = (Raise IndexError, s).
Proof.
  intros L1 L4 Hout.
  assert (py_index (water_consumption (self s)) t = Raise IndexError) as Hw
    by (apply py_index_out_of_range; by rewrite L4).
  assert (py_index (number_of_residents (self s)) t = Raise IndexError) as Hr
    by (apply py_index_out_of_range; by rewrite L1).
  destruct (warm_water_block cfg (self s) (stsv s) t) as [o|e] eqn:Eb.
  - unfold i_simulate. unfold_sim. simpl. rewrite Eb, Hr. done.
  - rewrite (i_simulate_block_raises _ _ _ _ _ Eb). f_equal.
    unfold warm_water_block in Eb. destruct (source_output _); [|done].
    rewrite (warm_water_index _ _ _ _ _ Hw) in Eb. simpl in Eb. congruence.
Qed.

(** X6.  The time steps [i_simulate] accepts, for series of one length [n]:
    at a time step of [n] or more, or below [-n], the call raises
    [IndexError] before it has written anything, and leaves the state as it
    was; a negative time step from [-n] on is not rejected but counts from
    the end, so that without the predictive option the call does exactly
    what it does at time step [t + n]. *)
Theorem i_simulate_timestep_domain cfg t fc s n :
  len (number_of_residents (self s)) = n →
  len (heating_by_residents (self s)) = n →
  len (electricity_consumption (self s)) = n →
  len (water_consumption (self s)) = n →
  (n ≤ t ∨ t < - n → i_simulate cfg t fc s = (Raise IndexError, s))
  ∧ (- n ≤ t < 0 → predictive (my_simulation_parameters (self s)) = false →
       i_simulate cfg t fc s = i_simulate cfg (t + n) fc s).
Proof.
  intros L1 L2 L3 L4. split.
  - by apply i_simulate_out_of_range.
  - intros Hin Hp. unfold i_simulate. unfold_sim. simpl.
    rewrite (warm_water_same_index cfg (self s) (stsv s) t (t + n))
      by (rewrite <- L4 at 1; apply py_index_wraps; by rewrite L4).
    rewrite (py_index_wraps (number_of_residents (self s)) t), L1 by (by rewrite L1).
    rewrite (py_index_wraps (heating_by_residents (self s)) t), L2 by (by rewrite L2).
    rewrite (py_index_wraps (electricity_consumption (self s)) t), L3 by (by rewrite L3).
    rewrite (py_index_wraps (water_consumption (self s)) t), L4 by (by rewrite L4).
    by rewrite Hp.
Qed.
End SimulateDomain.

Section SimulateOutcomes.
Import Utsp.

Lemma last_forecast_timestep_ok (c : UtspLpgConnector) t :
  seconds_per_timestep (my_simulation_parameters c) ≠ 0 →
  is_ok (last_forecast_timestep c t) = true.
Proof.
  intros H. unfold last_forecast_timestep.
  rewrite py_div_ok by (by apply inject_Z_nonzero). done.
Qed.

Lemma last_forecast_timestep_zero (c : UtspLpgConnector) t :
  seconds_per_timestep (my_simulation_parameters c) = 0 →
  last_forecast_timestep c t = Raise ZeroDivisionError.
Proof. intros H. unfold last_forecast_timestep. by rewrite H. Qed.

(** X7.  With the predictive option and a step width of zero seconds, a call
    whose time step is in range and whose warm-water block runs through
    raises [ZeroDivisionError] only after the four outputs have been
    written: the state it leaves is the one after the four writes, with no
    forecast stored. *)
Theorem forecast_fails_after_the_writes cfg t fc s :
  predictive (my_simulation_parameters (self s)) = true →
  seconds_per_timestep (my_simulation_parameters (self s)) = 0 →
  0 ≤ t < len (number_of_residents (self s)) →
  0 ≤ t < len (heating_by_residents (self s)) →
  0 ≤ t < len (electricity_consumption (self s)) →
  0 ≤ t < len (water_consumption (self s)) →
  is_ok (warm_water_block cfg (self s) (stsv s) t) = true →
  ∃ v1 v2 v3 v4,
    number_of_residents (self s) !! Z.to_nat t = Some v1
    ∧ heating_by_residents (self s) !! Z.to_nat t = Some v2
    ∧ electricity_consumption (self s) !! Z.to_nat t = Some v3
    ∧ water_consumption (self s) !! Z.to_nat t = Some v4
    ∧ i_simulate cfg t fc s = (Raise ZeroDivisionError, after_writes s v1 v2 v3 v4).
Proof.
  intros Hp Hz H1 H2 H3 H4 Hb.
  destruct (py_index_in_range _ _ H1) as (v1 & E1 & L1).
  destruct (py_index_in_range _ _ H2) as (v2 & E2 & L2).
  destruct (py_index_in_range _ _ H3) as (v3 & E3 & L3).
  destruct (py_index_in_range _ _ H4) as (v4 & E4 & L4).
  destruct (warm_water_block cfg (self s) (stsv s) t) as [o|e] eqn:Eb; [|done].
  exists v1, v2, v3, v4. split_and!; try done.
  rewrite (i_simulate_writes cfg t fc s o v1 v2 v3 v4 Eb E1 E2 E3 E4). cbn zeta.
  by rewrite Hp, last_forecast_timestep_zero.
Qed.

(** X8.  When the warm-water block runs through, its satisfaction flag is 0
    or 1.  With a positive energy demand the discharged energy is the
    demand, the return temperature is the fresh-water temperature plus
    [temperature_difference_cold], the mass drawn is the discharged energy
    divided by the divisor of line 218, and that division having succeeded,
    the divisor is not zero and the temperature used is not the return
    temperature.  Without a positive demand no mass is drawn, no energy is
    discharged, and the temperature is passed through as it was read, the
    first-iteration substitution not applying. *)
Theorem warm_water_block_outcome cfg c values t w :
  warm_water cfg c values t = Ok w →
  (demand_satisfied w = 0 ∨ demand_satisfied w = 1)
  ∧ ((0 < ww_energy_demand w)%Q →
       (energy_discharged w == ww_energy_demand w)%Q
       ∧ ww_temperature_output w
         = (freshwater_temperature cfg + temperature_difference_cold cfg)%Q
       ∧ ww_mass_output w
         = (energy_discharged w / divisor cfg (ww_temperature_input_used w))%Q
       ∧ ¬ (divisor cfg (ww_temperature_input_used w) == 0)%Q
       ∧ ¬ (ww_temperature_input_used w == ww_temperature_output w)%Q)
  ∧ ((ww_energy_demand w <= 0)%Q →
       ww_mass_output w = 0%Q ∧ energy_discharged w = 0%Q
       ∧ ww_temperature_output w = ww_temperature_input_used w
       ∧ ww_temperature_input_used w = get_input_value values (ww_temperature_input c)).
Proof.
  unfold warm_water. intros H.
  destruct (py_index (water_consumption c) t) as [consumption|e]; [|done]. simpl in H.
  set (demand := demand_of cfg consumption) in *.
  destruct (warm_up demand _ _) as [temperature mass] eqn:Ew.
  destruct (Qgtb demand 0) eqn:Ed.
  - apply Qgtb_true in Ed.
    unfold py_div in H. destruct (Qeq_bool (divisor cfg temperature) 0) eqn:Ez; [done|].
    simpl in H. inversion H; subst w; clear H. simpl.
    assert (¬ (divisor cfg temperature == 0)%Q) as Hnz.
    { intros Hq. apply Qeq_bool_iff in Hq. congruence. }
    split_and!.
    + destruct (_ || _); auto.
    + intros _. split_and!.
      * ring.
      * done.
      * done.
      * exact Hnz.
      * intros Heq. apply Hnz. apply divisor_zero. by right.
    + intros Hle. exfalso. apply (Qlt_not_le _ _ Ed Hle).
  - apply Qgtb_false in Ed. inversion H; subst w; clear H. simpl.
    split_and!.
    + destruct (_ || _); auto.
    + intros Hlt. exfalso. apply (Qlt_not_le _ _ Hlt Ed).
    + intros _. split_and!; try done.
      unfold warm_up in Ew.
      assert (Qgtb demand 0 = false) as Hg by (by apply Qgtb_false).
      rewrite Hg in Ew. simpl in Ew. congruence.
Qed.
End SimulateOutcomes.

Section SimulateTwice.
Import Utsp.

Lemma State_ext (a b : State) :
  self a = self b → stsv a = stsv b →
  simulation_repository a = simulation_repository b → trace a = trace b → a = b.
Proof. destruct a, b. simpl. congruence. Qed.

Lemma i_simulate_ok_inv cfg t fc s :
  (i_simulate cfg t fc s).1 = Ok () →
  ∃ o v1 v2 v3 v4,
    warm_water_block cfg (self s) (stsv s) t = Ok o
    ∧ py_index (number_of_residents (self s)) t = Ok v1
    ∧ py_index (heating_by_residents (self s)) t = Ok v2
    ∧ py_index (electricity_consumption (self s)) t = Ok v3
    ∧ py_index (water_consumption (self s)) t = Ok v4.
Proof.
  unfold i_simulate. unfold_sim. simpl.
  destruct (warm_water_block cfg (self s) (stsv s) t) as [o|e]; [|done]. simpl.
  destruct (py_index (number_of_residents (self s)) t) as [v1|e]; [|done]. simpl.
  destruct (py_index (heating_by_residents (self s)) t) as [v2|e]; [|done]. simpl.
  destruct (py_index (electricity_consumption (self s)) t) as [v3|e]; [|done]. simpl.
  destruct (py_index (water_consumption (self s)) t) as [v4|e]; [|done]. simpl.
  intros _. by exists o, v1, v2, v3, v4.
Qed.

Lemma warm_water_block_inputs cfg c values values' t :
  get_input_value values (ww_mass_input c) = get_input_value values' (ww_mass_input c) →
  get_input_value values (ww_temperature_input c)
    = get_input_value values' (ww_temperature_input c) →
  warm_water_block cfg c values t = warm_water_block cfg c values' t.
Proof. intros Hm Ht. unfold warm_water_block, warm_water. by rewrite Hm, Ht. Qed.

Lemma get_input_value_after_writes s v1 v2 v3 v4 input :
  (∀ k, source_output input = Some k → k ∉ declared_outputs (self s)) →
  get_input_value (stsv (after_writes s v1 v2 v3 v4)) input = get_input_value (stsv s) input.
Proof.
  intros H. unfold get_input_value. destruct (source_output input) as [k|]; [|done].
  specialize (H k eq_refl). unfold declared_outputs in H.
  rewrite !not_elem_of_cons in H. destruct H as (N1 & N2 & N3 & N4 & _).
  unfold after_writes. cbn [stsv self].
  by rewrite !lookup_insert_ne by done.
Qed.

Lemma after_writes_twice s v1 v2 v3 v4 :
  stsv (after_writes (after_writes s v1 v2 v3 v4) v1 v2 v3 v4)
  = stsv (after_writes s v1 v2 v3 v4).
Proof.
  unfold after_writes. cbn [stsv self]. apply map_eq. intros k.
  rewrite !lookup_insert. repeat case_decide; done.
Qed.

(** X9.  Calling [i_simulate] again at the same time step changes nothing:
    if neither input is fed by one of the connector's own outputs and a
    call returns, a second call from the state it leaves returns as well,
    performs the same writes, and leaves object, value store and simulation
    repository as the first one left them. *)
Theorem i_simulate_idempotent cfg t fc s :
  (∀ k, source_output (ww_mass_input (self s)) = Some k → k ∉ declared_outputs (self s)) →
  (∀ k, source_output (ww_temperature_input (self s)) = Some k →
        k ∉ declared_outputs (self s)) →
  (i_simulate cfg t fc s).1 = Ok () →
  let s1 := (i_simulate cfg t fc s).2 in
  let s2 := (i_simulate cfg t fc s1).2 in
  (i_simulate cfg t fc s1).1 = Ok ()
  ∧ self s2 = self s1
  ∧ stsv s2 = stsv s1
  ∧ simulation_repository s2 = simulation_repository s1
  ∧ performed (i_simulate cfg t fc) s1 = performed (i_simulate cfg t fc) s.
Proof.
  intros Hm Ht Hok.
  destruct (i_simulate_ok_inv _ _ _ _ Hok) as (o & v1 & v2 & v3 & v4 & Eb & E1 & E2 & E3 & E4).
  pose proof (i_simulate_writes cfg t fc s o v1 v2 v3 v4 Eb E1 E2 E3 E4) as Hs.
  cbn zeta in Hs.
  assert (∃ repo tail,
            i_simulate cfg t fc s
            = (Ok (), mkState (self s) (stsv (after_writes s v1 v2 v3 v4)) repo
                        (trace (after_writes s v1 v2 v3 v4) ++ tail))
            ∧ ∀ s', self s' = self s →
                warm_water_block cfg (self s') (stsv s') t = Ok o →
                stsv s' = stsv (after_writes s v1 v2 v3 v4) →
                simulation_repository s' = repo →
                i_simulate cfg t fc s'
                = (Ok (), mkState (self s) (stsv (after_writes s v1 v2 v3 v4)) repo
                            (trace (after_writes s' v1 v2 v3 v4) ++ tail)))
    as (repo & tail & Hrun & Hagain).
  { rewrite Hs in Hok |- *. clear Hs.
    assert (∀ s', self s' = self s →
              warm_water_block cfg (self s') (stsv s') t = Ok o →
              i_simulate cfg t fc s'
              = (if predictive (my_simulation_parameters (self s)) then
                   match last_forecast_timestep (self s) t with
                   | Ok last =>
                       let forecast := py_slice (electricity_consumption (self s)) t last in
                       (Ok (), mkState (self s) (stsv (after_writes s' v1 v2 v3 v4))
                                 (<[Electricity_Demand_Forecast_24h := forecast]>
                                    (simulation_repository s'))
                                 (trace (after_writes s' v1 v2 v3 v4)
                                    ++ [SetEntry Electricity_Demand_Forecast_24h forecast]))
                   | Raise e => (Raise e, after_writes s' v1 v2 v3 v4)
                   end
                 else (Ok (), after_writes s' v1 v2 v3 v4))) as Hgen.
    { intros s' Hself Hb'.
      rewrite (i_simulate_writes cfg t fc s' o v1 v2 v3 v4 Hb') by (by rewrite Hself).
      cbn zeta. by rewrite Hself. }
    destruct (predictive (my_simulation_parameters (self s))).
    - destruct (last_forecast_timestep (self s) t) as [last|e]; [|done].
      eexists _, _. split; [reflexivity|].
      intros s' Hself Hb' Hstsv Hrepo. rewrite (Hgen s' Hself Hb'). cbn zeta.
      f_equal. f_equal.
      + unfold after_writes in *. cbn [stsv self] in *. rewrite Hself, Hstsv.
        apply map_eq. intros k. rewrite !lookup_insert. repeat case_decide; done.
      + rewrite Hrepo. by rewrite insert_insert_eq.
    - exists (simulation_repository s), []. split.
      { rewrite app_nil_r. unfold after_writes. done. }
      intros s' Hself Hb' Hstsv Hrepo. rewrite (Hgen s' Hself Hb').
      rewrite app_nil_r. f_equal.
      apply State_ext; cbn [self stsv simulation_repository trace]; [done| |done|done].
      unfold after_writes in *. cbn [stsv self] in *. rewrite Hself, Hstsv.
      apply map_eq. intros k. rewrite !lookup_insert. repeat case_decide; done. }
  cbn zeta. rewrite Hrun. cbn [fst snd].
  set (s1 := mkState (self s) (stsv (after_writes s v1 v2 v3 v4)) repo
               (trace (after_writes s v1 v2 v3 v4) ++ tail)).
  assert (warm_water_block cfg (self s1) (stsv s1) t = Ok o) as Eb1.
  { rewrite <- Eb. apply warm_water_block_inputs; by apply get_input_value_after_writes. }
  rewrite (Hagain s1 eq_refl Eb1 eq_refl eq_refl). cbn [fst snd self stsv simulation_repository].
  split_and!; try done.
  rewrite (performed_app _ s1 (drop (length (trace s)) (trace s1))).
  - unfold performed. by rewrite Hrun.
  - rewrite (Hagain s1 eq_refl Eb1 eq_refl eq_refl). cbn [snd trace].
    unfold after_writes at 1. cbn [trace self]. rewrite <- app_assoc. f_equal.
    subst s1. cbn [trace self]. unfold after_writes. cbn [trace self].
    rewrite <- app_assoc, drop_app_length. done.
Qed.
End SimulateTwice.

Section PyMax.

Lemma foldl_max_spec (rest : list Q) : ∀ x,
  let m := foldl (λ m y, if Qgtb y m then y else m) x rest in
  m ∈ x :: rest ∧ (x <= m)%Q ∧ ∀ y, y ∈ rest → (y <= m)%Q.
Proof.
  induction rest as [|y rest IH]; intros x; cbn zeta.
  - simpl. split_and!; [by left | apply Qle_refl | intros y Hy; by apply elem_of_nil in Hy].
  - cbn [foldl]. set (x' := if Qgtb y x then y else x).
    destruct (IH x') as (Hin & Hle & Hall). fold x' in Hin, Hle, Hall.
    assert ((x <= x')%Q ∧ (y <= x')%Q ∧ (x' = x ∨ x' = y)) as (Hx & Hy & Hc).
    { unfold x'. destruct (Qgtb y x) eqn:E.
      - apply Qgtb_true in E. split_and!; [by apply Qlt_le_weak | apply Qle_refl | by right].
      - apply Qgtb_false in E. split_and!; [apply Qle_refl | done | by left]. }
    split_and!.
    + apply elem_of_cons in Hin as [Hin|Hin].
      * rewrite Hin. destruct Hc as [-> | ->]; [by left | right; by left].
      * right. by right.
    + by apply Qle_trans with x'.
    + intros z Hz. apply elem_of_cons in Hz as [->|Hz]; [by apply Qle_trans with x' | by apply Hall].
Qed.

Lemma py_max_spec (l : list Q) m :
  py_max l = Ok m → m ∈ l ∧ ∀ x, x ∈ l → (x <= m)%Q.
Proof.
  destruct l as [|x rest]; [done|]. simpl. intros [= <-].
  destruct (foldl_max_spec rest x) as (Hin & Hle & Hall). split; [done|].
  intros z Hz. apply elem_of_cons in Hz as [->|Hz]; [done | by apply Hall].
Qed.

Lemma py_max_ok (l : list Q) : l ≠ [] → is_ok (py_max l) = true.
Proof. by destruct l. Qed.

End PyMax.

Section BuildOutcomes.
Import Utsp.

Lemma column_ok dataframe name :
  name ∈ dataframe.*1 → is_ok (column dataframe name) = true.
Proof.
  induction dataframe as [|[n values] rest IH]; csimpl.
  - intros H. by apply elem_of_nil in H.
  - intros H. destruct (String.eqb n name) eqn:E; [done|].
    apply IH. apply elem_of_cons in H as [->|H]; [|done].
    by rewrite String.eqb_refl in E.
Qed.

Lemma column_missing dataframe name :
  name ∉ dataframe.*1 → column dataframe name = Raise (KeyError name).
Proof.
  induction dataframe as [|[n values] rest IH]; csimpl; [done|].
  intros H. apply not_elem_of_cons in H as [Hne H].
  destruct (String.eqb n name) eqn:E; [|by apply IH].
  apply String.eqb_eq in E. congruence.
Qed.

(** The first of the four lookups that fails decides the exception. *)
Lemma load_cache_missing dataframe before name after :
  cache_columns = before ++ name :: after →
  (∀ n, n ∈ before → n ∈ dataframe.*1) →
  name ∉ dataframe.*1 →
  load_cache dataframe = Raise (KeyError name).
Proof.
  intros Hc Hb Hn. unfold load_cache.
  assert (∀ n, n ∈ before → ∃ v, column dataframe n = Ok v) as Hok.
  { intros n Hin. pose proof (column_ok dataframe n (Hb n Hin)) as H.
    destruct (column dataframe n) as [v|]; [by exists v | done]. }
  pose proof (column_missing dataframe name Hn) as Hm.
  unfold cache_columns in Hc.
  destruct before as [|b1 before]; simplify_eq/=; [by rewrite Hm|].
  destruct (Hok "number_of_residents") as [v1 ->]; [by left|]. simpl.
  destruct before as [|b2 before]; simplify_eq/=; [by rewrite Hm|].
  destruct (Hok "heating_by_residents") as [v2 ->]; [right; by left|]. simpl.
  destruct before as [|b3 before]; simplify_eq/=; [by rewrite Hm|].
  destruct (Hok "electricity_consumption") as [v3 ->]; [right; right; by left|]. simpl.
  destruct before as [|b4 before]; simplify_eq/=; [by rewrite Hm|].
  destruct before; simplify_eq/=.
Qed.

(** X10.  A cache file that lacks one of the four columns: [build] raises
    [KeyError] for the first column, in the order number_of_residents,
    heating_by_residents, electricity_consumption, water_consumption, that
    the file does not have; it has looked the cache up and read the file and
    done nothing else (no request is sent), and [max_hot_water_demand] is
    not set. *)
Theorem build_cache_hit_missing_column env s before name after :
  cache_file_exists env = true →
  cache_columns = before ++ name :: after →
  (∀ n, n ∈ before → n ∈ (cache_file env).*1) →
  name ∉ (cache_file env).*1 →
  (build env s).1 = Raise (KeyError name)
  ∧ performed (build env) s = [GetCacheFile; ReadCsv (cache_filepath env)]
  ∧ max_hot_water_demand (self (build env s).2) = max_hot_water_demand (self s).
Proof.
  intros Hex Hc Hb Hn. pose proof (build_run env s) as Hrun. cbn zeta in Hrun.
  rewrite Hex, (load_cache_missing _ _ _ _ Hc Hb Hn) in Hrun.
  split_and!.
  - by rewrite Hrun.
  - apply performed_app. by rewrite Hrun.
  - by rewrite Hrun.
Qed.

Lemma finish_ok s :
  (finish s).1 = Ok () →
  ∃ m, py_max (water_consumption (self s)) = Ok m
       ∧ self (finish s).2 = with_max_hot_water_demand (self s) m.
Proof.
  unfold finish. destruct (py_max _) as [m|e]; [|done]. intros _. by exists m.
Qed.

Lemma finish_raises s e :
  (finish s).1 = Raise e →
  water_consumption (self s) = []
  ∧ e = ValueError "max() arg is an empty sequence"
  ∧ (finish s).2 = s.
Proof.
  unfold finish. destruct (water_consumption (self s)) as [|x rest] eqn:E; simpl; [|done].
  intros [= <-]. done.
Qed.

(** What a [build] that returns has gone through. *)
Lemma build_ok_inv env s :
  (build env s).1 = Ok () →
  ∃ series m,
    (if cache_file_exists env then load_cache (cache_file env) = Ok series
     else ∃ reply rows,
            utsp_server env = Ok reply
            ∧ compute_series (my_simulation_parameters (self s)) reply = Ok series
            ∧ rows_of (residents series) (heating series)
                (electricity series) (water series) = Ok rows)
    ∧ py_max (water series) = Ok m
    ∧ self (build env s).2 = with_max_hot_water_demand (with_series (self s) series) m.
Proof.
  rewrite build_run. cbn zeta. destruct (cache_file_exists env).
  - destruct (load_cache (cache_file env)) as [series|e] eqn:El; [|done].
    intros H. destruct (finish_ok _ H) as (m & Hm & Hs). by exists series, m.
  - destruct (utsp_server env) as [reply|e] eqn:Eu; [|done].
    destruct (compute_series _ reply) as [series|e] eqn:Ec; [|done].
    destruct (rows_of _ _ _ _) as [rows|e] eqn:Er; [|done].
    intros H. destruct (finish_ok _ H) as (m & Hm & Hs).
    exists series, m. split_and!; [|done..]. by exists reply, rows.
Qed.

(** X11.  When [build] returns, on either path, [max_hot_water_demand] is an
    entry of the water series (which therefore is not empty) and no entry of
    the series exceeds it. *)
Theorem build_max_hot_water_demand env s :
  (build env s).1 = Ok () →
  let c := self (build env s).2 in
  max_hot_water_demand c ∈ water_consumption c
  ∧ ∀ x, x ∈ water_consumption c → (x <= max_hot_water_demand c)%Q.
Proof.
  intros H. destruct (build_ok_inv env s H) as (series & m & _ & Hm & Hs).
  cbn zeta. rewrite Hs. simpl. by apply py_max_spec.
Qed.
End BuildOutcomes.

Section SeriesLengths.
Import Utsp.

Lemma for_each_invariant {A S} (P : S → Prop) (body : S → A → result S) (l : list A) :
  (∀ acc x acc', body acc x = Ok acc' → P acc → P acc') →
  ∀ acc acc', for_each l body acc = Ok acc' → P acc → P acc'.
Proof.
  intros Hbody. induction l as [|x l IH]; intros acc acc'; simpl.
  - by intros [= <-].
  - destruct (body acc x) as [acc1|e] eqn:E; simpl; [|done].
    intros H HP. apply (IH acc1 acc' H). by apply (Hbody acc x).
Qed.

Lemma add_occupancy_lengths n gain values acc t acc' :
  add_occupancy gain values acc t = Ok acc' → same_lengths n acc → same_lengths n acc'.
Proof.
  destruct acc as [a b]. unfold add_occupancy, same_lengths.
  destruct (py_index a t); [|done]. simpl.
  destruct (py_index values t); [|done]. simpl.
  destruct (py_index b t); [|done]. simpl.
  intros [= <-]. simpl. by rewrite !length_insert.
Qed.

Lemma average_occupancy_lengths n r gain values acc t acc' :
  average_occupancy r gain values acc t = Ok acc' → same_lengths n acc → same_lengths n acc'.
Proof.
  destruct acc as [a b]. unfold average_occupancy, same_lengths.
  destruct (py_div _ _); [|done]. simpl.
  destruct (py_index a t); [|done]. simpl.
  destruct (py_index b t); [|done]. simpl.
  intros [= <-]. simpl. by rewrite !length_insert.
Qed.

Lemma for_modes_lengths n body profile count acc acc' :
  (∀ gain values acc t acc',
     body gain values acc t = Ok acc' → same_lengths n acc → same_lengths n acc') →
  for_modes body profile count acc = Ok acc' → same_lengths n acc → same_lengths n acc'.
Proof.
  intros Hbody. unfold for_modes.
  apply (for_each_invariant (same_lengths n)).
  intros acc1 [gain values] acc2. apply (for_each_invariant (same_lengths n)).
  apply Hbody.
Qed.

Lemma rows_of_lengths a : ∀ b c d rows,
  rows_of a b c d = Ok rows →
  length b = length a ∧ length c = length a ∧ length d = length a ∧ length rows = length a.
Proof.
  induction a as [|x a IH]; intros [|y b] [|z c] [|w d] rows H; simpl in H; try done.
  - by inversion H.
  - destruct (rows_of a b c d) as [rest|e] eqn:E; simpl in H; [|done].
    inversion H; subst. destruct (IH _ _ _ _ E) as (Hb & Hc & Hd & Hr). simpl. lia.
Qed.

Lemma rows_of_total a : ∀ b c d,
  length b = length a → length c = length a → length d = length a →
  is_ok (rows_of a b c d) = true.
Proof.
  induction a as [|x a IH]; intros [|y b] [|z c] [|w d] Hb Hc Hd; simpl in *; try done.
  specialize (IH b c d ltac:(lia) ltac:(lia) ltac:(lia)).
  by destruct (rows_of a b c d).
Qed.

Lemma py_div_ok_inv a b y : py_div a b = Ok y → y = (a / b)%Q ∧ ¬ (b == 0)%Q.
Proof.
  unfold py_div. destruct (Qeq_bool b 0) eqn:E; [done|]. intros [= <-]. split; [done|].
  intros H. apply Qeq_bool_iff in H. congruence.
Qed.

Lemma comprehension_py_div (num : Z → Q) (den : Q) (l : list Z) ys :
  comprehension (λ n, py_div (num n) den) l = Ok ys →
  ys = (λ n, (num n / den)%Q) <$> l.
Proof.
  revert ys. induction l as [|k l IH]; intros ys; simpl.
  - by intros [= <-].
  - destruct (py_div (num k) den) as [y|] eqn:E; [|done]. simpl.
    destruct (comprehension _ l) as [ys'|]; [|done]. simpl.
    intros [= <-]. f_equal; [by apply py_div_ok_inv in E as [-> _] | by apply IH].
Qed.

(** What [resample] returns, when it returns. *)
Lemma resample_ok_inv so sd r profile el wc series :
  resample so sd r profile el wc = Ok series →
  length (residents series) = Z.to_nat sd
  ∧ length (heating series) = Z.to_nat sd
  ∧ ((so = sd ∧ electricity series = el ∧ water series = wc)
     ∨ (sd < so ∧ ∃ starts,
          py_range_step so r = Ok starts
          ∧ electricity series
            = (λ n, (py_sum (py_slice el n (n + r)) / inject_Z r)%Q) <$> starts
          ∧ water series = (λ n, py_sum (py_slice wc n (n + r))) <$> starts)).
Proof.
  unfold resample.
  assert (same_lengths (Z.to_nat sd)
            (replicate (Z.to_nat sd) 0%Q, replicate (Z.to_nat sd) 0%Q)) as Hinit.
  { split; simpl; by rewrite length_replicate. }
  destruct (Z.eqb_spec so sd) as [Heq|Hne].
  - destruct (for_modes add_occupancy _ _ _) as [[a b]|e] eqn:E; [|done]. simpl.
    intros [= <-]. simpl.
    destruct (for_modes_lengths (Z.to_nat sd) _ _ _ _ _
                (add_occupancy_lengths (Z.to_nat sd)) E Hinit) as [Ha Hb].
    split_and!; [done..|]. left. done.
  - destruct (Z.ltb_spec sd so) as [Hlt|Hge]; [|done].
    destruct (for_modes (average_occupancy r) _ _ _) as [[a b]|e] eqn:E; [|done]. simpl.
    destruct (for_modes_lengths (Z.to_nat sd) _ _ _ _ _
                (average_occupancy_lengths (Z.to_nat sd) r) E Hinit) as [Ha Hb].
    destruct (py_range_step so r) as [starts|e] eqn:Es; [|done]. simpl.
    destruct (comprehension _ starts) as [el'|e] eqn:Ec; [|done]. simpl.
    intros [= <-]. simpl. split_and!; [done..|]. right. split; [done|].
    exists starts. split_and!; [done| |done].
    by apply (comprehension_py_div (λ n, py_sum (py_slice el n (n + r)))).
Qed.

Lemma compute_series_ok_inv params reply series :
  compute_series params reply = Ok series →
  let so := len (high_activity_values reply) in
  ∃ sd r,
    steps_desired_of params = Ok sd
    ∧ steps_ratio_of so sd = Ok r
    ∧ resample so sd r [high_activity_values reply; low_activity_values reply]
        ((λ x, x * 1000 * 60)%Q <$> electricity_sum_kwh reply) (warm_water_sum_l reply)
      = Ok series.
Proof.
  unfold compute_series.
  destruct (steps_desired_of params) as [sd|e] eqn:Esd; [|done]. simpl.
  destruct (steps_ratio_of _ sd) as [r|e] eqn:Er; [|done]. simpl.
  intros H. by exists sd, r.
Qed.

Lemma steps_ratio_of_zero so : steps_ratio_of so 0 = Raise ZeroDivisionError.
Proof. done. Qed.

Lemma blocks_cover so sd :
  0 < sd → sd < so → (so + so / sd - 1) / (so / sd) = sd → so mod sd = 0.
Proof.
  intros Hsd Hlt H. set (r := so / sd) in *.
  assert (0 < r) as Hr by (unfold r; apply Z.div_str_pos; lia).
  pose proof (Z.div_mod so sd ltac:(lia)) as Hdm. fold r in Hdm.
  pose proof (Z.mod_pos_bound so sd Hsd) as Hk.
  pose proof (Z.mul_succ_div_gt (so + r - 1) r Hr) as Hup. rewrite H in Hup.
  nia.
Qed.

(** A miss that [build] survives. *)
Lemma build_miss_series env s :
  cache_file_exists env = false →
  (build env s).1 = Ok () →
  let so reply := len (high_activity_values reply) in
  ∃ reply sd r series,
    utsp_server env = Ok reply
    ∧ steps_desired_of (my_simulation_parameters (self s)) = Ok sd
    ∧ steps_ratio_of (so reply) sd = Ok r
    ∧ resample (so reply) sd r [high_activity_values reply; low_activity_values reply]
        ((λ x, x * 1000 * 60)%Q <$> electricity_sum_kwh reply) (warm_water_sum_l reply)
      = Ok series
    ∧ 0 < sd
    ∧ len (number_of_residents (self (build env s).2)) = sd
    ∧ len (heating_by_residents (self (build env s).2)) = sd
    ∧ len (electricity_consumption (self (build env s).2)) = sd
    ∧ len (water_consumption (self (build env s).2)) = sd.
Proof.
  intros Hex Hok. cbn zeta.
  destruct (build_ok_inv env s Hok) as (series & m & Hpath & Hm & Hs).
  rewrite Hex in Hpath. destruct Hpath as (reply & rows & Hu & Hc & Hrows).
  destruct (compute_series_ok_inv _ _ _ Hc) as (sd & r & Hsd & Hr & Hres).
  destruct (resample_ok_inv _ _ _ _ _ _ _ Hres) as (Lr & Lh & _).
  destruct (rows_of_lengths _ _ _ _ _ Hrows) as (Lh' & Le & Lw & _).
  assert (0 < sd) as Hpos.
  { destruct (water series) as [|x rest] eqn:Ew; [done|]. simpl in Lw. lia. }
  exists reply, sd, r, series. rewrite Hs. unfold len in *. simpl.
  split_and!; try done; lia.
Qed.

(** X12.  When [build] returns on a cache miss, the request was answered, the
    number of simulation steps [steps_desired] is positive, the number of
    original steps is a multiple of it, and each of the four series of the
    object has exactly [steps_desired] entries. *)
Theorem build_miss_series_lengths env s :
  cache_file_exists env = false →
  (build env s).1 = Ok () →
  let c := self (build env s).2 in
  ∃ reply sd,
    utsp_server env = Ok reply
    ∧ steps_desired_of (my_simulation_parameters (self s)) = Ok sd
    ∧ 0 < sd
    ∧ len (high_activity_values reply) mod sd = 0
    ∧ len (number_of_residents c) = sd
    ∧ len (heating_by_residents c) = sd
    ∧ len (electricity_consumption c) = sd
    ∧ len (water_consumption c) = sd.
Proof.
  intros Hex Hok. cbn zeta.
  destruct (build_miss_series env s Hex Hok)
    as (reply & sd & r & series & Hu & Hsd & Hr & Hres & Hpos & L1 & L2 & L3 & L4).
  exists reply, sd. split_and!; try done.
  (* the electricity series has one entry per block of the original steps *)
  destruct (build_ok_inv env s Hok) as (series' & m & Hpath & _ & Hs).
  rewrite Hex, Hu in Hpath. destruct Hpath as (reply' & rows & [= <-] & Hc & _).
  destruct (compute_series_ok_inv _ _ _ Hc) as (sd' & r' & Hsd' & Hr' & Hres').
  rewrite Hsd in Hsd'. injection Hsd' as <-.
  rewrite Hr in Hr'. injection Hr' as <-.
  rewrite Hres in Hres'. injection Hres' as <-.
  assert (len (electricity series) = sd) as Lel by (by rewrite Hs in L3).
  destruct (resample_ok_inv _ _ _ _ _ _ _ Hres)
    as (_ & _ & [(Heq & _)|(Hlt & starts & Hstarts & Hel & _)]).
  - rewrite Heq. apply Z.mod_same. lia.
  - rewrite steps_ratio_floor in Hr by (unfold len; lia). injection Hr as <-.
    rewrite py_range_step_positive in Hstarts by (apply Z.div_str_pos; lia).
    injection Hstarts as <-.
    rewrite Hel in Lel. unfold len at 1 in Lel. unfold py_range in Lel.
    rewrite !length_fmap, length_seq in Lel.
    apply blocks_cover; [done..|].
    assert (0 ≤ (len (high_activity_values reply)
                 + len (high_activity_values reply) / sd - 1)
                / (len (high_activity_values reply) / sd)).
    { apply Z.div_pos; [|apply Z.div_str_pos; lia].
      pose proof (Z.div_str_pos (len (high_activity_values reply)) sd ltac:(lia)). lia. }
    lia.
Qed.

End SeriesLengths.

Section BuildThenSimulate.
Import Utsp.

Lemma steps_desired_of_ok params sd :
  steps_desired_of params = Ok sd → seconds_per_timestep params ≠ 0.
Proof.
  unfold steps_desired_of. intros H Hz. rewrite Hz in H. done.
Qed.

(** X13.  [build] followed by [i_simulate].  After a [build] that returned on
    a cache miss, on a connector whose mass input is not connected, and
    whatever the value store and the repository hold: at every time step
    from 0 up to [steps_desired], the call returns and the store holds, at
    the four outputs, the entries of the four series at that step; at
    [steps_desired] and beyond it raises [IndexError] and changes nothing. *)
Theorem build_then_simulate env s cfg fc t values repository effects :
  cache_file_exists env = false →
  (build env s).1 = Ok () →
  source_output (ww_mass_input (self s)) = None →
  let c := self (build env s).2 in
  let s1 := mkState c values repository effects in
  ∃ sd,
    steps_desired_of (my_simulation_parameters (self s)) = Ok sd
    ∧ (sd ≤ t → i_simulate cfg t fc s1 = (Raise IndexError, s1))
    ∧ (0 ≤ t < sd →
         ∃ v1 v2 v3 v4,
           number_of_residents c !! Z.to_nat t = Some v1
           ∧ heating_by_residents c !! Z.to_nat t = Some v2
           ∧ electricity_consumption c !! Z.to_nat t = Some v3
           ∧ water_consumption c !! Z.to_nat t = Some v4
           ∧ (i_simulate cfg t fc s1).1 = Ok ()
           ∧ stsv (i_simulate cfg t fc s1).2 = stsv (after_writes s1 v1 v2 v3 v4)).
Proof.
  intros Hex Hok Hsrc. cbn zeta.
  destruct (build_miss_series env s Hex Hok)
    as (reply & sd & r & series0 & _ & Hsd & _ & _ & Hpos & L1 & L2 & L3 & L4).
  destruct (build_ok_inv env s Hok) as (series & m & _ & _ & Hs).
  set (c := self (build env s).2) in *.
  set (s1 := mkState c values repository effects).
  assert (source_output (ww_mass_input c) = None) as Hsrc' by (by rewrite Hs).
  assert (my_simulation_parameters c = my_simulation_parameters (self s)) as Hparams
    by (by rewrite Hs).
  exists sd. split_and!; [done| |].
  - intros Ht. apply (i_simulate_out_of_range cfg t fc s1 sd L1 L4). by left.
  - intros Ht.
    destruct (py_index_in_range (number_of_residents c) t) as (v1 & E1 & I1); [lia|].
    destruct (py_index_in_range (heating_by_residents c) t) as (v2 & E2 & I2); [lia|].
    destruct (py_index_in_range (electricity_consumption c) t) as (v3 & E3 & I3); [lia|].
    destruct (py_index_in_range (water_consumption c) t) as (v4 & E4 & I4); [lia|].
    exists v1, v2, v3, v4.
    pose proof (i_simulate_writes cfg t fc s1 None v1 v2 v3 v4
                  (warm_water_block_unbound cfg c values t Hsrc') E1 E2 E3 E4) as Hrun.
    cbn zeta in Hrun. change (self s1) with c in Hrun.
    pose proof (last_forecast_timestep_ok c t) as Hl.
    rewrite Hparams in Hl, Hrun. specialize (Hl (steps_desired_of_ok _ _ Hsd)).
    rewrite Hrun.
    split_and!; [done..| |]; destruct (predictive _); try done;
      destruct (last_forecast_timestep c t); done.
Qed.
End BuildThenSimulate.

Section ComputeOutcomes.
Import Utsp.

Lemma steps_ratio_negative so sd :
  0 ≤ so → sd < 0 → steps_ratio_of so sd = Ok (- (so / - sd)).
Proof.
  intros Hso Hsd. unfold steps_ratio_of.
  rewrite py_div_ok by (apply inject_Z_nonzero; lia). simpl. f_equal.
  assert (inject_Z so / inject_Z sd == - (inject_Z so / inject_Z (- sd)))%Q as Hq.
  { rewrite inject_Z_opp. field. apply inject_Z_nonzero. lia. }
  assert (0 <= inject_Z so / inject_Z (- sd))%Q as Hnn.
  { apply Qle_shift_div_l.
    - change 0%Q with (inject_Z 0). rewrite <- Zlt_Qlt. lia.
    - rewrite Qmult_0_l. change 0%Q with (inject_Z 0). rewrite <- Zle_Qle. lia. }
  unfold int_of_float.
  destruct (Qle_bool 0 (inject_Z so / inject_Z sd)) eqn:E.
  - apply Qle_bool_iff in E. rewrite Hq in E.
    assert (inject_Z so / inject_Z (- sd) == 0)%Q as Hzero.
    { apply Qle_antisym; [|done].
      apply Qopp_le_compat in E. rewrite Qopp_opp in E. exact E. }
    rewrite Hq, Hzero. rewrite (Zdiv_Qdiv so (- sd)). rewrite Hzero. done.
  - unfold Qceiling. rewrite Hq, Qopp_opp. by rewrite <- Zdiv_Qdiv.
Qed.

Lemma for_each_raises {A S} (l1 l2 : list A) x (body : S → A → result S) acc acc1 e :
  for_each l1 body acc = Ok acc1 → body acc1 x = Raise e →
  for_each (l1 ++ x :: l2) body acc = Raise e.
Proof. intros H1 H2. rewrite for_each_app, H1. simpl. by rewrite H2. Qed.

Lemma py_range_split (k n : nat) :
  (k < n)%nat → ∃ rest, py_range (Z.of_nat n) = py_range (Z.of_nat k) ++ Z.of_nat k :: rest.
Proof.
  intros H. rewrite !py_range_nat.
  exists (Z.of_nat <$> seq (S k) (n - k - 1)).
  rewrite <- fmap_cons, <- fmap_app. f_equal.
  change (k :: seq (S k) (n - k - 1)) with (seq k (S (n - k - 1))).
  change k with (0 + k)%nat at 2. rewrite <- seq_app. f_equal. lia.
Qed.

(** A low-activity profile shorter than the high-activity one ends the
    equal-resolution loops at the first step it lacks. *)
Lemma for_modes_short_profile high low :
  (length low < length high)%nat →
  for_modes add_occupancy [high; low] (len high)
    (replicate (length high) 0%Q, replicate (length high) 0%Q)
  = Raise IndexError.
Proof.
  intros Hlen. set (n := length high). rewrite for_modes_two. unfold len. fold n.
  destruct (for_each_pointwise
              (λ i x, (x + default 0 (high !! i))%Q) (λ i y, (y + 150 * default 0 (high !! i))%Q)
              (add_occupancy 150%Q high) (replicate n 0%Q) (replicate n 0%Q) n)
    as (a1 & b1 & Hrun1 & La1 & Lb1 & _); [by rewrite length_replicate..| |].
  { intros i a b x y Hi Ha Hb.
    destruct (lookup_lt_is_Some_2 high i) as [v Hv]; [done|].
    rewrite Hv. simpl. by apply add_occupancy_step. }
  rewrite length_replicate in La1, Lb1. rewrite Hrun1. simpl.
  destruct (for_each_pointwise
              (λ i x, (x + default 0 (low !! i))%Q) (λ i y, (y + 100 * default 0 (low !! i))%Q)
              (add_occupancy 100%Q low) a1 b1 (length low))
    as (a2 & b2 & Hrun2 & La2 & Lb2 & _); [lia | lia | |].
  { intros i a b x y Hi Ha Hb.
    destruct (lookup_lt_is_Some_2 low i) as [v Hv]; [done|].
    rewrite Hv. simpl. by apply add_occupancy_step. }
  destruct (py_range_split (length low) n Hlen) as [rest ->].
  apply (for_each_raises _ _ _ _ _ _ _ Hrun2).
  unfold add_occupancy.
  destruct (py_index_in_range a2 (Z.of_nat (length low))) as (v & -> & _);
    [unfold len; lia|]. simpl.
  rewrite py_index_out_of_range by (left; unfold len; lia). done.
Qed.

(** X14.  What decides the outcome of the computation of the series (lines
    423-510), for a reply whose four files have been parsed.  A step width
    of zero raises [ZeroDivisionError].  Otherwise, with [steps_desired] the
    number of simulation steps as line 428 computes it, [so] the length of
    the high-activity profile and [ll] that of the low-activity profile:
    [steps_desired = 0] raises [ZeroDivisionError]; [so < steps_desired]
    raises the wrong-resolution exception; [so = steps_desired > 0] with a
    shorter low-activity profile raises [IndexError], and with [so <= ll]
    series are returned; [0 < steps_desired < so] returns series; a negative
    [steps_desired] with [so < -steps_desired] raises the [ValueError] of
    [range] for a zero step, and with [-steps_desired <= so] all four series
    are returned empty.  The cases exclude one another and leave nothing
    out. *)
Theorem compute_series_outcome params reply :
  let so := len (high_activity_values reply) in
  let ll := len (low_activity_values reply) in
  let outcome := compute_series params reply in
  (seconds_per_timestep params = 0 → outcome = Raise ZeroDivisionError)
  ∧ ∀ sd, steps_desired_of params = Ok sd →
      (sd = 0 → outcome = Raise ZeroDivisionError)
      ∧ (0 < sd → so < sd → outcome = Raise (PyException wrong_resolution))
      ∧ (0 < sd → so = sd → ll < so → outcome = Raise IndexError)
      ∧ (0 < sd → so = sd → so ≤ ll → is_ok outcome = true)
      ∧ (0 < sd → sd < so → is_ok outcome = true)
      ∧ (sd < 0 → so < - sd →
         outcome = Raise (ValueError "range() arg 3 must not be zero"))
      ∧ (sd < 0 → - sd ≤ so → outcome = Ok (mkSeries [] [] [] []))
      ∧ (sd = 0 ∨ (0 < sd ∧ (so < sd ∨ so = sd ∨ sd < so)) ∨ sd < 0).
Proof.
  intros so ll outcome. subst outcome. split.
  { intros Hz. unfold compute_series, steps_desired_of, int_true_div. by rewrite Hz. }
  intros sd Hsd.
  assert (0 ≤ so) as Hso by (unfold so, len; lia).
  destruct (Z.lt_trichotomy sd 0) as [Hneg|[->|Hpos]].
  - (* a negative number of steps *)
    assert (compute_series params reply
            = if so <? - sd then Raise (ValueError "range() arg 3 must not be zero")
              else Ok (mkSeries [] [] [] [])) as Hout.
    { unfold compute_series. rewrite Hsd. simpl. fold so.
      rewrite steps_ratio_negative by done. simpl.
      unfold resample.
      assert ((so =? sd) = false) as -> by (apply Z.eqb_neq; lia).
      assert ((sd <? so) = true) as -> by (apply Z.ltb_lt; lia).
      assert (Z.to_nat sd = 0%nat) as Hn by lia.
      rewrite for_modes_two. unfold py_range. rewrite Hn. simpl.
      unfold py_range_step.
      destruct (Z.eqb_spec (- (so / - sd)) 0) as [Hr0|Hr0].
      + simpl. assert (so / - sd = 0) as Hq by lia.
        apply Z.div_small_iff in Hq; [|lia].
        by assert ((so <? - sd) = true) as -> by (apply Z.ltb_lt; lia).
      + assert (0 < so / - sd) as Hq.
        { pose proof (Z.div_pos so (- sd) Hso ltac:(lia)). lia. }
        assert ((- (so / - sd) <? 0) = true) as -> by (apply Z.ltb_lt; lia).
        assert (- sd ≤ so) as Hle.
        { destruct (Z.lt_ge_cases so (- sd)) as [Hlt|Hge]; [|done].
          rewrite Z.div_small in Hq by lia. lia. }
        rewrite Z.opp_involutive.
        assert ((- so + so / - sd - 1) / (so / - sd) < 0) as Hcount.
        { apply Z.div_lt_upper_bound; [done|].
          pose proof (Z.mul_div_le so (- sd) ltac:(lia)). nia. }
        unfold py_range.
        replace (Z.to_nat ((- so + so / - sd - 1) / (so / - sd))) with 0%nat by lia.
        simpl. by assert ((so <? - sd) = false) as -> by (apply Z.ltb_ge; lia). }
    rewrite Hout. split_and!; try (intros; lia).
    + intros _ Hlt. by assert ((so <? - sd) = true) as -> by (apply Z.ltb_lt; lia).
    + intros _ Hle. by assert ((so <? - sd) = false) as -> by (apply Z.ltb_ge; lia).
  - (* no steps at all *)
    assert (compute_series params reply = Raise ZeroDivisionError) as Hout.
    { unfold compute_series. rewrite Hsd. simpl. done. }
    rewrite Hout. split_and!; try done; intros; lia.
  - pose proof (compute_series_unfold params reply sd Hsd Hpos) as Hcs.
    rewrite Hcs. subst so ll.
    set (high := high_activity_values reply) in *.
    set (low := low_activity_values reply) in *.
    destruct (Z.lt_trichotomy (len high) sd) as [Hlt|[Heq|Hgt]].
    + assert (resample (len high) sd (len high / sd) [high; low]
                ((λ x, x * 1000 * 60)%Q <$> electricity_sum_kwh reply)
                (warm_water_sum_l reply) = Raise (PyException wrong_resolution)) as ->.
      { unfold resample.
        assert ((len high =? sd) = false) as -> by (apply Z.eqb_neq; lia).
        by assert ((sd <? len high) = false) as -> by (apply Z.ltb_ge; lia). }
      split_and!; try done; intros; lia.
    + subst sd. destruct (Z.le_gt_cases (len high) (len low)) as [Hle|Hshort].
      * destruct (resample_equal high low
                    ((λ x, x * 1000 * 60)%Q <$> electricity_sum_kwh reply)
                    (warm_water_sum_l reply) (len high / len high)) as (series & -> & _).
        { unfold len in Hle. lia. }
        split_and!; try done; intros; lia.
      * assert (resample (len high) (len high) (len high / len high) [high; low]
                  ((λ x, x * 1000 * 60)%Q <$> electricity_sum_kwh reply)
                  (warm_water_sum_l reply) = Raise IndexError) as ->.
        { unfold resample. rewrite Z.eqb_refl.
          replace (Z.to_nat (len high)) with (length high) by (unfold len; lia).
          by rewrite for_modes_short_profile by (unfold len in Hshort; lia). }
        split_and!; try done; intros; lia.
    + assert (0 < len high / sd) as Hr by (apply Z.div_str_pos; lia).
      assert (sd * (len high / sd) ≤ len high) as Hmul by (apply Z.mul_div_le; lia).
      destruct (resample_greater high low
                  ((λ x, x * 1000 * 60)%Q <$> electricity_sum_kwh reply)
                  (warm_water_sum_l reply) (len high) sd (len high / sd) Hpos Hgt Hr Hmul)
        as (series & -> & _).
      split_and!; try done; intros; lia.
Qed.
End ComputeOutcomes.

Section Blocks.
Import Utsp.

Lemma py_slice_take_drop {A} (l : list A) (a b : Z) :
  0 ≤ a ≤ b → py_slice l a b = take (Z.to_nat (b - a)) (drop (Z.to_nat a) l).
Proof.
  intros H. unfold py_slice, slice_bound, len.
  assert ((a <? 0) = false) as -> by (apply Z.ltb_ge; lia).
  assert ((b <? 0) = false) as -> by (apply Z.ltb_ge; lia).
  destruct (Z.le_gt_cases a (Z.of_nat (length l))) as [Ha|Ha].
  - rewrite (Z.min_l a) by lia.
    destruct (Z.le_gt_cases b (Z.of_nat (length l))) as [Hb|Hb].
    + by rewrite Z.min_l by lia.
    + rewrite Z.min_r by lia. rewrite !take_ge; [done|..]; rewrite length_drop; lia.
  - rewrite !Z.min_r by lia. rewrite Z.sub_diag. simpl.
    rewrite (drop_ge l (Z.to_nat a)) by lia. by rewrite take_nil.
Qed.

(** The first [m] blocks of [r] values, one after the other, are the first
    [m * r] values. *)
Lemma blocks_concat {A} (l : list A) (r : Z) (m : nat) :
  0 < r →
  concat (blocks_from l r ((λ k, k * r) <$> py_range (Z.of_nat m)))
  = take (m * Z.to_nat r) l.
Proof.
  intros Hr. unfold blocks_from. induction m as [|m IH].
  - done.
  - rewrite py_range_succ, !fmap_app, concat_app, IH. simpl. rewrite app_nil_r.
    rewrite py_slice_take_drop by nia.
    replace (Z.to_nat (Z.of_nat m * r + r - Z.of_nat m * r)) with (Z.to_nat r) by lia.
    replace (Z.to_nat (Z.of_nat m * r)) with (m * Z.to_nat r)%nat by nia.
    replace (Z.to_nat r + m * Z.to_nat r)%nat with (m * Z.to_nat r + Z.to_nat r)%nat by lia.
    by rewrite take_take_drop.
Qed.

Lemma blocks_from_short {A} (l : list A) (r : Z) (starts : list Z) :
  0 < r → Forall (λ n, 0 ≤ n) starts →
  Forall (λ b, len b ≤ r) (blocks_from l r starts).
Proof.
  intros Hr Hs. unfold blocks_from. apply Forall_fmap.
  eapply Forall_impl; [exact Hs|]. intros n Hn. unfold compose. cbn beta in Hn |- *.
  rewrite py_slice_take_drop by lia. unfold len.
  replace (n + r - n) with r by lia.
  pose proof (Nat.le_min_l (Z.to_nat r) (length (drop (Z.to_nat n) l))) as Hmin.
  rewrite length_take. lia.
Qed.

(** X15.  Averaging goes over the original values block by block.  When
    there are more original steps than simulation steps, the series are
    formed, and there are two lists of blocks, of at most [steps_ratio]
    values each, such that every entry of the water series is the sum of its
    block of water values and every entry of the electricity series the sum
    of its block of powers divided by the ratio; and if the water file (the
    electricity file) has no more rows than the activity profile, its blocks
    put one after the other are exactly its values: no value is left out
    and none is counted twice. *)
Theorem averaging_goes_block_by_block params reply sd :
  steps_desired_of params = Ok sd →
  0 < sd < len (high_activity_values reply) →
  let so := len (high_activity_values reply) in
  let r := so / sd in
  let watts := (λ x, x * 1000 * 60)%Q <$> electricity_sum_kwh reply in
  let litres := warm_water_sum_l reply in
  ∃ series water_blocks watt_blocks,
    compute_series params reply = Ok series
    ∧ water series = py_sum <$> water_blocks
    ∧ electricity series = (λ b, (py_sum b / inject_Z r)%Q) <$> watt_blocks
    ∧ Forall (λ b, len b ≤ r) water_blocks
    ∧ Forall (λ b, len b ≤ r) watt_blocks
    ∧ (len litres ≤ so → concat water_blocks = litres)
    ∧ (len watts ≤ so → concat watt_blocks = watts).
Proof.
  intros Hsd [Hpos Hlt]. cbn zeta.
  set (so := len (high_activity_values reply)) in *.
  set (r := so / sd).
  assert (0 < r) as Hr by (unfold r; apply Z.div_str_pos; lia).
  assert (sd * r ≤ so) as Hmul by (unfold r; apply Z.mul_div_le; lia).
  pose proof (compute_series_unfold params reply sd Hsd Hpos) as Hcs. fold so r in Hcs.
  destruct (resample_greater (high_activity_values reply) (low_activity_values reply)
              ((λ x, x * 1000 * 60)%Q <$> electricity_sum_kwh reply) (warm_water_sum_l reply)
              so sd r Hpos Hlt Hr Hmul) as (series & Hrun & _).
  destruct (resample_ok_inv _ _ _ _ _ _ _ Hrun) as (_ & _ & [(Heq & _)|(_ & starts & Hs & He & Hw)]);
    [lia|].
  rewrite py_range_step_positive in Hs by done. injection Hs as <-.
  set (count := (so + r - 1) / r) in *.
  assert (0 ≤ count) as Hc0 by (unfold count; apply Z.div_pos; lia).
  assert (so ≤ count * r) as Hcover.
  { unfold count. pose proof (Z.mul_succ_div_gt (so + r - 1) r Hr). lia. }
  assert (∀ l : list Q, len l ≤ so → take (Z.to_nat count * Z.to_nat r) l = l) as Hall.
  { intros l Hl. apply take_ge. unfold len in Hl. nia. }
  assert (Forall (λ n, 0 ≤ n) ((λ k, k * r) <$> py_range count)) as Hstarts.
  { apply Forall_fmap. unfold py_range. apply Forall_fmap, Forall_forall.
    intros k _. simpl. nia. }
  exists series,
    (blocks_from (warm_water_sum_l reply) r ((λ k, k * r) <$> py_range count)),
    (blocks_from ((λ x, x * 1000 * 60)%Q <$> electricity_sum_kwh reply) r
       ((λ k, k * r) <$> py_range count)).
  rewrite Hcs. split_and!.
  - done.
  - rewrite Hw. unfold blocks_from.
    exact (list_fmap_compose (λ n, py_slice (warm_water_sum_l reply) n (n + r)) py_sum _).
  - rewrite He. unfold blocks_from.
    exact (list_fmap_compose
             (λ n, py_slice ((λ x, x * 1000 * 60)%Q <$> electricity_sum_kwh reply) n (n + r))
             (λ b, (py_sum b / inject_Z r)%Q) _).
  - by apply blocks_from_short.
  - by apply blocks_from_short.
  - intros Hlen. rewrite <- (Z2Nat.id count Hc0). rewrite blocks_concat by done. by apply Hall.
  - intros Hlen. rewrite <- (Z2Nat.id count Hc0). rewrite blocks_concat by done. by apply Hall.
Qed.
End Blocks.

Section BuildAndCache.
Import Utsp.

Lemma saved_files_no_cache_write env c reply :
  filter (λ e, is_cache_write e = true) (saved_files env c reply) = [].
Proof.
  unfold saved_files. induction (flexibility_events env :: transport_files reply) as [|x l IH];
    [done|]. rewrite fmap_cons, filter_cons_False; [done|]. simpl. done.
Qed.

(** X16.  When [build] raises on a cache miss: if it was the request that
    failed, the exception is that of the request, and nothing but the cache
    look-up and the request has been performed; and in every case either no
    cache file has been written, or the exception is the [ValueError] of
    [max] on an empty series and the table written last has no rows. *)
Theorem build_miss_failure env s e :
  cache_file_exists env = false →
  (build env s).1 = Raise e →
  let effects := performed (build env) s in
  let c := self s in
  (∀ e', utsp_server env = Raise e' →
     e = e' ∧ effects = [GetCacheFile; RequestTimeSeries (url (utsp_config c))])
  ∧ (filter (λ e, is_cache_write e = true) effects = []
     ∨ (e = ValueError "max() arg is an empty sequence"
        ∧ ∃ before, effects = before ++ [ToCsv (cache_filepath env) cache_columns []])).
Proof.
  intros Hex Hraise. cbn zeta.
  pose proof (build_run env s) as Hrun. cbn zeta in Hrun. rewrite Hex in Hrun.
  destruct (utsp_server env) as [reply|e0] eqn:Eu.
  2:{ rewrite Hrun in Hraise. simpl in Hraise. injection Hraise as ->.
      assert (performed (build env) s
              = [GetCacheFile; RequestTimeSeries (url (utsp_config (self s)))]) as Hp
        by (apply performed_app; by rewrite Hrun).
      split; [by intros e' [= <-] | left; by rewrite Hp]. }
  split; [done|].
  assert (filter (λ e, is_cache_write e = true)
            (GetCacheFile :: RequestTimeSeries (url (utsp_config (self s)))
               :: saved_files env (self s) reply) = []) as Hnone.
  { rewrite filter_cons_False by (simpl; done). rewrite filter_cons_False by (simpl; done).
    apply saved_files_no_cache_write. }
  destruct (compute_series _ reply) as [series|e0] eqn:Ec.
  2:{ left. rewrite (performed_app _ _ _ ltac:(by rewrite Hrun)). exact Hnone. }
  destruct (rows_of _ _ _ _) as [rows|e0] eqn:Er.
  2:{ left. rewrite (performed_app _ _ _ ltac:(by rewrite Hrun)). exact Hnone. }
  right. rewrite Hrun in Hraise.
  destruct (finish_raises _ _ Hraise) as (Hw & -> & Hst). simpl in Hw.
  split; [done|].
  destruct (rows_of_lengths _ _ _ _ _ Er) as (_ & _ & Lw & Lrows).
  rewrite Hw in Lw. simpl in Lw.
  assert (rows = []) as -> by (apply nil_length_inv; lia).
  eexists. apply performed_app. rewrite Hrun, Hst. cbn [trace]. reflexivity.
Qed.

(** X17.  The cache written by a [build] is read back to the same object.
    When [build] returns on a cache miss, its last effect is the write of
    the table; and a later [build] that finds this table in the cache
    returns, looks the cache up and reads the file without sending a
    request, and leaves the object, [max_hot_water_demand] included, as the
    first [build] left it. *)
Theorem rebuild_from_cache env s :
  cache_file_exists env = false →
  (build env s).1 = Ok () →
  let s1 := (build env s).2 in
  ∃ before rows,
    performed (build env) s = before ++ [ToCsv (cache_filepath env) cache_columns rows]
    ∧ ∀ env', cache_file_exists env' = true →
        cache_file env' = written_file cache_columns rows →
        (build env' s1).1 = Ok ()
        ∧ self (build env' s1).2 = self s1
        ∧ performed (build env') s1 = [GetCacheFile; ReadCsv (cache_filepath env')].
Proof.
  intros Hex Hok. cbn zeta.
  destruct (build_ok_inv env s Hok) as (series & m & Hpath & Hm & Hs).
  rewrite Hex in Hpath. destruct Hpath as (reply & rows & Hu & Hc & Hrows).
  pose proof (build_run env s) as Hrun. cbn zeta in Hrun.
  rewrite Hex, Hu, Hc, Hrows in Hrun.
  exists (GetCacheFile :: RequestTimeSeries (url (utsp_config (self s)))
            :: saved_files env (self s) reply), rows.
  split.
  { apply performed_app. rewrite Hrun.
    match goal with |- context [finish ?st] =>
      destruct (finish_state st) as (_ & _ & -> & _) end.
    done. }
  intros env' Hex' Hfile.
  pose proof (build_run env' (build env s).2) as Hrun'. cbn zeta in Hrun'.
  rewrite Hex', Hfile, (load_written_file series rows Hrows) in Hrun'.
  unfold finish in Hrun'. cbn [self] in Hrun'.
  assert (water_consumption (with_series (self (build env s).2) series) = water series)
    as Hw by done.
  rewrite Hw, Hm in Hrun'.
  split_and!.
  - by rewrite Hrun'.
  - rewrite Hrun'. cbn [snd self]. rewrite Hs. by destruct (self s).
  - apply performed_app. by rewrite Hrun'.
Qed.
End BuildAndCache.

(** ** Witnesses of the preconditions *)

Section ConnectorWitnesses.
Import Utsp.

(** Witness of X6: the sample connector has two time steps. *)
Lemma i_simulate_timestep_domain_witness :
  i_simulate sample_configuration 2 false (sample_state false 1 50)
  = (Raise IndexError, sample_state false 1 50).
Proof.
  exact (proj1 (i_simulate_timestep_domain sample_configuration 2 false
                  (sample_state false 1 50) 2 eq_refl eq_refl eq_refl eq_refl)
           (or_introl (Z.le_refl 2))).
Defined.

(** Witness of X7: a connector loaded from a cache, with a zero step width. *)
Lemma forecast_fails_after_the_writes_witness :
  (i_simulate sample_configuration 0 false zero_step_state).1 = Raise ZeroDivisionError.
Proof.
  destruct (forecast_fails_after_the_writes sample_configuration 0 false zero_step_state
              eq_refl eq_refl
              ltac:(vm_compute; split; [discriminate | reflexivity])
              ltac:(vm_compute; split; [discriminate | reflexivity])
              ltac:(vm_compute; split; [discriminate | reflexivity])
              ltac:(vm_compute; split; [discriminate | reflexivity])
              eq_refl)
    as (v1 & v2 & v3 & v4 & _ & _ & _ & _ & Hrun).
  exact (f_equal fst Hrun).
Defined.

(** Witness of X8: one litre drawn from a storage at 50 degrees. *)
Lemma warm_water_block_outcome_witness :
  ∃ w, warm_water sample_configuration (sample_connector false)
         (stsv (sample_state false 1 50)) 0 = Ok w
       ∧ (demand_satisfied w = 0 ∨ demand_satisfied w = 1).
Proof.
  eexists. split; [vm_compute; reflexivity|].
  apply (warm_water_block_outcome sample_configuration (sample_connector false)
           (stsv (sample_state false 1 50)) 0).
  vm_compute. reflexivity.
Defined.

(** Witness of X9: the second step of the sample connector, fed by a
    storage. *)
Lemma i_simulate_idempotent_witness :
  let s1 := (i_simulate sample_configuration 1 false (sample_state true 1 50)).2 in
  stsv (i_simulate sample_configuration 1 false s1).2 = stsv s1.
Proof.
  refine (proj1 (proj2 (proj2 (i_simulate_idempotent sample_configuration 1 false
                                 (sample_state true 1 50) _ _ _)))).
  - intros k [= <-] Hin.
    repeat (apply elem_of_cons in Hin as [Hin|Hin]; [discriminate|]).
    by apply elem_of_nil in Hin.
  - intros k [= <-] Hin.
    repeat (apply elem_of_cons in Hin as [Hin|Hin]; [discriminate|]).
    by apply elem_of_nil in Hin.
  - vm_compute. reflexivity.
Defined.

(** Witness of X10: a cache file with the residents but without the heating. *)
Lemma build_cache_hit_missing_column_witness :
  (build incomplete_cache (initial_state four_steps sample_config)).1
  = Raise (KeyError "heating_by_residents").
Proof.
  refine (proj1 (build_cache_hit_missing_column incomplete_cache
                   (initial_state four_steps sample_config)
                   ["number_of_residents"] "heating_by_residents"
                   ["electricity_consumption"; "water_consumption"] eq_refl eq_refl _ _)).
  - intros n Hn. apply list_elem_of_singleton in Hn as ->. cbn. right. left.
  - intros Hin. cbn in Hin.
    repeat (apply elem_of_cons in Hin as [Hin|Hin]; [discriminate|]).
    by apply elem_of_nil in Hin.
Defined.

(** Witness of X11: one day in four steps, fetched from the server. *)
Lemma build_max_hot_water_demand_witness :
  let c := self (build sample_environment (initial_state four_steps sample_config)).2 in
  max_hot_water_demand c ∈ water_consumption c.
Proof.
  exact (proj1 (build_max_hot_water_demand sample_environment
                  (initial_state four_steps sample_config)
                  ltac:(vm_compute; reflexivity))).
Defined.

(** Witness of X12: one day in four steps. *)
Lemma build_miss_series_lengths_witness :
  ∃ sd, steps_desired_of four_steps = Ok sd ∧ 0 < sd.
Proof.
  destruct (build_miss_series_lengths sample_environment
              (initial_state four_steps sample_config) eq_refl
              ltac:(vm_compute; reflexivity))
    as (reply & sd & _ & Hsd & Hpos & _).
  exists sd. split; [exact Hsd | exact Hpos].
Defined.

(** Witness of X13: the second of four steps after a build. *)
Lemma build_then_simulate_witness :
  ∃ sd, steps_desired_of four_steps = Ok sd.
Proof.
  destruct (build_then_simulate sample_environment
              (initial_state four_steps sample_config) sample_configuration false 1 ∅ ∅ []
              eq_refl ltac:(vm_compute; reflexivity) eq_refl)
    as (sd & Hsd & _).
  exists sd. exact Hsd.
Defined.

(** Witness of X15: four original steps averaged into two. *)
Lemma averaging_goes_block_by_block_witness :
  ∃ series water_blocks,
    compute_series two_steps sample_reply = Ok series
    ∧ water series = py_sum <$> water_blocks
    ∧ concat water_blocks = warm_water_sum_l sample_reply.
Proof.
  destruct (averaging_goes_block_by_block two_steps sample_reply 2 eq_refl
              (conj eq_refl eq_refl))
    as (series & water_blocks & watt_blocks & Hc & Hw & _ & _ & _ & Hall & _).
  exists series, water_blocks. split; [exact Hc|]. split; [exact Hw|].
  apply Hall. vm_compute. discriminate.
Defined.

(** Witness of X16: the server cannot be reached. *)
Lemma build_miss_failure_witness :
  performed (build unreachable_server) (initial_state four_steps sample_config)
  = [GetCacheFile; RequestTimeSeries (url sample_config)].
Proof.
  exact (proj2 (proj1 (build_miss_failure unreachable_server
                         (initial_state four_steps sample_config)
                         (OSError "connection refused") eq_refl eq_refl)
                  (OSError "connection refused") eq_refl)).
Defined.

(** Witness of X17: one day in four steps, fetched and cached. *)
Lemma rebuild_from_cache_witness :
  ∃ before rows,
    performed (build sample_environment) (initial_state four_steps sample_config)
    = before ++ [ToCsv (cache_filepath sample_environment) cache_columns rows].
Proof.
  destruct (rebuild_from_cache sample_environment (initial_state four_steps sample_config)
              eq_refl ltac:(vm_compute; reflexivity))
    as (before & rows & Hp & _).
  exists before, rows. exact Hp.
Defined.

End ConnectorWitnesses.
